(** * objectnode/router.go: route registration of the S3-compatible gateway

    [registerApiRouters] builds, on a gorilla/mux router, the table of
    routes of the object node: one sub-router per configured domain (with and
    without a port), one path-style sub-router, and on each of them the same
    HEAD, GET, POST, PUT and DELETE routes.  This development embeds that
    table call by call and the router it is built on, and settles the
    routing and authorization properties of the specification on it. *)

From Stdlib Require Import String Ascii List Bool Arith Lia.
From stdpp Require Import base strings gmap.
Import ListNotations.

#[local] Set Warnings "-register-all".

(** ** Names declared elsewhere in package objectnode

    The handlers are methods of [ObjectNode] and the actions are constants of
    type [Action]; router.go only names them.  They are kept as opaque
    tokens, one constructor per name used in router.go. *)

Inductive Handler :=
  | headObjectHandler | headBucketHandler
  | getObjectHandler | getObjectTagging | getObjectXAttr | listObjectXAttrs
  | getObjectACLHandler | getBucketV2Handler | listMultipartUploadsHandler
  | listPartsHandler | getBucketLocation | getBucketPolicyHandler
  | getBucketACLHandler | getBucketV1Handler
  | createMultipleUploadHandler | completeMultipartUploadHandler
  | deleteObjectsHandler
  | uploadPartHandler | copyObjectHandler | putObjectTagging | putObjectXAttr
  | putObjectACLHandler | putObjectHandler | putBucketACLHandler
  | putBucketPolicyHandler
  | abortMultipartUploadHandler | deleteObjectTagging | deleteObjectXAttr
  | deleteObjectHandler | deleteBucketPolicyHandler
  | listBucketsHandler | unsupportedOperationHandler.

Inductive Action :=
  | GetObjectAction | ListBucketAction | GetBucketPolicyAction
  | GetObjectAclAction | ListMultipartUploadPartsAction
  | GetBucketLocationAction | GetBucketAclAction | PutObjectAction
  | DeleteObjectAction | PutBucketPolicyAction | PutObjectAclAction
  | PutBucketAclAction | AbortMultipartUploadAction
  | DeleteBucketPolicyAction.

(** What router.go hands to [HandlerFunc]: either a method value used as it
    is ([o.getObjectXAttr]) or the closure [o.policyCheck(f, actions)]. *)
Inductive HandlerFunc :=
  | bare (f : Handler)
  | policyCheck (f : Handler) (actions : list Action).

#[global] Instance Handler_eq_dec : EqDecision Handler :=
  ltac:(solve_decision).
#[global] Instance Action_eq_dec : EqDecision Action :=
  ltac:(solve_decision).
#[global] Instance HandlerFunc_eq_dec : EqDecision HandlerFunc :=
  ltac:(solve_decision).

(** net/http method names. *)
Definition MethodHead : string := "HEAD".
Definition MethodGet : string := "GET".
Definition MethodPost : string := "POST".
Definition MethodPut : string := "PUT".
Definition MethodDelete : string := "DELETE".

(** Modelled from the spec: the constant [HeaderNameCopySource] is declared
    outside router.go; the specification calls it the copy-source header.
    Its value is the canonical form of the S3 header name. *)
Definition HeaderNameCopySource : string := "X-Amz-Copy-Source".

(** ** Requests

    The parts of an [http.Request] the router reads: the method, the host,
    the decoded URL path, the query parameters in the order of the query
    string, and the header fields (canonical name, value). *)
Record Request := mkRequest {
  reqMethod : string;
  reqHost : string;
  reqPath : string;
  reqQuery : list (string * string);
  reqHeader : list (string * string)
}.

(** [req.URL.Query()[key][0]]: the first value of a key. *)
Fixpoint queryFirst (key : string) (q : list (string * string)) : option string :=
  match q with
  | [] => None
  | (k, v) :: q' => if (k =? key)%string then Some v else queryFirst key q'
  end.

(** [req.Header[key]]: all values of a header field. *)
Definition headerValues (key : string) (h : list (string * string)) : list string :=
  map snd (List.filter (fun kv => (fst kv =? key)%string) h).

(** ** String helpers *)

Fixpoint stripPrefix (p s : string) : option string :=
  match p with
  | EmptyString => Some s
  | String a p' =>
      match s with
      | EmptyString => None
      | String b s' => if Ascii.eqb a b then stripPrefix p' s' else None
      end
  end.

(** [strings.Contains s sub]. *)
Fixpoint contains (sub s : string) : bool :=
  match stripPrefix sub s with
  | Some _ => true
  | None => match s with
            | EmptyString => false
            | String _ s' => contains sub s'
            end
  end.

(** [strings.SplitN s sep 2] for a one-character separator: the text before
    the first separator and, when there is one, the text after it. *)
Fixpoint splitN2 (sep : ascii) (s : string) : string * option string :=
  match s with
  | EmptyString => (EmptyString, None)
  | String a s' =>
      if Ascii.eqb a sep then (EmptyString, Some s')
      else let '(b, r) := splitN2 sep s' in (String a b, r)
  end.

(** [strings.TrimRight s "/"]. *)
Fixpoint trimRightSlash (s : string) : string :=
  match s with
  | EmptyString => EmptyString
  | String a s' =>
      match trimRightSlash s' with
      | EmptyString => if Ascii.eqb a "/" then EmptyString else String a EmptyString
      | t => String a t
      end
  end.

Definition snoc (s : string) (a : ascii) : string := s +:+ String a EmptyString.

(** ** Route templates (gorilla/mux, regexp.go)

    The gorilla/mux package that router.go imports is not under src/.
    Section 4.3 of the specification gives its matching rules (a required
    key is present; a value pattern is a fixed string, all digits, any
    string or any non-empty string; rules are tried in the order of the
    table).  The definitions of this part and of the next two follow them
    with the structure of the library: a template is cut at its top-level
    braces into literal text and variables [{name:pattern}], a template
    whose braces do not balance is rejected, and a route that recorded an
    error never matches. *)

(** Modelled from the spec: the character classes of the patterns
    router.go uses.  A dot is any character, as section 4.3 reads [.+]
    ("any non-empty string") and as section 3 reads the object key ("any
    non-empty remaining path"); a regular expression of Go leaves the line
    feed out of a dot, which the specification does not take up. *)
Inductive charClass := AnyChar | Digit | NotSlash | NotDot.

Definition inClass (c : charClass) (a : ascii) : bool :=
  match c with
  | AnyChar => true
  | Digit => let n := nat_of_ascii a in (48 <=? n) && (n <=? 57)
  | NotSlash => negb (Ascii.eqb a "/")
  | NotDot => negb (Ascii.eqb a ".")
  end.

(** A compiled template: literal text and greedy repetitions of a character
    class, [c+] when [plus] holds and [c*] otherwise, capturing under [name]
    when there is one. *)
Inductive piece :=
  | Lit (s : string)
  | Rep (name : option string) (c : charClass) (plus : bool).

(** Modelled from the spec: [regexp.Compile] on the variable patterns that
    occur in router.go and on the default patterns of the library; any
    other pattern is outside the model and makes the template an error. *)
Definition compilePattern (p : string) : option (charClass * bool) :=
  if (p =? ".+")%string then Some (AnyChar, true)
  else if (p =? ".*")%string then Some (AnyChar, false)
  else if (p =? "[0-9]+")%string then Some (Digit, true)
  else if (p =? "[^/]+")%string then Some (NotSlash, true)
  else if (p =? "[^.]+")%string then Some (NotDot, true)
  else None.

(** Modelled from the spec: [braceIndices] of the library together with the
    cutting loop of [newRouteRegexp], which section 4.3 does not detail: the
    template is scanned once with the nesting level of the braces; each
    top-level [{...}] closes a pair (literal text before it, text between the
    braces).  The result is the pairs and the literal text after the last
    one, or [None] for unbalanced braces. *)
Fixpoint scanTemplate (s : string) (level : nat) (raw body : string)
  : option (list (string * string) * string) :=
  match s with
  | EmptyString => match level with O => Some ([], raw) | S _ => None end
  | String a s' =>
      if Ascii.eqb a "{" then
        match level with
        | O => scanTemplate s' 1 raw EmptyString
        | S _ => scanTemplate s' (S level) raw (snoc body a)
        end
      else if Ascii.eqb a "}" then
        match level with
        | O => None
        | S O =>
            match scanTemplate s' 0 EmptyString EmptyString with
            | Some (ps, tl) => Some ((raw, body) :: ps, tl)
            | None => None
            end
        | S l => scanTemplate s' l raw (snoc body a)
        end
      else
        match level with
        | O => scanTemplate s' 0 (snoc raw a) body
        | S _ => scanTemplate s' level raw (snoc body a)
        end
  end.

Inductive regexpType :=
  | regexpTypePath | regexpTypeHost | regexpTypePrefix | regexpTypeQuery.

#[global] Instance regexpType_eq_dec : EqDecision regexpType :=
  ltac:(solve_decision).

Definition defaultPattern (typ : regexpType) : string :=
  match typ with
  | regexpTypeQuery => ".*"
  | regexpTypeHost => "[^.]+"
  | _ => "[^/]+"
  end.

Record routeRegexp := mkRouteRegexp {
  template : string;
  regexpTyp : regexpType;
  pieces : list piece;
  varsN : list string
}.

(** One variable [{name}] or [{name:pattern}] of a template. *)
Definition compileVar (typ : regexpType) (body : string) : option piece :=
  let '(name, patt) := splitN2 ":" body in
  let patt := match patt with Some p => p | None => defaultPattern typ end in
  if (name =? EmptyString)%string || (patt =? EmptyString)%string then None
  else match compilePattern patt with
       | Some (c, plus) => Some (Rep (Some name) c plus)
       | None => None
       end.

Fixpoint compileVars (typ : regexpType) (ps : list (string * string))
  : option (list piece) :=
  match ps with
  | [] => Some []
  | (raw, body) :: ps' =>
      match compileVar typ body, compileVars typ ps' with
      | Some v, Some rest => Some (Lit raw :: v :: rest)
      | _, _ => None
      end
  end.

Definition pieceName (p : piece) : list string :=
  match p with
  | Rep (Some n) _ _ => [n]
  | _ => []
  end.

(** Modelled from the spec: [newRouteRegexp] (strictSlash and
    useEncodedPath are off, the default).  For a query template [key=value] with an empty value the default
    pattern is appended, so that the key alone is required. *)
Definition newRouteRegexp (tpl : string) (typ : regexpType) : option routeRegexp :=
  match scanTemplate tpl 0 EmptyString EmptyString with
  | None => None
  | Some (ps, tl) =>
      match compileVars typ ps with
      | None => None
      | Some vs =>
          let dflt :=
            match typ with
            | regexpTypeQuery =>
                match snd (splitN2 "=" tpl) with
                | Some EmptyString | None => [Rep None AnyChar false]
                | Some _ => []
                end
            | _ => []
            end in
          Some {| template := tpl; regexpTyp := typ;
                  pieces := vs ++ [Lit tl] ++ dflt;
                  varsN := concat (map pieceName vs) |}
      end
  end.

(** A greedy repetition followed by the rest of the template [k]: as many
    characters of the class as possible are taken, and given back one at a
    time while the rest does not match (leftmost-first matching).  [taken]
    is what the repetition holds so far. *)
Fixpoint repMatch (name : option string) (c : charClass) (plus : bool)
  (k : string -> option (list (string * string))) (s taken : string) {struct s}
  : option (list (string * string)) :=
  let stop :=
    match taken, plus with
    | EmptyString, true => None
    | _, _ =>
        match k s with
        | Some vs =>
            Some (match name with
                  | Some n => (n, taken) :: vs
                  | None => vs
                  end)
        | None => None
        end
    end in
  match s with
  | EmptyString => stop
  | String a s' =>
      if inClass c a then
        match repMatch name c plus k s' (snoc taken a) with
        | Some r => Some r
        | None => stop
        end
      else stop
  end.

(** Modelled from the spec: matching a compiled template against a string
    (section 4.3, query and path predicates).  [anch] asks for a match
    up to the end of the string (every template but a path prefix).  The
    result lists the captured variables. *)
Fixpoint matchPieces (ps : list piece) (anch : bool) (s : string)
  : option (list (string * string)) :=
  match ps with
  | [] =>
      if anch then match s with EmptyString => Some [] | _ => None end
      else Some []
  | Lit l :: ps' =>
      match stripPrefix l s with
      | Some r => matchPieces ps' anch r
      | None => None
      end
  | Rep name c plus :: ps' =>
      repMatch name c plus (matchPieces ps' anch) s EmptyString
  end.

Definition anchored (typ : regexpType) : bool :=
  match typ with regexpTypePrefix => false | _ => true end.

(** [getURLQuery]: the string a query template is matched against. *)
Definition getURLQuery (rr : routeRegexp) (req : Request) : string :=
  let key := fst (splitN2 "=" (template rr)) in
  match queryFirst key (reqQuery req) with
  | Some v => key +:+ "=" +:+ v
  | None => EmptyString
  end.

(** The string each kind of template is matched against. *)
Definition regexpSubject (rr : routeRegexp) (req : Request) : string :=
  match regexpTyp rr with
  | regexpTypeHost => reqHost req
  | regexpTypeQuery => getURLQuery rr req
  | _ => reqPath req
  end.

Definition regexpCaptures (rr : routeRegexp) (req : Request)
  : option (list (string * string)) :=
  matchPieces (pieces rr) (anchored (regexpTyp rr)) (regexpSubject rr req).

(** ** Matchers and routes (gorilla/mux, route.go and mux.go)

    The calls router.go chains on a route, with the checks the library
    makes when a route is built. *)

(** [HeadersRegexp] values, compiled: the pattern of router.go,
    [.*?(\/|%2F).*?], is searched anywhere in the value, so it holds exactly
    when the value contains one of the two alternatives. *)
Inductive headerRegexp := containsAny (alts : list string).

Definition compileHeaderPattern (p : string) : option headerRegexp :=
  if (p =? ".*?(\/|%2F).*?")%string then Some (containsAny ["/"; "%2F"])
  else None.

Definition headerRegexpMatch (re : headerRegexp) (v : string) : bool :=
  match re with
  | containsAny alts => existsb (fun a => contains a v) alts
  end.

Inductive matcher :=
  | methodMatcher (ms : list string)
  | regexpMatcher (rr : routeRegexp)
  | headerRegexMatcher (hs : list (string * headerRegexp)).

Definition isMethodMatcher (m : matcher) : bool :=
  match m with methodMatcher _ => true | _ => false end.

(** Modelled from the spec: [matcher.Match] for the matchers that only read
    the request (section 4.3: the method, the path shape, the query
    predicates, the header predicate).  A host template is matched against
    the whole host, port included; router.go registers a second host router
    for the hosts that carry a port. *)
Definition matcher_Match (m : matcher) (req : Request) : bool :=
  match m with
  | methodMatcher ms => existsb (fun x => (x =? reqMethod req)%string) ms
  | regexpMatcher rr =>
      match regexpCaptures rr req with Some _ => true | None => false end
  | headerRegexMatcher hs =>
      forallb (fun kv =>
                 existsb (headerRegexpMatch (snd kv))
                         (headerValues (fst kv) (reqHeader req))) hs
  end.

Record routeRegexpGroup := mkGroup {
  rgHost : option routeRegexp;
  rgPath : option routeRegexp;
  rgQueries : list routeRegexp
}.

(** [routeConf]: what a sub-router and its routes inherit. *)
Record routeConf := mkConf {
  regexp : routeRegexpGroup;
  matchers : list matcher
}.

(** A route.  [subrouter] holds the routes of the router that [Subrouter]
    appended as the last matcher of the route. *)
Inductive Route := mkRoute {
  conf : routeConf;
  handler : option HandlerFunc;
  err : bool;
  subrouter : option (list Route)
}.

Definition NewRoute (c : routeConf) : Route :=
  {| conf := c; handler := None; err := false; subrouter := None |}.

Definition setErr (r : Route) : Route :=
  {| conf := conf r; handler := handler r; err := true;
     subrouter := subrouter r |}.

Definition setConf (c : routeConf) (r : Route) : Route :=
  {| conf := c; handler := handler r; err := err r;
     subrouter := subrouter r |}.

(** [addMatcher]: appended only while the route has no error. *)
Definition addMatcher (m : matcher) (r : Route) : Route :=
  if err r then r
  else setConf {| regexp := regexp (conf r);
                  matchers := matchers (conf r) ++ [m] |} r.

(** [uniqueVars s1 s2] fails when a name of [s1] occurs in [s2]. *)
Definition uniqueVars (s1 s2 : list string) : bool :=
  forallb (fun v1 => forallb (fun v2 => negb (v1 =? v2)%string) s2) s1.

Definition optVars (o : option routeRegexp) : list string :=
  match o with Some rr => varsN rr | None => [] end.

(** [addRegexpMatcher]: a path template is appended to the inherited one; the
    variables of the new template must differ from those of the queries
    and, between host and path, from each other. *)
Definition addRegexpMatcher (tpl : string) (typ : regexpType) (r : Route) : Route :=
  if err r then r else
  let g := regexp (conf r) in
  let isPath := match typ with
                | regexpTypePath | regexpTypePrefix => true
                | _ => false
                end in
  let badSlash := isPath &&
                  match tpl with
                  | EmptyString => false
                  | String a _ => negb (Ascii.eqb a "/")
                  end in
  if badSlash then setErr r else
  let tpl := if isPath then
               match rgPath g with
               | Some p => trimRightSlash (template p) +:+ tpl
               | None => tpl
               end
             else tpl in
  match newRouteRegexp tpl typ with
  | None => setErr r
  | Some rr =>
      if negb (forallb (fun q => uniqueVars (varsN rr) (varsN q)) (rgQueries g))
      then setErr r
      else
        match typ with
        | regexpTypeHost =>
            if negb (uniqueVars (varsN rr) (optVars (rgPath g))) then setErr r
            else addMatcher (regexpMatcher rr)
                   (setConf {| regexp := {| rgHost := Some rr;
                                            rgPath := rgPath g;
                                            rgQueries := rgQueries g |};
                               matchers := matchers (conf r) |} r)
        | regexpTypeQuery =>
            if negb (uniqueVars (varsN rr) (optVars (rgHost g))) then setErr r
            else addMatcher (regexpMatcher rr)
                   (setConf {| regexp := {| rgHost := rgHost g;
                                            rgPath := rgPath g;
                                            rgQueries := rgQueries g ++ [rr] |};
                               matchers := matchers (conf r) |} r)
        | _ =>
            if negb (uniqueVars (varsN rr) (optVars (rgHost g))) then setErr r
            else addMatcher (regexpMatcher rr)
                   (setConf {| regexp := {| rgHost := rgHost g;
                                            rgPath := Some rr;
                                            rgQueries := rgQueries g |};
                               matchers := matchers (conf r) |} r)
        end
  end.

(** [Queries]: an odd number of arguments is an error; otherwise one query
    template [key=value] per pair, up to the first error. *)
Fixpoint addQueries (pairs : list string) (r : Route) : Route :=
  match pairs with
  | k :: v :: rest =>
      let r' := addRegexpMatcher (k +:+ "=" +:+ v) regexpTypeQuery r in
      if err r' then r' else addQueries rest r'
  | _ => r
  end.

Definition routeQueries (pairs : list string) (r : Route) : Route :=
  if Nat.even (length pairs) then addQueries pairs r else setErr r.

(** [mapFromPairsToRegex]. *)
Fixpoint pairsToRegex (pairs : list string) : option (list (string * headerRegexp)) :=
  match pairs with
  | [] => Some []
  | k :: v :: rest =>
      match compileHeaderPattern v, pairsToRegex rest with
      | Some re, Some hs => Some ((k, re) :: hs)
      | _, _ => None
      end
  | _ => None
  end.

Definition routeHeadersRegexp (pairs : list string) (r : Route) : Route :=
  if err r then r
  else match pairsToRegex pairs with
       | Some hs => addMatcher (headerRegexMatcher hs) r
       | None => setErr r
       end.

(** [Handler]: kept only while the route has no error. *)
Definition routeHandlerFunc (h : HandlerFunc) (r : Route) : Route :=
  if err r then r
  else {| conf := conf r; handler := Some h; err := err r;
          subrouter := subrouter r |}.

(** The chained calls router.go makes on a route, as data. *)
Inductive routeCall :=
  | Methods (ms : list string)
  | Path (tpl : string)
  | PathPrefix (tpl : string)
  | Host (tpl : string)
  | Queries (pairs : list string)
  | HeadersRegexp (pairs : list string)
  | HandlerFunc_ (h : HandlerFunc).

Definition applyCall (r : Route) (c : routeCall) : Route :=
  match c with
  | Methods ms => addMatcher (methodMatcher ms) r
  | Path tpl => addRegexpMatcher tpl regexpTypePath r
  | PathPrefix tpl => addRegexpMatcher tpl regexpTypePrefix r
  | Host tpl => addRegexpMatcher tpl regexpTypeHost r
  | Queries pairs => routeQueries pairs r
  | HeadersRegexp pairs => routeHeadersRegexp pairs r
  | HandlerFunc_ h => routeHandlerFunc h r
  end.

(** [r.Methods(...).Path(...)...]: a new route of a router whose
    configuration is [c], then the calls in the order they are written. *)
Definition newRoute (c : routeConf) (calls : list routeCall) : Route :=
  fold_left applyCall calls (NewRoute c).

(** [route.Subrouter()] followed by the registration of [routesOf] on the
    new router, which inherits the configuration of the route. *)
Definition Subrouter (r : Route) (routesOf : routeConf -> list Route) : Route :=
  {| conf := conf r; handler := handler r; err := err r;
     subrouter := Some (routesOf (conf r)) |}.

(** ** Matching (gorilla/mux, Route.Match, Router.Match, Router.ServeHTTP) *)

Inductive MuxError := ErrMethodMismatch | ErrNotFound.

#[global] Instance MuxError_eq_dec : EqDecision MuxError :=
  ltac:(solve_decision).

(** [RouteMatch]: the matched route, its handler, the variables and the
    error recorded on the way. *)
Record RouteMatch := mkMatch {
  mRoute : option Route;
  mHandler : option HandlerFunc;
  mVars : gmap string string;
  MatchErr : option MuxError
}.

Definition emptyMatch : RouteMatch :=
  {| mRoute := None; mHandler := None; mVars := ∅; MatchErr := None |}.

Definition setMatchErr (e : option MuxError) (m : RouteMatch) : RouteMatch :=
  {| mRoute := mRoute m; mHandler := mHandler m; mVars := mVars m;
     MatchErr := e |}.

(** [extractVars]. *)
Definition extractVars (caps : list (string * string)) (vars : gmap string string)
  : gmap string string :=
  fold_left (fun vs kv => <[fst kv := snd kv]> vs) caps vars.

Definition setRegexpVars (req : Request) (vars : gmap string string)
  (rr : routeRegexp) : gmap string string :=
  match regexpCaptures rr req with
  | Some caps => extractVars caps vars
  | None => vars
  end.

(** [routeRegexpGroup.setMatch]: host variables, then path variables, then
    the variables of each query template. *)
Definition setMatch (g : routeRegexpGroup) (req : Request)
  (vars : gmap string string) : gmap string string :=
  let vars := match rgHost g with
              | Some rr => setRegexpVars req vars rr
              | None => vars
              end in
  let vars := match rgPath g with
              | Some rr => setRegexpVars req vars rr
              | None => vars
              end in
  fold_left (setRegexpVars req) (rgQueries g) vars.

(** The loop of [Route.Match] over the matchers that only read the request:
    a failing method matcher is remembered and the loop goes on, any other
    failing matcher ends it ([None]). *)
Fixpoint matchLoop (req : Request) (ms : list matcher) (matchErr : option MuxError)
  : option (option MuxError) :=
  match ms with
  | [] => Some matchErr
  | m :: ms' =>
      if matcher_Match m req then matchLoop req ms' matchErr
      else if isMethodMatcher m then matchLoop req ms' (Some ErrMethodMismatch)
      else None
  end.

(** A matcher other than a method matcher failed: [ErrNotFound] is dropped
    from the match, any other recorded error stays. *)
Definition clearNotFound (m : RouteMatch) : RouteMatch :=
  match MatchErr m with
  | Some ErrNotFound => setMatchErr None m
  | _ => m
  end.

(** The end of [Route.Match] once every matcher was tried. *)
Definition routeDone (r : Route) (req : Request) (matchErr : option MuxError)
  (m : RouteMatch) : bool * RouteMatch :=
  match matchErr with
  | Some e => (false, setMatchErr (Some e) m)
  | None =>
      let m1 := match MatchErr m with
                | Some ErrMethodMismatch =>
                    {| mRoute := mRoute m; mHandler := handler r;
                       mVars := mVars m; MatchErr := None |}
                | _ => m
                end in
      let rt := match mRoute m1 with None => Some r | Some r0 => Some r0 end in
      let h := match mHandler m1 with None => handler r | Some h0 => Some h0 end in
      (true, {| mRoute := rt; mHandler := h;
                mVars := setMatch (regexp (conf r)) req (mVars m1);
                MatchErr := MatchErr m1 |})
  end.

Section RouterLoop.
Variable routeMatch : Route -> RouteMatch -> bool * RouteMatch.

(** The loop of [Router.Match] over the routes of a router. *)
Fixpoint routerLoop (rs : list Route) (m : RouteMatch) : bool * RouteMatch :=
  match rs with
  | [] => (false, m)
  | r :: rs' =>
      let '(ok, m') := routeMatch r m in
      if ok then (true, m') else routerLoop rs' m'
  end.
End RouterLoop.

(** The end of [Router.Match] when no route matched. *)
Definition routerEnd (notFound methodNotAllowed : option HandlerFunc)
  (m : RouteMatch) : bool * RouteMatch :=
  match MatchErr m with
  | Some ErrMethodMismatch =>
      match methodNotAllowed with
      | Some h => (true, {| mRoute := mRoute m; mHandler := Some h;
                            mVars := mVars m; MatchErr := MatchErr m |})
      | None => (false, m)
      end
  | _ =>
      match notFound with
      | Some h => (true, {| mRoute := mRoute m; mHandler := Some h;
                            mVars := mVars m; MatchErr := Some ErrNotFound |})
      | None => (false, setMatchErr (Some ErrNotFound) m)
      end
  end.

(** Modelled from the spec: [Route.Match] of the library.  A route that
    recorded an error never matches; a route all of whose matchers but a
    method matcher hold records a method mismatch (section 4.3: "recorded
    as a MethodNotAllowed candidate").  A sub-router made by [Subrouter] has
    neither a not-found nor a method-not-allowed handler of its own. *)
Fixpoint Route_Match (req : Request) (r : Route) (m : RouteMatch) {struct r}
  : bool * RouteMatch :=
  match r with
  | mkRoute c h e sub =>
      if e then (false, m) else
      match matchLoop req (matchers c) None with
      | None => (false, clearNotFound m)
      | Some matchErr =>
          match sub with
          | None => routeDone (mkRoute c h e sub) req matchErr m
          | Some rs =>
              let '(ok, m1) := routerLoop (Route_Match req) rs m in
              let '(ok, m1) := if ok then (true, m1) else routerEnd None None m1 in
              if ok then routeDone (mkRoute c h e sub) req matchErr m1
              else (false, clearNotFound m1)
          end
      end
  end.

Record Router := mkRouter {
  routes : list Route;
  NotFoundHandler : option HandlerFunc;
  MethodNotAllowedHandler : option HandlerFunc
}.

(** Modelled from the spec: [Router.Match] of the library (no middleware
    is installed by router.go): the routes are tried in the order of their
    registration and the first that matches wins. *)
Definition Router_Match (rt : Router) (req : Request) (m : RouteMatch)
  : bool * RouteMatch :=
  let '(ok, m1) := routerLoop (Route_Match req) (routes rt) m in
  if ok then (true, m1)
  else routerEnd (NotFoundHandler rt) (MethodNotAllowedHandler rt) m1.

(** What [Router.ServeHTTP] ends up serving: the handler of the match with
    the variables of the request, or the library's own 405 or 404 reply. *)
Inductive Served :=
  | serveHandler (h : HandlerFunc) (vars : gmap string string)
  | serveMethodNotAllowed
  | serveNotFound.

(** Modelled from the spec: [Router.ServeHTTP] of the library, from the
    match to the choice of the handler.  The path is matched as it is
    received: the redirection of a path that is not clean, which the
    library performs unless the router is created with [SkipClean], is left
    out. *)
Definition ServeHTTP (rt : Router) (req : Request) : Served :=
  let '(ok, m) := Router_Match rt req emptyMatch in
  match (if ok then mHandler m else None) with
  | Some h => serveHandler h (mVars m)
  | None =>
      match MatchErr m with
      | Some ErrMethodMismatch => serveMethodNotAllowed
      | _ => serveNotFound
      end
  end.

(** ** The route table of router.go

    Each route is the list of the calls chained on it, in the order of the
    source.  The pattern of [HeadersRegexp] is the value of the Go literal
    (one backslash). *)

Definition registerBucketHttpHeadRouters : list (list routeCall) :=
  [ (* Head object *)
    [ Methods [MethodHead]; Path "/{object:.+}";
      HandlerFunc_ (policyCheck headObjectHandler [GetObjectAction]) ];
    (* Head bucket *)
    [ Methods [MethodHead];
      HandlerFunc_ (policyCheck headBucketHandler [ListBucketAction]) ] ].

Definition registerBucketHttpGetRouters : list (list routeCall) :=
  [ (* Get object with pre-signed auth signature v2 *)
    [ Methods [MethodGet]; Path "/{object:.+}";
      HandlerFunc_ (policyCheck getObjectHandler [ListBucketAction]);
      Queries [ "AWSAccessKeyId"; "{accessKey:.+}";
                "Expires"; "{expires:[0-9]+}"; "Signature"; "{signature:.+}" ] ];
    (* Get object with pre-signed auth signature v4 *)
    [ Methods [MethodGet]; Path "/{object:.+}";
      HandlerFunc_ (policyCheck getObjectHandler [ListBucketAction]);
      Queries [ "X-Amz-Credential"; "{creadential:.+}";
                "X-Amz-Algorithm"; "{algorithm:.+}";
                "X-Amz-Signature"; "{signature:.+}";
                "X-Amz-Date"; "{date:.+}";
                "X-Amz-SignedHeaders"; "{signedHeaders:.+}";
                "X-Amz-Expires"; "{expires:[0-9]+}" ] ];
    (* Get object tagging *)
    [ Methods [MethodGet]; Path "/{object:.+}";
      HandlerFunc_ (policyCheck getObjectTagging [GetBucketPolicyAction]);
      Queries [ "tagging"; EmptyString ] ];
    (* Get object XAttr *)
    [ Methods [MethodGet]; Path "/{object:.+}";
      HandlerFunc_ (bare getObjectXAttr);
      Queries [ "xattr"; EmptyString; "key"; "{key:.+}" ] ];
    (* List object XAttrs *)
    [ Methods [MethodGet]; Path "/{object:.+}";
      HandlerFunc_ (bare listObjectXAttrs);
      Queries [ "xattr"; EmptyString ] ];
    (* Get object acl *)
    [ Methods [MethodGet]; Path "/{objject:.+}";
      HandlerFunc_ (policyCheck getObjectACLHandler [GetObjectAclAction]);
      Queries [ "acl"; EmptyString ] ];
    (* Get object *)
    [ Methods [MethodGet]; Path "/{object:.+}";
      HandlerFunc_ (policyCheck getObjectHandler [GetObjectAction]) ];
    (* List objects version 2 *)
    [ Methods [MethodGet];
      HandlerFunc_ (policyCheck getBucketV2Handler [ListBucketAction]);
      Queries [ "list-type"; "2" ] ];
    (* List multipart uploads *)
    [ Methods [MethodGet];
      HandlerFunc_ (policyCheck listMultipartUploadsHandler
                      [ListMultipartUploadPartsAction]);
      Queries [ "uploads"; EmptyString ] ];
    (* List parts *)
    [ Methods [MethodGet];
      HandlerFunc_ (policyCheck listPartsHandler [ListMultipartUploadPartsAction]);
      Queries [ "uploadId"; "{uploadId:.*}" ] ];
    (* Get bucket location *)
    [ Methods [MethodGet];
      HandlerFunc_ (policyCheck getBucketLocation [GetBucketLocationAction]);
      Queries [ "location"; EmptyString ] ];
    (* Get bucket policy *)
    [ Methods [MethodGet];
      HandlerFunc_ (policyCheck getBucketPolicyHandler [GetBucketPolicyAction]);
      Queries [ "policy"; EmptyString ] ];
    (* Get bucket acl *)
    [ Methods [MethodGet];
      HandlerFunc_ (policyCheck getBucketACLHandler [GetBucketAclAction]);
      Queries [ "acl"; EmptyString ] ];
    (* List objects version 1 *)
    [ Methods [MethodGet];
      HandlerFunc_ (policyCheck getBucketV1Handler [ListBucketAction]) ] ].

Definition registerBucketHttpPostRouters : list (list routeCall) :=
  [ (* Create multipart upload *)
    [ Methods [MethodPost]; Path "/{object:.+}";
      HandlerFunc_ (policyCheck createMultipleUploadHandler [PutObjectAction]);
      Queries [ "uploads"; EmptyString ] ];
    (* Complete multipart *)
    [ Methods [MethodPost]; Path "/{object:.+}";
      HandlerFunc_ (policyCheck completeMultipartUploadHandler [PutObjectAction]);
      Queries [ "uploadId"; "{uploadId:.*}" ] ];
    (* Delete objects (multiple objects) *)
    [ Methods [MethodPost];
      HandlerFunc_ (policyCheck deleteObjectsHandler [DeleteObjectAction]);
      Queries [ "delete"; EmptyString ] ] ].

Definition registerBucketHttpPutRouters : list (list routeCall) :=
  [ (* Upload part *)
    [ Methods [MethodPut]; Path "/{object:.+}";
      HandlerFunc_ (policyCheck uploadPartHandler [PutObjectAction]);
      Queries [ "partNumber"; "{partNumber:[0-9]+}"; "uploadId"; "{uploadId:.*}" ] ];
    (* Copy object *)
    [ Methods [MethodPut]; Path "/{object:.+}";
      HeadersRegexp [ HeaderNameCopySource; ".*?(\/|%2F).*?" ];
      HandlerFunc_ (policyCheck copyObjectHandler [PutObjectAction]) ];
    (* Put object tagging *)
    [ Methods [MethodPut]; Path "/{object:.+}";
      HandlerFunc_ (policyCheck putObjectTagging [PutBucketPolicyAction]);
      Queries [ "tagging"; EmptyString ] ];
    (* Put object xattrs *)
    [ Methods [MethodPut]; Path "/{object:.+}";
      HandlerFunc_ (bare putObjectXAttr);
      Queries [ "xattr"; EmptyString ] ];
    (* Put object acl *)
    [ Methods [MethodPut]; Path "/{object:.+}";
      HandlerFunc_ (policyCheck putObjectACLHandler [PutObjectAclAction]);
      Queries [ "acl"; EmptyString ] ];
    (* Put object *)
    [ Methods [MethodPut]; Path "/{object:.+}";
      HandlerFunc_ (policyCheck putObjectHandler [PutObjectAction]) ];
    (* Put bucket acl *)
    [ Methods [MethodPut];
      HandlerFunc_ (policyCheck putBucketACLHandler [PutBucketAclAction]);
      Queries [ "acl"; EmptyString ] ];
    (* Put bucket policy *)
    [ Methods [MethodPut];
      HandlerFunc_ (policyCheck putBucketPolicyHandler [PutBucketPolicyAction]);
      Queries [ "policy"; EmptyString ] ] ].

Definition registerBucketHttpDeleteRouters : list (list routeCall) :=
  [ (* Abort multipart *)
    [ Methods [MethodDelete]; Path "/{object:.+}";
      HandlerFunc_ (policyCheck abortMultipartUploadHandler
                      [AbortMultipartUploadAction]);
      Queries [ "uploadId"; "{uploadId:.*}" ] ];
    (* Delete object tagging *)
    [ Methods [MethodDelete]; Path "/{object:.+";
      HandlerFunc_ (policyCheck deleteObjectTagging [PutBucketPolicyAction]);
      Queries [ "tagging"; EmptyString ] ];
    (* Delete object xattrs *)
    [ Methods [MethodDelete]; Path "/{object:.+}";
      HandlerFunc_ (bare deleteObjectXAttr);
      Queries [ "xattr"; "key"; "{key:.+}}" ] ];
    (* Delete object *)
    [ Methods [MethodDelete]; Path "/{object:.+}";
      HandlerFunc_ (policyCheck deleteObjectHandler [DeleteObjectAction]) ];
    (* Delete bucket policy *)
    [ Methods [MethodDelete];
      HandlerFunc_ (policyCheck deleteBucketPolicyHandler
                      [DeleteBucketPolicyAction]);
      Queries [ "policy"; EmptyString ] ] ].

(** The body of the loop [for _, r := range bucketRouters]: the routes
    registered on one bucket router, in registration order. *)
Definition bucketRouteCalls : list (list routeCall) :=
  registerBucketHttpHeadRouters ++ registerBucketHttpGetRouters ++
  registerBucketHttpPostRouters ++ registerBucketHttpPutRouters ++
  registerBucketHttpDeleteRouters.

Definition bucketRoutes (c : routeConf) : list Route :=
  map (newRoute c) bucketRouteCalls.

(** [bucketRouters]: for each domain the host router and the host-and-port
    router, then the path-style router; all of them sub-routers of
    [bRouter]. *)
Definition bucketRouters (domains : list string) (bConf : routeConf) : list Route :=
  flat_map (fun d =>
              [ Subrouter (newRoute bConf [Host ("{bucket:.+}." +:+ d)]) bucketRoutes;
                Subrouter (newRoute bConf
                             [Host ("{bucket:.+}." +:+ d +:+ ":{port:[0-9]+}")])
                          bucketRoutes ])
           domains
  ++ [ Subrouter (newRoute bConf [PathPrefix "/{bucket}"]) bucketRoutes ].

Definition emptyConf : routeConf :=
  {| regexp := {| rgHost := None; rgPath := None; rgQueries := [] |};
     matchers := [] |}.

(** [registerApiRouters] on a fresh router, for [o.domains = domains]. *)
Definition registerApiRouters (domains : list string) : Router :=
  {| routes :=
       [ Subrouter (newRoute emptyConf [PathPrefix "/"]) (bucketRouters domains);
         (* List buckets *)
         newRoute emptyConf
           [ Methods [MethodGet];
             HandlerFunc_ (policyCheck listBucketsHandler [ListBucketAction]) ] ];
     (* Unsupported operation *)
     NotFoundHandler := Some (bare unsupportedOperationHandler);
     MethodNotAllowedHandler := None |}.

(** The request path of the gateway: [handle] of section 6. *)
Definition handle (domains : list string) (req : Request) : Served :=
  ServeHTTP (registerApiRouters domains) req.

(** ** The authorization gate

    [policyCheck] is a method of [ObjectNode] declared outside router.go;
    the credential extractor and the policy evaluator are collaborators
    (section 6). *)

Inductive Verdict := Authorized | Denied | EvaluationError.

#[global] Instance Verdict_eq_dec : EqDecision Verdict :=
  ltac:(solve_decision).

(** The resource of a request: the bucket and, when there is one, the
    object, as the router captured them. *)
Record Resource := mkResource {
  resBucket : option string;
  resObject : option string
}.

Definition resourceOf (vars : gmap string string) : Resource :=
  {| resBucket := vars !! "bucket"; resObject := vars !! "object" |}.

Inductive Response :=
  | Invoked (f : Handler)
  | InvalidCredentials
  | AccessDenied
  | MethodNotAllowed
  | RouteNotFound.

Definition requiredActions (hf : HandlerFunc) : list Action :=
  match hf with
  | bare _ => []
  | policyCheck _ actions => actions
  end.

Definition handlerOf (hf : HandlerFunc) : Handler :=
  match hf with
  | bare f => f
  | policyCheck f _ => f
  end.

Section Gate.
Context {Identity : Type}.
Variable extractCredentials : Request -> option Identity.
Variable evaluate : Identity -> Resource -> Action -> Verdict.

Definition granted (id : Identity) (res : Resource) (a : Action) : bool :=
  bool_decide (evaluate id res a = Authorized).

(** Modelled from the spec: the closure [o.policyCheck(f, actions)], whose
    body is not under src/, by the contract of sections 4.4 and 6.  The
    credentials are extracted first, and a request without valid
    credentials ends with an authentication error; the policy evaluator is
    then asked about the resource and the required actions, every one of
    which must be granted; a denial and an error of the evaluator both end
    with AccessDenied; only then the wrapped handler runs.  A handler
    registered without [policyCheck] runs at once. *)
Definition runHandlerFunc (hf : HandlerFunc) (req : Request)
  (vars : gmap string string) : Response :=
  match hf with
  | bare f => Invoked f
  | policyCheck f actions =>
      match extractCredentials req with
      | None => InvalidCredentials
      | Some id =>
          if forallb (granted id (resourceOf vars)) actions
          then Invoked f
          else AccessDenied
      end
  end.

(** The reply of the gateway: the library's 405 is MethodNotAllowed; its
    404 and the not-found handler of router.go are RouteNotFound. *)
Definition respond (domains : list string) (req : Request) : Response :=
  match handle domains req with
  | serveHandler hf vars =>
      match runHandlerFunc hf req vars with
      | Invoked unsupportedOperationHandler => RouteNotFound
      | r => r
      end
  | serveMethodNotAllowed => MethodNotAllowed
  | serveNotFound => RouteNotFound
  end.
End Gate.

(** ** The domain resolver, as the specification words it (section 4.1)

    For each configured domain, in order, the host is tested against
    [{anything}.{domain}] and [{anything}.{domain}:{numeric-port}]; the
    first match gives virtual-hosted addressing with the prefix as bucket
    name.  Otherwise the first path segment is the bucket name and the
    remainder of the path the object key. *)

Inductive addressingMode := virtualHosted | pathStyle.

Record BucketAddress := mkAddress {
  bucketName : string;
  objectKey : option string;
  addressing : addressingMode
}.

Definition nonEmpty (s : string) : option string :=
  match s with EmptyString => None | _ => Some s end.

(** [stripSuffix suf s]: what is before [suf] when [s] ends with it. *)
Fixpoint stripSuffix (suf s : string) : option string :=
  if (s =? suf)%string then Some EmptyString
  else match s with
       | EmptyString => None
       | String a s' =>
           match stripSuffix suf s' with
           | Some b => Some (String a b)
           | None => None
           end
       end.

(** Every character of the string is in the class. *)
Fixpoint allIn (c : charClass) (s : string) : bool :=
  match s with
  | EmptyString => true
  | String a s' => inClass c a && allIn c s'
  end.

Definition allDigits (s : string) : bool := allIn Digit s.

(** [{anything}.{domain}]. *)
Definition matchDomain (d host : string) : option string :=
  match stripSuffix ("." +:+ d) host with
  | Some b => nonEmpty b
  | None => None
  end.

(** The text before the last colon and the text after it. *)
Fixpoint splitLastColon (s : string) : option (string * string) :=
  match s with
  | EmptyString => None
  | String a s' =>
      match splitLastColon s' with
      | Some (h, p) => Some (String a h, p)
      | None => if Ascii.eqb a ":" then Some (EmptyString, s') else None
      end
  end.

(** [{anything}.{domain}:{numeric-port}]. *)
Definition matchDomainPort (d host : string) : option string :=
  match splitLastColon host with
  | Some (h, p) =>
      match p with
      | EmptyString => None
      | _ => if allDigits p then matchDomain d h else None
      end
  | None => None
  end.

Fixpoint virtualBucket (domains : list string) (host : string) : option string :=
  match domains with
  | [] => None
  | d :: ds =>
      match matchDomain d host with
      | Some b => Some b
      | None =>
          match matchDomainPort d host with
          | Some b => Some b
          | None => virtualBucket ds host
          end
      end
  end.

Definition resolve (domains : list string) (host path : string)
  : option BucketAddress :=
  match stripPrefix "/" path with
  | None => None
  | Some rest =>
      match virtualBucket domains host with
      | Some b =>
          Some {| bucketName := b; objectKey := nonEmpty rest;
                  addressing := virtualHosted |}
      | None =>
          let '(seg, after) := splitN2 "/" rest in
          match seg with
          | EmptyString => None
          | _ => Some {| bucketName := seg;
                         objectKey := match after with
                                      | Some k => nonEmpty k
                                      | None => None
                                      end;
                         addressing := pathStyle |}
          end
      end
  end.

(** A configured domain is a host name: it holds no brace. *)
Fixpoint plainDomain (d : string) : bool :=
  match d with
  | EmptyString => true
  | String a d' =>
      negb (Ascii.eqb a "{") && negb (Ascii.eqb a "}") && plainDomain d'
  end.

(** ** Views of the route table used in the proofs *)

(** The template of [PathPrefix "/"], compiled. *)
Definition rootPrefix : routeRegexp :=
  {| template := "/"; regexpTyp := regexpTypePrefix;
     pieces := [Lit "/"]; varsN := [] |}.

(** The configuration [bRouter] hands to the bucket routers. *)
Definition bConf : routeConf :=
  {| regexp := {| rgHost := None; rgPath := Some rootPrefix; rgQueries := [] |};
     matchers := [regexpMatcher rootPrefix] |}.

(** The templates of the two host routers of a domain, compiled. *)
Definition hostRe (d : string) : routeRegexp :=
  {| template := "{bucket:.+}." +:+ d; regexpTyp := regexpTypeHost;
     pieces := [Lit EmptyString; Rep (Some "bucket") AnyChar true; Lit ("." +:+ d)];
     varsN := ["bucket"] |}.

Definition hostPortRe (d : string) : routeRegexp :=
  {| template := "{bucket:.+}." +:+ d +:+ ":{port:[0-9]+}";
     regexpTyp := regexpTypeHost;
     pieces := [Lit EmptyString; Rep (Some "bucket") AnyChar true;
                Lit ("." +:+ d +:+ ":"); Rep (Some "port") Digit true; Lit EmptyString];
     varsN := ["bucket"; "port"] |}.

(** The template of [PathPrefix "/{bucket}"], compiled. *)
Definition bucketPrefix : routeRegexp :=
  {| template := "/{bucket}"; regexpTyp := regexpTypePrefix;
     pieces := [Lit "/"; Rep (Some "bucket") NotSlash true; Lit EmptyString];
     varsN := ["bucket"] |}.

(** The configuration of a host router and of the path-style router. *)
Definition hostConf (hre : routeRegexp) : routeConf :=
  {| regexp := {| rgHost := Some hre; rgPath := Some rootPrefix;
                  rgQueries := [] |};
     matchers := [regexpMatcher rootPrefix; regexpMatcher hre] |}.

Definition pathConf : routeConf :=
  {| regexp := {| rgHost := None; rgPath := Some bucketPrefix;
                  rgQueries := [] |};
     matchers := [regexpMatcher rootPrefix; regexpMatcher bucketPrefix] |}.

(** The bucket routers in the order [registerApiRouters] creates them. *)
Inductive routerKind :=
  | viaHost (d : string)
  | viaHostPort (d : string)
  | viaPath.

Definition kinds (domains : list string) : list routerKind :=
  flat_map (fun d => [viaHost d; viaHostPort d]) domains ++ [viaPath].

Definition kindConf (k : routerKind) : routeConf :=
  match k with
  | viaHost d => hostConf (hostRe d)
  | viaHostPort d => hostConf (hostPortRe d)
  | viaPath => pathConf
  end.

(** What a route of a bucket router adds to the configuration it inherits:
    its error flag, its handler, its path template (the inherited one when
    it has none of its own), its query templates and its own matchers. *)
Record rule := mkRule {
  ruleErr : bool;
  ruleHandler : option HandlerFunc;
  rulePath : option routeRegexp;
  ruleQueries : list routeRegexp;
  ruleOwn : list matcher
}.

Definition ruleOf (inherited : nat) (r : Route) : rule :=
  {| ruleErr := err r; ruleHandler := handler r;
     rulePath := rgPath (regexp (conf r));
     ruleQueries := rgQueries (regexp (conf r));
     ruleOwn := drop inherited (matchers (conf r)) |}.

Definition leafOf (c : routeConf) (ru : rule) : Route :=
  {| conf := {| regexp := {| rgHost := rgHost (regexp c);
                             rgPath := rulePath ru;
                             rgQueries := ruleQueries ru |};
                matchers := matchers c ++ ruleOwn ru |};
     handler := ruleHandler ru; err := ruleErr ru; subrouter := None |}.

(** The rules of a host router and of the path-style router, computed from
    the table. *)
Definition hostRules : list rule :=
  Eval vm_compute in map (ruleOf 2) (bucketRoutes (hostConf (hostPortRe EmptyString))).

Definition pathRules : list rule :=
  Eval vm_compute in map (ruleOf 2) (bucketRoutes pathConf).

Definition kindRules (k : routerKind) : list rule :=
  match k with
  | viaPath => pathRules
  | _ => hostRules
  end.

(** The inherited matchers hold, and a rule's own matchers hold. *)
Definition preOK (c : routeConf) (req : Request) : bool :=
  forallb (fun m => matcher_Match m req) (matchers c).

Definition ownOK (req : Request) (ru : rule) : bool :=
  negb (ruleErr ru) && forallb (fun m => matcher_Match m req) (ruleOwn ru).

(** The rule a bucket router selects, if any. *)
Definition selected (k : routerKind) (req : Request) : option rule :=
  if preOK (kindConf k) req then find (ownOK req) (kindRules k) else None.

(** The first bucket router that selects a rule, and the rule. *)
Fixpoint firstSelected (ks : list routerKind) (req : Request)
  : option (routerKind * rule) :=
  match ks with
  | [] => None
  | k :: ks' =>
      match selected k req with
      | Some ru => Some (k, ru)
      | None => firstSelected ks' req
      end
  end.

(** The variables of a request served by rule [ru] of router [k]: those of
    the route, then those of the bucket router, then those of [bRouter]. *)
Definition routeVars (k : routerKind) (ru : rule) (req : Request)
  : gmap string string :=
  setMatch (regexp bConf) req
    (setMatch (regexp (kindConf k)) req
       (setMatch (regexp (conf (leafOf (kindConf k) ru))) req ∅)).

(** The leaves of a route: the routes without a sub-router below it. *)
Fixpoint leaves (r : Route) : list Route :=
  match r with
  | mkRoute c h e None => [mkRoute c h e None]
  | mkRoute c h e (Some rs) => flat_map leaves rs
  end.

Definition routePasses (req : Request) (r : Route) : bool :=
  negb (err r) && forallb (fun m => matcher_Match m req) (matchers (conf r)).

(** The two states a match is in while no route has matched yet. *)
Definition stateOf (mismatch : bool) : RouteMatch :=
  if mismatch then setMatchErr (Some ErrMethodMismatch) emptyMatch
  else emptyMatch.

(** What a repetition adds to the captured variables. *)
Definition capture (name : option string) (v : string)
  (vs : list (string * string)) : list (string * string) :=
  match name with
  | Some n => (n, v) :: vs
  | None => vs
  end.

(** The first character of a string is outside the class, or there is
    none: a run of the class cannot go on. *)
Definition stopsRun (c : charClass) (y : string) : bool :=
  match y with
  | EmptyString => true
  | String a _ => negb (inClass c a)
  end.

(** ** Predicates on requests, in the words of the specification *)

Definition isEmpty (s : string) : bool :=
  match s with EmptyString => true | _ => false end.

(** The query key is present. *)
Definition hasKey (k : string) (req : Request) : bool :=
  match queryFirst k (reqQuery req) with Some _ => true | None => false end.

(** The query key is present and its value is in the class throughout,
    and not empty when [plus] holds. *)
Definition hasValue (k : string) (c : charClass) (plus : bool) (req : Request)
  : bool :=
  match queryFirst k (reqQuery req) with
  | Some v => allIn c v && (negb plus || negb (isEmpty v))
  | None => false
  end.

(** The complete parameter set of a pre-signed request, scheme v2. *)
Definition presignedV2 (req : Request) : bool :=
  hasValue "AWSAccessKeyId" AnyChar true req &&
  hasValue "Expires" Digit true req &&
  hasValue "Signature" AnyChar true req.

(** The complete parameter set of a pre-signed request, scheme v4. *)
Definition presignedV4 (req : Request) : bool :=
  hasValue "X-Amz-Credential" AnyChar true req &&
  hasValue "X-Amz-Algorithm" AnyChar true req &&
  hasValue "X-Amz-Signature" AnyChar true req &&
  hasValue "X-Amz-Date" AnyChar true req &&
  hasValue "X-Amz-SignedHeaders" AnyChar true req &&
  hasValue "X-Amz-Expires" Digit true req.

(** The parameters of an upload-part request. *)
Definition uploadPartQuery (req : Request) : bool :=
  hasValue "partNumber" Digit true req && hasValue "uploadId" AnyChar false req.

(** A copy-source header whose value contains a path separator. *)
Definition copySource (req : Request) : bool :=
  existsb (fun v => contains "/" v || contains "%2F" v)
          (headerValues HeaderNameCopySource (reqHeader req)).

(** ** The compiled table, written out *)

Definition patternOf (c : charClass) (plus : bool) : string :=
  match c, plus with
  | AnyChar, true => ".+"
  | AnyChar, false => ".*"
  | Digit, _ => "[0-9]+"
  | NotSlash, _ => "[^/]+"
  | NotDot, _ => "[^.]+"
  end.

(** [Queries(k, EmptyString)]. *)
Definition qPresent (k : string) : routeRegexp :=
  {| template := k +:+ "="; regexpTyp := regexpTypeQuery;
     pieces := [Lit (k +:+ "="); Rep None AnyChar false]; varsN := [] |}.

(** [Queries(k, "{n:pattern}")]. *)
Definition qVar (k n : string) (c : charClass) (plus : bool) : routeRegexp :=
  {| template := k +:+ "={" +:+ n +:+ ":" +:+ patternOf c plus +:+ "}";
     regexpTyp := regexpTypeQuery;
     pieces := [Lit (k +:+ "="); Rep (Some n) c plus; Lit EmptyString];
     varsN := [n] |}.

(** [Queries(k, v)] for a fixed value. *)
Definition qFixed (k v : string) : routeRegexp :=
  {| template := k +:+ "=" +:+ v; regexpTyp := regexpTypeQuery;
     pieces := [Lit (k +:+ "=" +:+ v)]; varsN := [] |}.

(** [Path("/{n:.+}")] on a host router and on the path-style router. *)
Definition objectPathHost (n : string) : routeRegexp :=
  {| template := "/{" +:+ n +:+ ":.+}"; regexpTyp := regexpTypePath;
     pieces := [Lit "/"; Rep (Some n) AnyChar true; Lit EmptyString];
     varsN := [n] |}.

Definition objectPathStyle (n : string) : routeRegexp :=
  {| template := "/{bucket}/{" +:+ n +:+ ":.+}"; regexpTyp := regexpTypePath;
     pieces := [Lit "/"; Rep (Some "bucket") NotSlash true;
                Lit "/"; Rep (Some n) AnyChar true; Lit EmptyString];
     varsN := ["bucket"; n] |}.

Definition copySourceMatcher : matcher :=
  headerRegexMatcher [(HeaderNameCopySource, containsAny ["/"; "%2F"])].

Section RulesView.
(** [inh]: the inherited path template; [obj n]: the template of
    [Path("/{n:.+}")] appended to it. *)
Variable inh : routeRegexp.
Variable obj : string -> routeRegexp.

Definition objectRule (m n : string) (hd : list matcher)
  (qs : list routeRegexp) (h : HandlerFunc) : rule :=
  {| ruleErr := false; ruleHandler := Some h; rulePath := Some (obj n);
     ruleQueries := qs;
     ruleOwn := [methodMatcher [m]; regexpMatcher (obj n)] ++ hd
                ++ map regexpMatcher qs |}.

Definition bucketRule (m : string) (qs : list routeRegexp) (h : HandlerFunc)
  : rule :=
  {| ruleErr := false; ruleHandler := Some h; rulePath := Some inh;
     ruleQueries := qs;
     ruleOwn := methodMatcher [m] :: map regexpMatcher qs |}.

Definition rulesView : list rule :=
  [ objectRule "HEAD" "object" [] []
      (policyCheck headObjectHandler [GetObjectAction]);
    bucketRule "HEAD" [] (policyCheck headBucketHandler [ListBucketAction]);
    objectRule "GET" "object" []
      [ qVar "AWSAccessKeyId" "accessKey" AnyChar true;
        qVar "Expires" "expires" Digit true;
        qVar "Signature" "signature" AnyChar true ]
      (policyCheck getObjectHandler [ListBucketAction]);
    objectRule "GET" "object" []
      [ qVar "X-Amz-Credential" "creadential" AnyChar true;
        qVar "X-Amz-Algorithm" "algorithm" AnyChar true;
        qVar "X-Amz-Signature" "signature" AnyChar true;
        qVar "X-Amz-Date" "date" AnyChar true;
        qVar "X-Amz-SignedHeaders" "signedHeaders" AnyChar true;
        qVar "X-Amz-Expires" "expires" Digit true ]
      (policyCheck getObjectHandler [ListBucketAction]);
    objectRule "GET" "object" [] [ qPresent "tagging" ]
      (policyCheck getObjectTagging [GetBucketPolicyAction]);
    objectRule "GET" "object" []
      [ qPresent "xattr"; qVar "key" "key" AnyChar true ]
      (bare getObjectXAttr);
    objectRule "GET" "object" [] [ qPresent "xattr" ] (bare listObjectXAttrs);
    objectRule "GET" "objject" [] [ qPresent "acl" ]
      (policyCheck getObjectACLHandler [GetObjectAclAction]);
    objectRule "GET" "object" [] []
      (policyCheck getObjectHandler [GetObjectAction]);
    bucketRule "GET" [ qFixed "list-type" "2" ]
      (policyCheck getBucketV2Handler [ListBucketAction]);
    bucketRule "GET" [ qPresent "uploads" ]
      (policyCheck listMultipartUploadsHandler [ListMultipartUploadPartsAction]);
    bucketRule "GET" [ qVar "uploadId" "uploadId" AnyChar false ]
      (policyCheck listPartsHandler [ListMultipartUploadPartsAction]);
    bucketRule "GET" [ qPresent "location" ]
      (policyCheck getBucketLocation [GetBucketLocationAction]);
    bucketRule "GET" [ qPresent "policy" ]
      (policyCheck getBucketPolicyHandler [GetBucketPolicyAction]);
    bucketRule "GET" [ qPresent "acl" ]
      (policyCheck getBucketACLHandler [GetBucketAclAction]);
    bucketRule "GET" [] (policyCheck getBucketV1Handler [ListBucketAction]);
    objectRule "POST" "object" [] [ qPresent "uploads" ]
      (policyCheck createMultipleUploadHandler [PutObjectAction]);
    objectRule "POST" "object" [] [ qVar "uploadId" "uploadId" AnyChar false ]
      (policyCheck completeMultipartUploadHandler [PutObjectAction]);
    bucketRule "POST" [ qPresent "delete" ]
      (policyCheck deleteObjectsHandler [DeleteObjectAction]);
    objectRule "PUT" "object" []
      [ qVar "partNumber" "partNumber" Digit true;
        qVar "uploadId" "uploadId" AnyChar false ]
      (policyCheck uploadPartHandler [PutObjectAction]);
    objectRule "PUT" "object" [ copySourceMatcher ] []
      (policyCheck copyObjectHandler [PutObjectAction]);
    objectRule "PUT" "object" [] [ qPresent "tagging" ]
      (policyCheck putObjectTagging [PutBucketPolicyAction]);
    objectRule "PUT" "object" [] [ qPresent "xattr" ] (bare putObjectXAttr);
    objectRule "PUT" "object" [] [ qPresent "acl" ]
      (policyCheck putObjectACLHandler [PutObjectAclAction]);
    objectRule "PUT" "object" [] []
      (policyCheck putObjectHandler [PutObjectAction]);
    bucketRule "PUT" [ qPresent "acl" ]
      (policyCheck putBucketACLHandler [PutBucketAclAction]);
    bucketRule "PUT" [ qPresent "policy" ]
      (policyCheck putBucketPolicyHandler [PutBucketPolicyAction]);
    objectRule "DELETE" "object" [] [ qVar "uploadId" "uploadId" AnyChar false ]
      (policyCheck abortMultipartUploadHandler [AbortMultipartUploadAction]);
    (* Delete object tagging: the path template is rejected. *)
    {| ruleErr := true; ruleHandler := None; rulePath := Some inh;
       ruleQueries := []; ruleOwn := [methodMatcher ["DELETE"]] |};
    (* Delete object xattrs: the query arguments are rejected. *)
    {| ruleErr := true; ruleHandler := Some (bare deleteObjectXAttr);
       rulePath := Some (obj "object"); ruleQueries := [];
       ruleOwn := [methodMatcher ["DELETE"]; regexpMatcher (obj "object")] |};
    objectRule "DELETE" "object" [] []
      (policyCheck deleteObjectHandler [DeleteObjectAction]);
    bucketRule "DELETE" [ qPresent "policy" ]
      (policyCheck deleteBucketPolicyHandler [DeleteBucketPolicyAction]) ].
End RulesView.

(** The longest run of the class at the head of a string, and what
    follows it. *)
Fixpoint takeRun (c : charClass) (s : string) : string :=
  match s with
  | EmptyString => EmptyString
  | String a s' => if inClass c a then String a (takeRun c s') else EmptyString
  end.

Fixpoint dropRun (c : charClass) (s : string) : string :=
  match s with
  | EmptyString => EmptyString
  | String a s' => if inClass c a then dropRun c s' else s
  end.

(** A query key holds no equals sign. *)
Fixpoint keyOK (k : string) : bool :=
  match k with
  | EmptyString => true
  | String a k' => negb (Ascii.eqb a "=") && keyOK k'
  end.

(** The object key of a path-style request: what follows the slash after
    the first segment. *)
Definition keyAfter (rest : string) : option string :=
  match dropRun NotSlash rest with
  | EmptyString => None
  | String _ k => nonEmpty k
  end.

(** The address a bucket router gives to a request it accepts. *)
Definition kindAddress (k : routerKind) (req : Request) : option BucketAddress :=
  match stripPrefix "/" (reqPath req) with
  | None => None
  | Some rest =>
      match k with
      | viaHost d =>
          match matchDomain d (reqHost req) with
          | Some b => Some {| bucketName := b; objectKey := nonEmpty rest;
                              addressing := virtualHosted |}
          | None => None
          end
      | viaHostPort d =>
          match matchDomainPort d (reqHost req) with
          | Some b => Some {| bucketName := b; objectKey := nonEmpty rest;
                              addressing := virtualHosted |}
          | None => None
          end
      | viaPath =>
          match nonEmpty (takeRun NotSlash rest) with
          | Some seg => Some {| bucketName := seg; objectKey := keyAfter rest;
                                addressing := pathStyle |}
          | None => None
          end
      end
  end.

(** The first bucket router whose own matchers accept the request. *)
Fixpoint firstPre (ks : list routerKind) (req : Request) : option routerKind :=
  match ks with
  | [] => None
  | k :: ks' => if preOK (kindConf k) req then Some k else firstPre ks' req
  end.

(** The inherited path template and the object path template of a bucket
    router. *)
Definition kindInh (k : routerKind) : routeRegexp :=
  match k with viaPath => bucketPrefix | _ => rootPrefix end.

Definition kindObj (k : routerKind) : string -> routeRegexp :=
  match k with viaPath => objectPathStyle | _ => objectPathHost end.

(** ** The routing outcome of a request

    The error kinds of section 7 that the router itself produces: the
    library's 405 reply is MethodNotAllowed; its 404 reply and the
    not-found handler router.go installs are RouteNotFound. *)
Inductive routing :=
  | routed (hf : HandlerFunc)
  | methodNotAllowed
  | routeNotFound.

Definition routingOf (s : Served) : routing :=
  match s with
  | serveHandler (bare unsupportedOperationHandler) _ => routeNotFound
  | serveHandler hf _ => routed hf
  | serveMethodNotAllowed => methodNotAllowed
  | serveNotFound => routeNotFound
  end.

Definition route (domains : list string) (req : Request) : routing :=
  routingOf (handle domains req).

Definition isSome {A} (o : option A) : bool :=
  match o with Some _ => true | None => false end.

(** ** Sample configuration and requests *)

Definition sampleDomains : list string := ["s3.example.com"].

(** [DELETE /photos/a.jpg?tagging=] on bucket [media], path-style. *)
Definition deleteTaggingRequest : Request :=
  {| reqMethod := "DELETE"; reqHost := "gateway.internal";
     reqPath := "/media/photos/a.jpg"; reqQuery := [("tagging", EmptyString)];
     reqHeader := [] |}.

(** [GET /photos/a.jpg?tagging=] with the pre-signed v2 parameters, on the
    virtual host of bucket [media]. *)
Definition presignedTaggingRequest : Request :=
  {| reqMethod := "GET"; reqHost := "media.s3.example.com";
     reqPath := "/photos/a.jpg";
     reqQuery := [("tagging", EmptyString); ("AWSAccessKeyId", "AKIA");
                  ("Expires", "1700000000"); ("Signature", "c2ln")];
     reqHeader := [] |}.

(** [GET /photos/a.jpg?tagging=], virtual-hosted. *)
Definition getTaggingRequest : Request :=
  {| reqMethod := "GET"; reqHost := "media.s3.example.com";
     reqPath := "/photos/a.jpg"; reqQuery := [("tagging", EmptyString)];
     reqHeader := [] |}.

(** [GET /photos/a.jpg?versionId=3], virtual-hosted on a port. *)
Definition getObjectRequest : Request :=
  {| reqMethod := "GET"; reqHost := "media.s3.example.com:8080";
     reqPath := "/photos/a.jpg"; reqQuery := [("versionId", "3")];
     reqHeader := [] |}.

(** [GET /media/photos/a.jpg?acl=], path-style. *)
Definition getAclRequest : Request :=
  {| reqMethod := "GET"; reqHost := "gateway.internal";
     reqPath := "/media/photos/a.jpg"; reqQuery := [("acl", EmptyString)];
     reqHeader := [] |}.

(** [GET /media/photos/a.jpg?xattr=], path-style. *)
Definition listXAttrRequest : Request :=
  {| reqMethod := "GET"; reqHost := "gateway.internal";
     reqPath := "/media/photos/a.jpg"; reqQuery := [("xattr", EmptyString)];
     reqHeader := [] |}.

(** [PUT /media/photos/b.jpg] with a copy-source header, path-style. *)
Definition copyRequest : Request :=
  {| reqMethod := "PUT"; reqHost := "gateway.internal";
     reqPath := "/media/photos/b.jpg"; reqQuery := [];
     reqHeader := [(HeaderNameCopySource, "/media/photos/a.jpg")] |}.

(** The same with the parameters of an upload-part request. *)
Definition uploadPartCopyRequest : Request :=
  {| reqMethod := "PUT"; reqHost := "gateway.internal";
     reqPath := "/media/photos/b.jpg";
     reqQuery := [("partNumber", "1"); ("uploadId", "u-17")];
     reqHeader := [(HeaderNameCopySource, "/media/photos/a.jpg")] |}.

(** [PATCH /media/photos/a.jpg], path-style. *)
Definition patchRequest : Request :=
  {| reqMethod := "PATCH"; reqHost := "gateway.internal";
     reqPath := "/media/photos/a.jpg"; reqQuery := []; reqHeader := [] |}.

(** ** The rules of the table and their path shape *)

(** The rules [registerApiRouters] registers that recorded no error. *)
Definition tableRules (domains : list string) : list Route :=
  List.filter (fun r => negb (err r))
         (flat_map leaves (routes (registerApiRouters domains))).

(** Host and path templates make the shape of a rule. *)
Definition isShapeMatcher (m : matcher) : bool :=
  match m with
  | regexpMatcher rr =>
      match regexpTyp rr with regexpTypeQuery => false | _ => true end
  | _ => false
  end.

Definition shapeOK (req : Request) (r : Route) : bool :=
  forallb (fun m => negb (isShapeMatcher m) || matcher_Match m req)
          (matchers (conf r)).

Definition methodOK (req : Request) (r : Route) : bool :=
  forallb (fun m => negb (isMethodMatcher m) || matcher_Match m req)
          (matchers (conf r)).

(** The request matches the shape of rules of other methods only. *)
Definition otherMethodsOnly (domains : list string) (req : Request) : bool :=
  forallb (fun r => implb (shapeOK req r) (negb (methodOK req r)))
          (tableRules domains).

(** The handlers router.go registers without [policyCheck]. *)
Definition xattrHandlers : list HandlerFunc :=
  [ bare getObjectXAttr; bare listObjectXAttrs; bare putObjectXAttr;
    bare deleteObjectXAttr ].

(** The handler is wrapped by [policyCheck] with one required action. *)
Definition gated (hf : HandlerFunc) : bool :=
  match hf with
  | policyCheck _ [_] => true
  | _ => false
  end.

(** ** The variable names of the templates *)

Definition regexpNames (rr : routeRegexp) : list string :=
  concat (map pieceName (pieces rr)).

Definition optNames (o : option routeRegexp) : list string :=
  match o with Some rr => regexpNames rr | None => [] end.

Definition groupNames (g : routeRegexpGroup) : list string :=
  optNames (rgHost g) ++ optNames (rgPath g)
  ++ concat (map regexpNames (rgQueries g)).

Definition nameIn (n : string) (l : list string) : bool :=
  existsb (String.eqb n) l.

(** The handlers of the routes of the table that call [Path] and recorded
    no error on the path-style router. *)
Definition hasPathCall (calls : list routeCall) : bool :=
  existsb (fun c => match c with Path _ => true | _ => false end) calls.

Definition objectLevelHandlers : list HandlerFunc :=
  flat_map (fun calls =>
              let r := newRoute pathConf calls in
              if hasPathCall calls && negb (err r) then
                match handler r with Some h => [h] | None => [] end
              else [])
           bucketRouteCalls.

#[global] Instance charClass_eq_dec : EqDecision charClass :=
  ltac:(solve_decision).
#[global] Instance piece_eq_dec : EqDecision piece :=
  ltac:(solve_decision).
#[global] Instance routeRegexp_eq_dec : EqDecision routeRegexp :=
  ltac:(solve_decision).
#[global] Instance headerRegexp_eq_dec : EqDecision headerRegexp :=
  ltac:(solve_decision).
#[global] Instance matcher_eq_dec : EqDecision matcher :=
  ltac:(solve_decision).

(** Membership in a list, as a boolean. *)
Definition memb {A} `{EqDecision A} (x : A) (l : list A) : bool :=
  existsb (fun y => bool_decide (y = x)) l.

(** Facts about a rule: its path template holds the name; one of its
    query templates holds the name; its path template is one of its own
    matchers. *)
Definition pathHas (n : string) (ru : rule) : bool :=
  nameIn n (optNames (rulePath ru)).

Definition queriesHave (n : string) (ru : rule) : bool :=
  nameIn n (concat (map regexpNames (ruleQueries ru))).

Definition pathInOwn (ru : rule) : bool :=
  match rulePath ru with
  | Some rr => memb (regexpMatcher rr) (ruleOwn ru)
  | None => false
  end.

Definition getObjectACL : HandlerFunc :=
  policyCheck getObjectACLHandler [GetObjectAclAction].

(** The get-object-acl rule captures [objject] and not [object]. *)
Definition aclRuleFacts (ru : rule) : bool :=
  implb (bool_decide (ruleHandler ru = Some getObjectACL))
        (pathInOwn ru && pathHas "objject" ru && negb (pathHas "object" ru)
         && negb (queriesHave "object" ru) && negb (queriesHave "objject" ru)).

(** The other object-level rules capture [object]. *)
Definition objectRuleFacts (ru : rule) : bool :=
  implb (negb (ruleErr ru) &&
         match ruleHandler ru with
         | Some hf => memb hf objectLevelHandlers &&
                      negb (bool_decide (hf = getObjectACL))
         | None => false
         end)
        (pathInOwn ru && pathHas "object" ru && negb (queriesHave "object" ru)).

(** ** States and routes named in the proofs *)

(** The state of a match right after rule [ru] of a router with
    configuration [c] matched. *)
Definition matchedLeaf (c : routeConf) (ru : rule) (req : Request) : RouteMatch :=
  {| mRoute := Some (leafOf c ru); mHandler := ruleHandler ru;
     mVars := setMatch (regexp (conf (leafOf c ru))) req ∅;
     MatchErr := None |}.

(** The route of a bucket router. *)
Definition kindRoute (k : routerKind) : Route :=
  Subrouter (NewRoute (kindConf k)) bucketRoutes.

(** The state of a match after rule [ru] of bucket router [k] matched and
    the route of the router itself was left. *)
Definition matchedKind (k : routerKind) (ru : rule) (req : Request) : RouteMatch :=
  {| mRoute := Some (leafOf (kindConf k) ru); mHandler := ruleHandler ru;
     mVars := setMatch (regexp (kindConf k)) req
                (setMatch (regexp (conf (leafOf (kindConf k) ru))) req ∅);
     MatchErr := None |}.

(** The route of [bRouter] and the list-buckets route. *)
Definition bRoute (domains : list string) : Route :=
  Subrouter (NewRoute bConf) (bucketRouters domains).

Definition listBucketsRoute : Route :=
  {| conf := {| regexp := regexp emptyConf;
                matchers := [methodMatcher [MethodGet]] |};
     handler := Some (policyCheck listBucketsHandler [ListBucketAction]);
     err := false; subrouter := None |}.

(** The two ends of a template: [Lit EmptyString] and nothing, both up to the end
    of the string. *)
Definition onlyEmpty (k : string -> option (list (string * string))) : Prop :=
  forall y, k y = if isEmpty y then Some [] else None.

(** A host of the form [b.d:p] with a non-empty [b] and a numeric [p]. *)
Definition hostWithPort (d host b p : string) : Prop :=
  host = b +:+ ("." +:+ d +:+ ":") +:+ p /\ b <> EmptyString /\
  isEmpty p = false /\ allIn Digit p = true.

(** ** Further predicates and facts of the table *)

(** The first value of the query key is exactly [v]. *)
Definition hasExact (k v : string) (req : Request) : bool :=
  match queryFirst k (reqQuery req) with
  | Some x => (x =? v)%string
  | None => false
  end.

(** The method a rule of a bucket router is registered for: its first own
    matcher, set by [Methods]. *)
Definition methodOf (ru : rule) : option string :=
  match ruleOwn ru with
  | methodMatcher [m] :: _ => Some m
  | _ => None
  end.

(** The methods router.go registers routes for. *)
Definition routedMethods : list string :=
  [MethodHead; MethodGet; MethodPost; MethodPut; MethodDelete].

(** The handlers router.go hands to [HandlerFunc] on a bucket router, in
    the order of the source. *)
Definition registeredHandlers : list HandlerFunc :=
  flat_map (fun calls =>
              flat_map (fun c => match c with
                                 | HandlerFunc_ h => [h]
                                 | _ => []
                                 end) calls)
           bucketRouteCalls.

(** The variable an object-level route binds the object key to: the
    get-object-acl route is registered with [{objject:.+}], every other one
    with [{object:.+}]. *)
Definition objectVariable (hf : HandlerFunc) : string :=
  if bool_decide (hf = getObjectACL) then "objject" else "object".

(** A rule with an object-level handler has the object template, under the
    variable of its handler, as its path template and among its own
    matchers, and binds the variable in no query template. *)
Definition objectPathFacts (obj : string -> routeRegexp) (ru : rule) : bool :=
  implb (negb (ruleErr ru))
    match ruleHandler ru with
    | Some hf =>
        implb (memb hf objectLevelHandlers)
          (bool_decide (rulePath ru = Some (obj (objectVariable hf))) &&
           memb (regexpMatcher (obj (objectVariable hf))) (ruleOwn ru) &&
           negb (queriesHave (objectVariable hf) ru))
    | None => true
    end.

(** A rule whose handler is not object-level binds neither [object] nor
    [objject]. *)
Definition bucketPathFacts (ru : rule) : bool :=
  implb (negb (ruleErr ru))
    match ruleHandler ru with
    | Some hf =>
        implb (negb (memb hf objectLevelHandlers))
          (negb (pathHas "object" ru) && negb (queriesHave "object" ru) &&
           negb (pathHas "objject" ru) && negb (queriesHave "objject" ru))
    | None => true
    end.

(** The key of a query template [key=value]. *)
Definition queryKey (q : routeRegexp) : string := fst (splitN2 "=" (template q)).

(** The query variables of router.go: for each pair of a [Queries] call
    whose value is a variable, the key and the name of the variable.  The
    names [expires] and [signature] are bound by the v2 and by the v4
    pre-signed route, under different keys. *)
Definition queryVariables : list (string * string) :=
  [ ("AWSAccessKeyId", "accessKey"); ("Expires", "expires");
    ("Signature", "signature");
    ("X-Amz-Credential", "creadential"); ("X-Amz-Algorithm", "algorithm");
    ("X-Amz-Signature", "signature"); ("X-Amz-Date", "date");
    ("X-Amz-SignedHeaders", "signedHeaders"); ("X-Amz-Expires", "expires");
    ("key", "key"); ("uploadId", "uploadId"); ("partNumber", "partNumber") ].

(** The variable a compiled query template binds, with its class. *)
Definition queryBinding (q : routeRegexp) : option (string * charClass * bool) :=
  match pieces q with
  | [Lit _; Rep (Some n) c plus; Lit EmptyString] => Some (n, c, plus)
  | _ => None
  end.

(** A query template is [Queries(key, "{n:pattern}")] for a pair of
    [queryVariables], or binds no variable. *)
Definition queryTemplateOK (q : routeRegexp) : bool :=
  match queryBinding q with
  | Some (n, c, plus) =>
      bool_decide (q = qVar (queryKey q) n c plus) && keyOK (queryKey q) &&
      memb (queryKey q, n) queryVariables
  | None => bool_decide (regexpNames q = [])
  end.

(** The path template of a rule binds the bucket and the object only, and
    its query templates are those of [queryVariables]. *)
Definition queryFacts (ru : rule) : bool :=
  forallb (fun x => memb x ["bucket"; "object"; "objject"])
          (optNames (rulePath ru)) &&
  forallb queryTemplateOK (ruleQueries ru).

(** A rule with a handler of [hs] has the query template [q] among its
    query templates and its own matchers, and no other of its query
    templates binds [n]. *)
Definition bindsQuery (hs : list Handler) (q : routeRegexp) (n : string)
  (ru : rule) : bool :=
  implb (negb (ruleErr ru) &&
         match ruleHandler ru with
         | Some hf => memb (handlerOf hf) hs
         | None => false
         end)
        (memb q (ruleQueries ru) && memb (regexpMatcher q) (ruleOwn ru) &&
         forallb (fun q' => bool_decide (q' = q) ||
                            negb (nameIn n (regexpNames q')))
                 (ruleQueries ru)).

(** The handlers of the multipart routes that carry an upload id. *)
Definition uploadIdHandlers : list Handler :=
  [ listPartsHandler; completeMultipartUploadHandler; uploadPartHandler;
    abortMultipartUploadHandler ].

(** The request with its header fields replaced. *)
Definition withHeader (h : list (string * string)) (req : Request) : Request :=
  {| reqMethod := reqMethod req; reqHost := reqHost req; reqPath := reqPath req;
     reqQuery := reqQuery req; reqHeader := h |}.

(** The matcher [HeadersRegexp] adds. *)
Definition isHeaderMatcher (m : matcher) : bool :=
  match m with headerRegexMatcher _ => true | _ => false end.

(** A rule that reads a header is registered for PUT. *)
Definition headerFacts (ru : rule) : bool :=
  negb (existsb isHeaderMatcher (ruleOwn ru)) ||
  bool_decide (methodOf ru = Some MethodPut).

(** No template of a rule binds the port. *)
Definition portFacts (ru : rule) : bool :=
  negb (pathHas "port" ru) && negb (queriesHave "port" ru).

(** * Properties *)

(** * Properties of the matching loop *)

Lemma matchLoop_app req a b e :
  matchLoop req (a ++ b) e =
  match matchLoop req a e with
  | Some e' => matchLoop req b e'
  | None => None
  end.
Proof.
  revert e; induction a as [|m a IH]; intros e; simpl; [reflexivity|].
  destruct (matcher_Match m req); [apply IH|].
  destruct (isMethodMatcher m); [apply IH|reflexivity].
Qed.

Lemma matchLoop_pass req ms e :
  forallb (fun m => matcher_Match m req) ms = true ->
  matchLoop req ms e = Some e.
Proof.
  induction ms as [|m ms IH]; simpl; [reflexivity|].
  intros H; apply andb_true_iff in H as [-> H]; auto.
Qed.

Lemma matchLoop_result req ms e e' :
  matchLoop req ms e = Some e' ->
  (e' = e /\ forallb (fun m => matcher_Match m req) ms = true) \/
  (e' = Some ErrMethodMismatch /\
   forallb (fun m => matcher_Match m req) ms = false).
Proof.
  revert e; induction ms as [|m ms IH]; intros e; simpl.
  - intros [= <-]; left; auto.
  - destruct (matcher_Match m req); simpl; [apply IH|].
    destruct (isMethodMatcher m); [|discriminate].
    intros H; right; split; [|reflexivity].
    destruct (IH _ H) as [[-> _]|[-> _]]; reflexivity.
Qed.

Lemma matchLoop_fail req ms e :
  matchLoop req ms e = None ->
  forallb (fun m => matcher_Match m req) ms = false.
Proof.
  revert e; induction ms as [|m ms IH]; intros e; simpl; [discriminate|].
  destruct (matcher_Match m req); simpl; [apply IH|reflexivity].
Qed.

Lemma stateOf_clearNotFound b : clearNotFound (stateOf b) = stateOf b.
Proof. destruct b; reflexivity. Qed.

Lemma stateOf_setMismatch b :
  setMatchErr (Some ErrMethodMismatch) (stateOf b) = stateOf true.
Proof. destruct b; reflexivity. Qed.

Lemma leaf_pass c ru req b :
  preOK c req = true -> ownOK req ru = true ->
  Route_Match req (leafOf c ru) (stateOf b) = (true, matchedLeaf c ru req).
Proof.
  unfold preOK, ownOK; intros Hpre Hown.
  apply andb_true_iff in Hown as [He Hown].
  apply negb_true_iff in He.
  unfold leafOf; simpl; rewrite He.
  rewrite matchLoop_app, (matchLoop_pass _ _ _ Hpre), (matchLoop_pass _ _ _ Hown).
  unfold matchedLeaf, leafOf; destruct b; simpl; rewrite ?He;
    destruct (ruleHandler ru); reflexivity.
Qed.

Lemma leaf_fail c ru req b :
  preOK c req = true -> ownOK req ru = false ->
  exists b', Route_Match req (leafOf c ru) (stateOf b) = (false, stateOf b').
Proof.
  unfold preOK, ownOK; intros Hpre Hown.
  unfold leafOf; simpl.
  destruct (ruleErr ru) eqn:He; [exists b; reflexivity|].
  simpl in Hown.
  rewrite matchLoop_app, (matchLoop_pass _ _ _ Hpre).
  destruct (matchLoop req (ruleOwn ru) None) as [e'|] eqn:Hl.
  - destruct (matchLoop_result _ _ _ _ Hl) as [[_ H]|[-> _]]; [congruence|].
    exists true; simpl; rewrite stateOf_setMismatch; reflexivity.
  - exists b; rewrite stateOf_clearNotFound; reflexivity.
Qed.

Lemma leaves_loop c req rules :
  preOK c req = true ->
  forall b,
  match find (ownOK req) rules with
  | Some ru =>
      routerLoop (Route_Match req) (map (leafOf c) rules) (stateOf b)
      = (true, matchedLeaf c ru req)
  | None =>
      exists b',
      routerLoop (Route_Match req) (map (leafOf c) rules) (stateOf b)
      = (false, stateOf b')
  end.
Proof.
  intros Hpre; induction rules as [|ru rules IH]; intros b;
    cbn [map routerLoop find].
  - exists b; reflexivity.
  - destruct (ownOK req ru) eqn:Hown.
    + rewrite (leaf_pass _ _ _ _ Hpre Hown); reflexivity.
    + destruct (leaf_fail _ _ _ b Hpre Hown) as [b' ->].
      apply IH.
Qed.

(** * The shape of the table for plain domains *)

Lemma app_cons_str a (s t : string) : String a s +:+ t = String a (s +:+ t).
Proof. reflexivity. Qed.

Lemma app_nil_l_str (s : string) : EmptyString +:+ s = s.
Proof. reflexivity. Qed.

Lemma append_assoc_str (a b c : string) : (a +:+ b) +:+ c = a +:+ (b +:+ c).
Proof.
  induction a as [|x a IH]; rewrite ?app_nil_l_str, ?app_cons_str;
    [reflexivity|now f_equal].
Qed.

Lemma append_nil_r_str (a : string) : a +:+ EmptyString = a.
Proof.
  induction a as [|x a IH]; rewrite ?app_nil_l_str, ?app_cons_str;
    [reflexivity|now f_equal].
Qed.

Lemma scanTemplate_plain d rest raw :
  plainDomain d = true ->
  scanTemplate (d +:+ rest) 0 raw EmptyString = scanTemplate rest 0 (raw +:+ d) EmptyString.
Proof.
  revert raw; induction d as [|a d IH]; intros raw H;
    rewrite ?app_nil_l_str, ?app_cons_str; simpl in *.
  - now rewrite append_nil_r_str.
  - apply andb_true_iff in H as [H Hd].
    apply andb_true_iff in H as [H1 H2].
    apply negb_true_iff in H1, H2. rewrite H1, H2.
    rewrite IH by assumption. unfold snoc.
    now rewrite append_assoc_str.
Qed.

Lemma newRouteRegexp_host d :
  plainDomain d = true ->
  newRouteRegexp ("{bucket:.+}." +:+ d) regexpTypeHost = Some (hostRe d).
Proof.
  intros H. unfold newRouteRegexp. rewrite !app_cons_str, app_nil_l_str.
  cbn [scanTemplate Ascii.eqb Bool.eqb snoc].
  replace d with (d +:+ EmptyString) at 1 by apply append_nil_r_str.
  rewrite scanTemplate_plain by assumption.
  reflexivity.
Qed.

Lemma newRouteRegexp_hostPort d :
  plainDomain d = true ->
  newRouteRegexp ("{bucket:.+}." +:+ d +:+ ":{port:[0-9]+}") regexpTypeHost
  = Some (hostPortRe d).
Proof.
  intros H. unfold newRouteRegexp. rewrite !app_cons_str, app_nil_l_str.
  cbn [scanTemplate Ascii.eqb Bool.eqb snoc].
  rewrite scanTemplate_plain by assumption.
  cbn. unfold hostPortRe. unfold snoc. cbn.
  rewrite append_assoc_str. reflexivity.
Qed.

Lemma newRoute_host d :
  plainDomain d = true ->
  newRoute bConf [Host ("{bucket:.+}." +:+ d)] = NewRoute (hostConf (hostRe d)).
Proof.
  intros H. unfold newRoute. cbn [fold_left applyCall].
  unfold addRegexpMatcher. cbn [err NewRoute].
  cbn [andb]. rewrite (newRouteRegexp_host _ H). reflexivity.
Qed.

Lemma newRoute_hostPort d :
  plainDomain d = true ->
  newRoute bConf [Host ("{bucket:.+}." +:+ d +:+ ":{port:[0-9]+}")]
  = NewRoute (hostConf (hostPortRe d)).
Proof.
  intros H. unfold newRoute. cbn [fold_left applyCall].
  unfold addRegexpMatcher. cbn [err NewRoute].
  cbn [andb]. rewrite (newRouteRegexp_hostPort _ H). reflexivity.
Qed.

Lemma newRoute_path : newRoute bConf [PathPrefix "/{bucket}"] = NewRoute pathConf.
Proof. reflexivity. Qed.

Lemma newRoute_root : newRoute emptyConf [PathPrefix "/"] = NewRoute bConf.
Proof. reflexivity. Qed.

Lemma bucketRoutes_host t ps :
  let hre := {| template := t; regexpTyp := regexpTypeHost; pieces := ps;
                varsN := ["bucket"] |} in
  bucketRoutes (hostConf hre) = map (leafOf (hostConf hre)) hostRules.
Proof. vm_compute. reflexivity. Qed.

Lemma bucketRoutes_hostPort t ps :
  let hre := {| template := t; regexpTyp := regexpTypeHost; pieces := ps;
                varsN := ["bucket"; "port"] |} in
  bucketRoutes (hostConf hre) = map (leafOf (hostConf hre)) hostRules.
Proof. vm_compute. reflexivity. Qed.

Lemma bucketRoutes_path :
  bucketRoutes pathConf = map (leafOf pathConf) pathRules.
Proof. vm_compute. reflexivity. Qed.

Lemma bucketRoutes_kind k :
  bucketRoutes (kindConf k) = map (leafOf (kindConf k)) (kindRules k).
Proof.
  destruct k as [d|d|]; cbn [kindConf kindRules].
  - apply (bucketRoutes_host _ _).
  - apply (bucketRoutes_hostPort _ _).
  - apply bucketRoutes_path.
Qed.

Lemma bucketRouters_plain ds :
  forallb plainDomain ds = true ->
  bucketRouters ds bConf = map kindRoute (kinds ds).
Proof.
  unfold bucketRouters, kinds. intros H.
  rewrite map_app. f_equal.
  induction ds as [|d ds IH]; [reflexivity|].
  cbn [forallb] in H. apply andb_true_iff in H as [Hd H].
  cbn [flat_map]. rewrite map_app, <- (IH H).
  rewrite (newRoute_host _ Hd), (newRoute_hostPort _ Hd). reflexivity.
Qed.

(** * The router, evaluated *)

Lemma Route_Match_sub req c h rs m :
  Route_Match req (mkRoute c h false (Some rs)) m =
  match matchLoop req (matchers c) None with
  | None => (false, clearNotFound m)
  | Some matchErr =>
      let '(ok, m1) := routerLoop (Route_Match req) rs m in
      let '(ok, m1) := if ok then (true, m1) else routerEnd None None m1 in
      if ok then routeDone (mkRoute c h false (Some rs)) req matchErr m1
      else (false, clearNotFound m1)
  end.
Proof. reflexivity. Qed.

Lemma matchLoop_regexps req ms e :
  forallb (fun m => negb (isMethodMatcher m)) ms = true ->
  matchLoop req ms e =
  if forallb (fun m => matcher_Match m req) ms then Some e else None.
Proof.
  induction ms as [|m ms IH]; cbn [forallb matchLoop]; [reflexivity|].
  intros H; apply andb_true_iff in H as [Hm H].
  destruct (matcher_Match m req); cbn [andb]; [auto|].
  apply negb_true_iff in Hm; now rewrite Hm.
Qed.

Lemma routerEnd_stateOf b :
  exists b', routerEnd None None (stateOf b) = (false, b') /\
             clearNotFound b' = stateOf b.
Proof. destruct b; eexists; split; reflexivity. Qed.

Lemma kindConf_regexps k :
  forallb (fun m => negb (isMethodMatcher m)) (matchers (kindConf k)) = true.
Proof. destruct k; reflexivity. Qed.

Lemma kind_match k req b :
  match selected k req with
  | Some ru => Route_Match req (kindRoute k) (stateOf b) = (true, matchedKind k ru req)
  | None => exists b', Route_Match req (kindRoute k) (stateOf b) = (false, stateOf b')
  end.
Proof.
  unfold selected, kindRoute, Subrouter, NewRoute. cbn [conf handler err].
  rewrite Route_Match_sub, (matchLoop_regexps _ _ _ (kindConf_regexps k)).
  fold (preOK (kindConf k) req).
  destruct (preOK (kindConf k) req) eqn:Hpre.
  - rewrite bucketRoutes_kind.
    pose proof (leaves_loop (kindConf k) req (kindRules k) Hpre b) as Hl.
    destruct (find (ownOK req) (kindRules k)) as [ru|].
    + rewrite Hl. unfold matchedKind, matchedLeaf. cbn.
      destruct (ruleHandler ru); reflexivity.
    + destruct Hl as [b' ->].
      destruct (routerEnd_stateOf b') as (m' & -> & Hc).
      exists b'. now rewrite Hc.
  - exists b. now rewrite stateOf_clearNotFound.
Qed.

Lemma kinds_loop ks req :
  forall b,
  match firstSelected ks req with
  | Some (k, ru) =>
      routerLoop (Route_Match req) (map kindRoute ks) (stateOf b)
      = (true, matchedKind k ru req)
  | None =>
      exists b',
      routerLoop (Route_Match req) (map kindRoute ks) (stateOf b)
      = (false, stateOf b')
  end.
Proof.
  induction ks as [|k ks IH]; intros b; cbn [map routerLoop firstSelected].
  - exists b; reflexivity.
  - pose proof (kind_match k req b) as Hk.
    destruct (selected k req) as [ru|].
    + now rewrite Hk.
    + destruct Hk as [b' ->]. apply IH.
Qed.

Lemma registerApiRouters_routes ds :
  routes (registerApiRouters ds) = [bRoute ds; listBucketsRoute].
Proof. reflexivity. Qed.

Lemma selected_pre k req ru :
  selected k req = Some ru -> preOK bConf req = true.
Proof.
  unfold selected, preOK.
  destruct k; cbn [kindConf hostConf pathConf matchers forallb bConf];
    destruct (matcher_Match (regexpMatcher rootPrefix) req);
    cbn [andb]; congruence.
Qed.

Lemma firstSelected_pre ks req k ru :
  firstSelected ks req = Some (k, ru) -> preOK bConf req = true.
Proof.
  induction ks as [|k0 ks IH]; cbn [firstSelected]; [discriminate|].
  destruct (selected k0 req) eqn:Hs; [|exact IH].
  intros _. eapply selected_pre; eassumption.
Qed.

Lemma bRoute_match ds req b :
  forallb plainDomain ds = true ->
  match firstSelected (kinds ds) req with
  | Some (k, ru) =>
      Route_Match req (bRoute ds) (stateOf b)
      = (true, {| mRoute := Some (leafOf (kindConf k) ru);
                  mHandler := ruleHandler ru;
                  mVars := routeVars k ru req; MatchErr := None |})
  | None =>
      exists b', Route_Match req (bRoute ds) (stateOf b) = (false, stateOf b')
  end.
Proof.
  intros Hp. unfold bRoute, Subrouter, NewRoute. cbn [conf handler err].
  rewrite Route_Match_sub, (bucketRouters_plain _ Hp).
  rewrite matchLoop_regexps by reflexivity. fold (preOK bConf req).
  pose proof (kinds_loop (kinds ds) req b) as Hl.
  destruct (firstSelected (kinds ds) req) as [[k ru]|] eqn:Hf.
  - rewrite (firstSelected_pre _ _ _ _ Hf), Hl.
    unfold routeVars, matchedKind. cbn. destruct (ruleHandler ru); reflexivity.
  - destruct (preOK bConf req).
    + destruct Hl as [b' ->].
      destruct (routerEnd_stateOf b') as (m' & -> & Hc).
      exists b'. now rewrite Hc.
    + exists b. now rewrite stateOf_clearNotFound.
Qed.

Lemma method_match x req :
  matcher_Match (methodMatcher [x]) req = (x =? reqMethod req)%string.
Proof. unfold matcher_Match. cbn [existsb]. apply orb_false_r. Qed.

Lemma listBuckets_match req b :
  Route_Match req listBucketsRoute (stateOf b) =
  if (MethodGet =? reqMethod req)%string
  then (true, {| mRoute := Some listBucketsRoute;
                 mHandler := Some (policyCheck listBucketsHandler [ListBucketAction]);
                 mVars := ∅; MatchErr := None |})
  else (false, stateOf true).
Proof.
  unfold listBucketsRoute.
  cbn [Route_Match matchLoop matchers isMethodMatcher]. rewrite method_match.
  destruct (MethodGet =? reqMethod req)%string; destruct b; reflexivity.
Qed.

(** What [handle] serves, for plain domains: the handler of the first rule
    selected by a bucket router, in the order of the routers; without one,
    the list-buckets handler for a GET and the 405 reply otherwise. *)
Lemma handle_spec ds req :
  forallb plainDomain ds = true ->
  handle ds req =
  match firstSelected (kinds ds) req with
  | Some (k, ru) =>
      match ruleHandler ru with
      | Some h => serveHandler h (routeVars k ru req)
      | None => serveNotFound
      end
  | None =>
      if (MethodGet =? reqMethod req)%string
      then serveHandler (policyCheck listBucketsHandler [ListBucketAction]) ∅
      else serveMethodNotAllowed
  end.
Proof.
  intros Hp. unfold handle, ServeHTTP, Router_Match.
  rewrite registerApiRouters_routes. cbn [routerLoop].
  pose proof (bRoute_match ds req false Hp) as Hb.
  change emptyMatch with (stateOf false).
  destruct (firstSelected (kinds ds) req) as [[k ru]|].
  - rewrite Hb. cbn. destruct (ruleHandler ru); reflexivity.
  - destruct Hb as [b' ->]. rewrite listBuckets_match.
    destruct (MethodGet =? reqMethod req)%string; reflexivity.
Qed.

(** * Greedy repetitions *)

Lemma snoc_app taken a (x : string) : snoc taken a +:+ x = taken +:+ String a x.
Proof. unfold snoc. now rewrite append_assoc_str. Qed.

Lemma append_empty (a b : string) : a +:+ b = EmptyString -> a = EmptyString /\ b = EmptyString.
Proof. destruct a; [now rewrite app_nil_l_str|discriminate]. Qed.

Lemma rep_stop_sound name plus (k : string -> option (list (string * string)))
  s taken r :
  match taken, plus with
  | EmptyString, true => None
  | _, _ =>
      match k s with
      | Some vs => Some (match name with Some n => (n, taken) :: vs | None => vs end)
      | None => None
      end
  end = Some r ->
  exists vs, k s = Some vs /\ (plus = true -> taken <> EmptyString) /\
             r = capture name taken vs.
Proof.
  intros H.
  assert (Hk : match k s with
               | Some vs => Some (capture name taken vs)
               | None => None
               end = Some r /\ (plus = true -> taken <> EmptyString)).
  { destruct taken, plus; try discriminate; split; try exact H;
      intros; congruence. }
  destruct Hk as [Hk Hp]. destruct (k s) as [vs|]; [|discriminate].
  injection Hk as <-. eauto.
Qed.

(** A match of a repetition splits the string into a run of the class and a
    rest the remaining template matches. *)
Lemma rep_sound name c plus k s : forall taken r,
  repMatch name c plus k s taken = Some r ->
  exists x y vs, s = x +:+ y /\ allIn c x = true /\ k y = Some vs /\
                 (plus = true -> taken +:+ x <> EmptyString) /\
                 r = capture name (taken +:+ x) vs.
Proof.
  induction s as [|a s IH]; intros taken r H; cbn [repMatch] in H.
  - apply rep_stop_sound in H as (vs & Hk & Hp & ->).
    exists EmptyString, EmptyString, vs. rewrite !append_nil_r_str. repeat split; auto.
  - assert (Hstop : forall r,
      match taken, plus with
      | EmptyString, true => None
      | _, _ =>
          match k (String a s) with
          | Some vs => Some (match name with Some n => (n, taken) :: vs | None => vs end)
          | None => None
          end
      end = Some r ->
      exists x y vs, String a s = x +:+ y /\ allIn c x = true /\ k y = Some vs /\
                     (plus = true -> taken +:+ x <> EmptyString) /\
                     r = capture name (taken +:+ x) vs).
    { intros r0 H0. apply rep_stop_sound in H0 as (vs & Hk & Hp & ->).
      exists EmptyString, (String a s), vs. rewrite !append_nil_r_str.
      repeat split; auto. }
    destruct (inClass c a) eqn:Ha; [|now apply Hstop].
    destruct (repMatch name c plus k s (snoc taken a)) as [r'|] eqn:Hr;
      [|now apply Hstop].
    injection H as <-.
    apply IH in Hr as (x & y & vs & -> & Hx & Hk & Hp & ->).
    exists (String a x), y, vs. rewrite snoc_app in *.
    cbn [allIn]. rewrite Ha, Hx. repeat split; auto.
Qed.

(** Conversely, when the string splits that way, the repetition matches. *)
Lemma rep_complete name c plus k x : forall y taken vs,
  allIn c x = true -> k y = Some vs ->
  (plus = true -> taken +:+ x <> EmptyString) ->
  exists r, repMatch name c plus k (x +:+ y) taken = Some r.
Proof.
  induction x as [|a x IH]; intros y taken vs Hx Hk Hp.
  - rewrite app_nil_l_str. rewrite append_nil_r_str in Hp.
    assert (Hstop : exists r,
      match taken, plus with
      | EmptyString, true => None
      | _, _ =>
          match k y with
          | Some vs => Some (match name with Some n => (n, taken) :: vs | None => vs end)
          | None => None
          end
      end = Some r).
    { rewrite Hk. destruct taken, plus; eauto. now destruct Hp. }
    destruct y as [|b y]; cbn [repMatch]; [exact Hstop|].
    destruct (inClass c b); [|exact Hstop].
    destruct (repMatch name c plus k y (snoc taken b)); eauto.
  - cbn [allIn] in Hx. apply andb_true_iff in Hx as [Ha Hx].
    rewrite app_cons_str. cbn [repMatch]. rewrite Ha.
    destruct (IH y (snoc taken a) vs Hx Hk) as [r ->]; [|eauto].
    rewrite snoc_app. exact Hp.
Qed.

(** The repetition takes the longest run when the rest matches after it. *)
Lemma rep_greedy name c plus k x : forall y taken vs,
  allIn c x = true -> stopsRun c y = true -> k y = Some vs ->
  (plus = true -> taken +:+ x <> EmptyString) ->
  repMatch name c plus k (x +:+ y) taken = Some (capture name (taken +:+ x) vs).
Proof.
  induction x as [|a x IH]; intros y taken vs Hx Hy Hk Hp.
  - rewrite app_nil_l_str. rewrite append_nil_r_str in *.
    assert (Hstop :
      match taken, plus with
      | EmptyString, true => None
      | _, _ =>
          match k y with
          | Some vs => Some (match name with Some n => (n, taken) :: vs | None => vs end)
          | None => None
          end
      end = Some (capture name taken vs)).
    { rewrite Hk. destruct taken, plus; try reflexivity. now destruct Hp. }
    destruct y as [|b y]; cbn [repMatch]; [exact Hstop|].
    cbn [stopsRun] in Hy. apply negb_true_iff in Hy. now rewrite Hy.
  - cbn [allIn] in Hx. apply andb_true_iff in Hx as [Ha Hx].
    rewrite app_cons_str. cbn [repMatch]. rewrite Ha.
    rewrite (IH y (snoc taken a) vs Hx Hy Hk).
    + now rewrite snoc_app.
    + rewrite snoc_app. exact Hp.
Qed.

Lemma hostRules_view : hostRules = rulesView rootPrefix objectPathHost.
Proof. reflexivity. Qed.

Lemma pathRules_view : pathRules = rulesView bucketPrefix objectPathStyle.
Proof. reflexivity. Qed.

(** * Runs *)

Lemma run_split c s : s = takeRun c s +:+ dropRun c s.
Proof.
  induction s as [|a s IH]; [reflexivity|]. cbn [takeRun dropRun].
  destruct (inClass c a); [|reflexivity].
  rewrite app_cons_str. now f_equal.
Qed.

Lemma takeRun_allIn c s : allIn c (takeRun c s) = true.
Proof.
  induction s as [|a s IH]; [reflexivity|]. cbn [takeRun].
  destruct (inClass c a) eqn:Ha; [|reflexivity].
  cbn [allIn]. now rewrite Ha.
Qed.

Lemma dropRun_stops c s : stopsRun c (dropRun c s) = true.
Proof.
  induction s as [|a s IH]; [reflexivity|]. cbn [dropRun].
  destruct (inClass c a) eqn:Ha; [assumption|].
  cbn [stopsRun]. now rewrite Ha.
Qed.

Lemma run_unique c x : forall y x' y',
  allIn c x = true -> stopsRun c y = true ->
  allIn c x' = true -> stopsRun c y' = true ->
  x +:+ y = x' +:+ y' -> x = x' /\ y = y'.
Proof.
  induction x as [|a x IH]; intros y x' y' Hx Hy Hx' Hy' H.
  - rewrite app_nil_l_str in H. destruct x' as [|b x'].
    + now rewrite app_nil_l_str in H.
    + rewrite app_cons_str in H. subst y. cbn [stopsRun allIn] in *.
      apply andb_true_iff in Hx' as [Hb _]. now rewrite Hb in Hy.
  - cbn [allIn] in Hx. apply andb_true_iff in Hx as [Ha Hx].
    destruct x' as [|b x'].
    + rewrite app_nil_l_str, app_cons_str in H. subst y'.
      cbn [stopsRun] in Hy'. now rewrite Ha in Hy'.
    + rewrite !app_cons_str in H. injection H as -> H.
      cbn [allIn] in Hx'. apply andb_true_iff in Hx' as [_ Hx'].
      destruct (IH _ _ _ Hx Hy Hx' Hy' H) as [-> ->]. auto.
Qed.

Lemma rep_empty_run name c k y :
  stopsRun c y = true -> repMatch name c true k y EmptyString = None.
Proof.
  destruct y as [|a y]; [reflexivity|]. cbn [stopsRun repMatch].
  intros H; apply negb_true_iff in H. now rewrite H.
Qed.

(** When the rest of the template can only match where a run stops, the
    repetition holds the longest run. *)
Lemma rep_max name c plus k s :
  (forall y vs, k y = Some vs -> stopsRun c y = true) ->
  repMatch name c plus k s EmptyString =
  if plus && isEmpty (takeRun c s) then None
  else match k (dropRun c s) with
       | Some vs => Some (capture name (takeRun c s) vs)
       | None => None
       end.
Proof.
  intros Hk.
  pose proof (takeRun_allIn c s) as Hx.
  pose proof (dropRun_stops c s) as Hy.
  rewrite (run_split c s) at 1.
  destruct (plus && isEmpty (takeRun c s)) eqn:Hp.
  - apply andb_true_iff in Hp as [-> Hp].
    destruct (takeRun c s); [|discriminate].
    rewrite app_nil_l_str. now apply rep_empty_run.
  - destruct (k (dropRun c s)) as [vs|] eqn:Hkd.
    + rewrite (rep_greedy _ _ _ _ _ _ _ _ Hx Hy Hkd); [reflexivity|].
      intros ->. rewrite app_nil_l_str.
      destruct (takeRun c s); [discriminate|discriminate].
    + destruct (repMatch name c plus k (takeRun c s +:+ dropRun c s) EmptyString)
        as [r|] eqn:Hr; [|reflexivity].
      apply rep_sound in Hr as (x & y & vs & Hs & Hax & Hky & _ & _).
      pose proof (Hk _ _ Hky) as Hsy.
      destruct (run_unique _ _ _ _ _ Hx Hy Hax Hsy Hs) as [_ <-].
      congruence.
Qed.

Lemma allIn_any s : allIn AnyChar s = true.
Proof. induction s; [reflexivity|assumption]. Qed.

Lemma takeRun_any s : takeRun AnyChar s = s.
Proof. induction s as [|a s IH]; [reflexivity|]. cbn. now f_equal. Qed.

Lemma dropRun_any s : dropRun AnyChar s = EmptyString.
Proof. induction s as [|a s IH]; [reflexivity|assumption]. Qed.

Lemma takeRun_all c s : allIn c s = true -> takeRun c s = s /\ dropRun c s = EmptyString.
Proof.
  induction s as [|a s IH]; [auto|]. cbn [allIn takeRun dropRun].
  intros H; apply andb_true_iff in H as [-> H].
  destruct (IH H) as [-> ->]. auto.
Qed.

Lemma dropRun_nonempty c s : allIn c s = false -> dropRun c s <> EmptyString.
Proof.
  induction s as [|a s IH]; [discriminate|]. cbn [allIn dropRun].
  destruct (inClass c a); [exact IH|discriminate].
Qed.

Lemma onlyEmpty_nil : onlyEmpty (matchPieces [] true).
Proof. intros [|a y]; reflexivity. Qed.

Lemma onlyEmpty_lit : onlyEmpty (matchPieces [Lit EmptyString] true).
Proof. intros [|a y]; reflexivity. Qed.

(** A repetition at the end of a template takes the whole string. *)
Lemma rep_to_end name c plus k v :
  onlyEmpty k ->
  repMatch name c plus k v EmptyString =
  if allIn c v && (negb plus || negb (isEmpty v))
  then Some (capture name v []) else None.
Proof.
  intros Hk. rewrite rep_max.
  - destruct (allIn c v) eqn:Hv.
    + destruct (takeRun_all _ _ Hv) as [-> ->]. rewrite Hk. cbn [isEmpty andb].
      destruct plus, (isEmpty v); reflexivity.
    + rewrite Hk. pose proof (dropRun_nonempty _ _ Hv) as Hd.
      destruct (dropRun c v); [now destruct Hd|].
      cbn [isEmpty andb]. now destruct (plus && isEmpty (takeRun c v)).
  - intros y vs. rewrite Hk. destruct y; [reflexivity|discriminate].
Qed.

(** * Query templates *)

Lemma stripPrefix_app p s : stripPrefix p (p +:+ s) = Some s.
Proof.
  induction p as [|a p IH]; [reflexivity|].
  rewrite app_cons_str. cbn [stripPrefix]. now rewrite Ascii.eqb_refl.
Qed.

Lemma stripPrefix_eq p s r : stripPrefix p s = Some r -> s = p +:+ r.
Proof.
  revert s; induction p as [|a p IH]; intros s; cbn [stripPrefix].
  - now intros [= ->].
  - destruct s as [|b s]; [discriminate|].
    destruct (Ascii.eqb_spec a b) as [->|]; [|discriminate].
    intros H. rewrite app_cons_str. f_equal. auto.
Qed.

Lemma splitN2_key k rest :
  keyOK k = true -> fst (splitN2 "=" (k +:+ String "=" rest)) = k.
Proof.
  induction k as [|a k IH]; [reflexivity|].
  cbn [keyOK]. intros H; apply andb_true_iff in H as [Ha H].
  apply negb_true_iff in Ha.
  rewrite app_cons_str. cbn [splitN2]. rewrite Ha.
  specialize (IH H). destruct (splitN2 "=" (k +:+ String "=" rest)).
  cbn [fst] in *. now f_equal.
Qed.

Lemma query_captures tpl k rest name c plus tl req :
  keyOK k = true -> tpl = k +:+ String "=" rest ->
  onlyEmpty (matchPieces tl true) ->
  regexpCaptures {| template := tpl; regexpTyp := regexpTypeQuery;
                    pieces := Lit (k +:+ "=") :: Rep name c plus :: tl;
                    varsN := match name with Some n => [n] | None => [] end |}
                 req =
  match queryFirst k (reqQuery req) with
  | Some v => if allIn c v && (negb plus || negb (isEmpty v))
              then Some (capture name v []) else None
  | None => None
  end.
Proof.
  intros Hk -> Htl. unfold regexpCaptures, regexpSubject, getURLQuery.
  cbn [regexpTyp template pieces anchored]. rewrite (splitN2_key _ _ Hk).
  destruct (queryFirst k (reqQuery req)) as [v|]; cbn [matchPieces].
  - rewrite <- append_assoc_str, stripPrefix_app.
    now apply rep_to_end.
  - destruct k; reflexivity.
Qed.

Lemma qPresent_match k req :
  keyOK k = true ->
  matcher_Match (regexpMatcher (qPresent k)) req = hasKey k req.
Proof.
  intros Hk. unfold matcher_Match, qPresent, hasKey.
  rewrite (query_captures _ k EmptyString None AnyChar false [] req Hk eq_refl onlyEmpty_nil).
  destruct (queryFirst k (reqQuery req)) as [v|]; [|reflexivity].
  now rewrite allIn_any.
Qed.

Lemma qVar_captures k n c plus req :
  keyOK k = true ->
  regexpCaptures (qVar k n c plus) req =
  match queryFirst k (reqQuery req) with
  | Some v => if allIn c v && (negb plus || negb (isEmpty v))
              then Some [(n, v)] else None
  | None => None
  end.
Proof.
  intros Hk. unfold qVar.
  apply (query_captures _ k _ (Some n) c plus [Lit EmptyString] req Hk eq_refl onlyEmpty_lit).
Qed.

Lemma qVar_match k n c plus req :
  keyOK k = true ->
  matcher_Match (regexpMatcher (qVar k n c plus)) req = hasValue k c plus req.
Proof.
  intros Hk. unfold matcher_Match, hasValue. rewrite (qVar_captures _ _ _ _ _ Hk).
  destruct (queryFirst k (reqQuery req)) as [v|]; [|reflexivity].
  now destruct (allIn c v && (negb plus || negb (isEmpty v))).
Qed.

(** * Path templates *)

Lemma rootPrefix_captures req :
  regexpCaptures rootPrefix req =
  match stripPrefix "/" (reqPath req) with Some _ => Some [] | None => None end.
Proof.
  unfold regexpCaptures, regexpSubject. cbn [rootPrefix regexpTyp pieces anchored matchPieces].
  now destruct (stripPrefix "/" (reqPath req)).
Qed.

Lemma objectPathHost_captures n req :
  regexpCaptures (objectPathHost n) req =
  match stripPrefix "/" (reqPath req) with
  | Some rest => if isEmpty rest then None else Some [(n, rest)]
  | None => None
  end.
Proof.
  unfold regexpCaptures, regexpSubject.
  cbn [objectPathHost regexpTyp pieces anchored matchPieces].
  destruct (stripPrefix "/" (reqPath req)) as [rest|]; [|reflexivity].
  rewrite (rep_to_end _ _ _ _ _ onlyEmpty_lit), allIn_any.
  now destruct rest.
Qed.

Lemma bucketPrefix_captures req :
  regexpCaptures bucketPrefix req =
  match stripPrefix "/" (reqPath req) with
  | Some rest =>
      if isEmpty (takeRun NotSlash rest) then None
      else Some [("bucket", takeRun NotSlash rest)]
  | None => None
  end.
Proof.
  unfold regexpCaptures, regexpSubject.
  cbn [bucketPrefix regexpTyp pieces anchored matchPieces].
  destruct (stripPrefix "/" (reqPath req)) as [rest|]; [|reflexivity].
  destruct (isEmpty (takeRun NotSlash rest)) eqn:He.
  - rewrite (run_split NotSlash rest) at 1.
    destruct (takeRun NotSlash rest); [|discriminate].
    rewrite app_nil_l_str. apply rep_empty_run, dropRun_stops.
  - rewrite (run_split NotSlash rest) at 1.
    rewrite (rep_greedy _ _ _ _ _ _ _ [] (takeRun_allIn _ _) (dropRun_stops _ _));
      [reflexivity|reflexivity|].
    intros _. rewrite app_nil_l_str. now destruct (takeRun NotSlash rest).
Qed.

Lemma objectPathStyle_captures n req :
  regexpCaptures (objectPathStyle n) req =
  match stripPrefix "/" (reqPath req) with
  | Some rest =>
      if isEmpty (takeRun NotSlash rest) then None
      else match keyAfter rest with
           | Some k => Some [("bucket", takeRun NotSlash rest); (n, k)]
           | None => None
           end
  | None => None
  end.
Proof.
  unfold regexpCaptures, regexpSubject.
  cbn [objectPathStyle regexpTyp pieces anchored].
  cbn [matchPieces].
  destruct (stripPrefix "/" (reqPath req)) as [rest|]; [|reflexivity].
  rewrite rep_max.
  - cbn [andb]. destruct (isEmpty (takeRun NotSlash rest)); [reflexivity|].
    unfold keyAfter. pose proof (dropRun_stops NotSlash rest) as Hs.
    destruct (dropRun NotSlash rest) as [|a k]; [reflexivity|].
    cbn [stopsRun inClass] in Hs. apply negb_true_iff, negb_false_iff in Hs.
    apply Ascii.eqb_eq in Hs as ->. cbn [stripPrefix Ascii.eqb Bool.eqb].
    rewrite (rep_to_end _ _ _ _ _ onlyEmpty_lit), allIn_any.
    now destruct k.
  - intros y vs. destruct y as [|a y]; [reflexivity|].
    cbn [stripPrefix stopsRun inClass].
    destruct (Ascii.eqb_spec "/" a) as [<-|]; [reflexivity|discriminate].
Qed.

Lemma splitN2_slash rest :
  splitN2 "/" rest =
  (takeRun NotSlash rest,
   match dropRun NotSlash rest with
   | EmptyString => None
   | String _ k => Some k
   end).
Proof.
  induction rest as [|a rest IH]; [reflexivity|].
  cbn [splitN2 takeRun dropRun inClass].
  destruct (Ascii.eqb a "/"); [reflexivity|].
  cbn [negb]. now rewrite IH.
Qed.

(** * Host templates *)

Lemma length_app_str (a b : string) :
  String.length (a +:+ b) = String.length a + String.length b.
Proof.
  induction a as [|x a IH]; [reflexivity|].
  rewrite app_cons_str. cbn [String.length]. now rewrite IH.
Qed.

Lemma stripSuffix_app suf b : stripSuffix suf (b +:+ suf) = Some b.
Proof.
  induction b as [|a b IH].
  - rewrite app_nil_l_str. destruct suf; cbn [stripSuffix];
      now rewrite String.eqb_refl.
  - rewrite app_cons_str. cbn [stripSuffix].
    destruct (String.eqb_spec (String a (b +:+ suf)) suf) as [He|_].
    + apply (f_equal String.length) in He. cbn [String.length] in He.
      rewrite length_app_str in He. lia.
    + now rewrite IH.
Qed.

Lemma stripSuffix_eq suf s : forall b, stripSuffix suf s = Some b -> s = b +:+ suf.
Proof.
  induction s as [|a s IH]; intros b; cbn [stripSuffix].
  - destruct (String.eqb_spec EmptyString suf) as [<-|]; [|discriminate].
    now intros [= <-].
  - destruct (String.eqb_spec (String a s) suf) as [<-|_].
    + now intros [= <-].
    + destruct (stripSuffix suf s) as [b'|]; [|discriminate].
      intros [= <-]. rewrite app_cons_str. f_equal. auto.
Qed.

Lemma nonEmpty_Some s b : nonEmpty s = Some b -> s = b /\ b <> EmptyString.
Proof. destruct s; [discriminate|]. intros [= <-]. split; [auto|discriminate]. Qed.

Lemma nonEmpty_ne s : s <> EmptyString -> nonEmpty s = Some s.
Proof. destruct s; [now intros []|reflexivity]. Qed.

Lemma lit_end_Some suf y vs :
  matchPieces [Lit suf] true y = Some vs -> y = suf /\ vs = [].
Proof.
  cbn [matchPieces]. destruct (stripPrefix suf y) as [r|] eqn:Hs; [|discriminate].
  apply stripPrefix_eq in Hs as ->. destruct r; [|discriminate].
  intros [= <-]. now rewrite append_nil_r_str.
Qed.

Lemma lit_end_refl suf : matchPieces [Lit suf] true suf = Some [].
Proof.
  cbn [matchPieces]. rewrite <- (append_nil_r_str suf) at 2.
  now rewrite stripPrefix_app.
Qed.

Lemma hostRe_captures d req :
  regexpCaptures (hostRe d) req =
  match matchDomain d (reqHost req) with
  | Some b => Some [("bucket", b)]
  | None => None
  end.
Proof.
  unfold regexpCaptures, regexpSubject.
  cbn [hostRe regexpTyp pieces anchored]. set (host := reqHost req).
  change (matchPieces (Lit EmptyString :: ?ps) true host) with (matchPieces ps true host).
  cbn [matchPieces]. set (suf := "." +:+ d).
  change (fun s => match stripPrefix suf s with
                   | Some r => match r with EmptyString => Some [] | String _ _ => None end
                   | None => None
                   end) with (matchPieces [Lit suf] true).
  assert (Hsound : forall r,
    repMatch (Some "bucket") AnyChar true (matchPieces [Lit suf] true) host EmptyString = Some r ->
    exists x, host = x +:+ suf /\ x <> EmptyString /\ r = [("bucket", x)]).
  { intros r Hr. apply rep_sound in Hr as (x & y & vs & Hh & _ & Hk & Hp & ->).
    apply lit_end_Some in Hk as [-> ->]. rewrite app_nil_l_str in *.
    exists x. auto. }
  unfold matchDomain. fold suf.
  destruct (stripSuffix suf host) as [b|] eqn:Hs.
  - pose proof (stripSuffix_eq _ _ _ Hs) as Hh.
    destruct b as [|a b]; cbn [nonEmpty].
    + destruct (repMatch _ _ _ _ host EmptyString) as [r|] eqn:Hr; [|reflexivity].
      destruct (Hsound _ eq_refl) as (x & Hx & Hne & _).
      rewrite Hx, stripSuffix_app in Hs. injection Hs as ->. now destruct Hne.
    + destruct (rep_complete (Some "bucket") AnyChar true
                  (matchPieces [Lit suf] true) (String a b) suf EmptyString []
                  (allIn_any _) (lit_end_refl _)) as [r Hr]; [discriminate|].
      rewrite <- Hh in Hr. rewrite Hr.
      destruct (Hsound _ Hr) as (x & Hx & _ & ->).
      rewrite Hx, stripSuffix_app in Hs. now injection Hs as ->.
  - destruct (repMatch _ _ _ _ host EmptyString) as [r|] eqn:Hr; [|reflexivity].
    destruct (Hsound _ eq_refl) as (x & Hx & _ & _).
    rewrite Hx, stripSuffix_app in Hs. discriminate.
Qed.

Lemma digit_not_colon a : inClass Digit a = true -> Ascii.eqb a ":" = false.
Proof.
  destruct (Ascii.eqb_spec a ":") as [->|]; [discriminate|reflexivity].
Qed.

Lemma splitLastColon_digits p : allIn Digit p = true -> splitLastColon p = None.
Proof.
  induction p as [|a p IH]; [reflexivity|]. cbn [allIn splitLastColon].
  intros H; apply andb_true_iff in H as [Ha H].
  now rewrite (IH H), (digit_not_colon _ Ha).
Qed.

Lemma splitLastColon_app u p :
  allIn Digit p = true -> splitLastColon (u +:+ String ":" p) = Some (u, p).
Proof.
  intros Hp. induction u as [|a u IH].
  - rewrite app_nil_l_str. cbn [splitLastColon].
    now rewrite (splitLastColon_digits _ Hp).
  - rewrite app_cons_str. cbn [splitLastColon]. now rewrite IH.
Qed.

Lemma splitLastColon_eq s : forall h p,
  splitLastColon s = Some (h, p) -> s = h +:+ String ":" p.
Proof.
  induction s as [|a s IH]; intros h p; cbn [splitLastColon]; [discriminate|].
  destruct (splitLastColon s) as [[h' p']|].
  - intros [= <- <-]. rewrite app_cons_str. f_equal. auto.
  - destruct (Ascii.eqb_spec a ":") as [->|]; [|discriminate].
    now intros [= <- <-].
Qed.

Lemma colon_assoc (b d p : string) :
  b +:+ ("." +:+ d +:+ ":") +:+ p = (b +:+ "." +:+ d) +:+ String ":" p.
Proof.
  rewrite !append_assoc_str. reflexivity.
Qed.

Lemma matchDomainPort_complete d host b p :
  hostWithPort d host b p -> matchDomainPort d host = Some b.
Proof.
  intros (-> & Hb & Hp & Hd). unfold matchDomainPort.
  rewrite colon_assoc, (splitLastColon_app _ _ Hd).
  destruct p; [discriminate|]. unfold allDigits. rewrite Hd.
  unfold matchDomain. rewrite stripSuffix_app. now apply nonEmpty_ne.
Qed.

Lemma matchDomainPort_sound d host b :
  matchDomainPort d host = Some b -> exists p, hostWithPort d host b p.
Proof.
  unfold matchDomainPort.
  destruct (splitLastColon host) as [[h p]|] eqn:Hs; [|discriminate].
  apply splitLastColon_eq in Hs as ->.
  destruct p as [|a p]; [discriminate|].
  unfold allDigits. destruct (allIn Digit (String a p)) eqn:Hd; [|discriminate].
  unfold matchDomain.
  destruct (stripSuffix ("." +:+ d) h) as [b'|] eqn:Hh; [|discriminate].
  intros Hb. apply nonEmpty_Some in Hb as [-> Hb].
  apply stripSuffix_eq in Hh as ->.
  exists (String a p). unfold hostWithPort. rewrite colon_assoc. auto.
Qed.

Lemma hostPortRe_sound d req r :
  regexpCaptures (hostPortRe d) req = Some r ->
  exists b p, hostWithPort d (reqHost req) b p /\ r = [("bucket", b); ("port", p)].
Proof.
  unfold regexpCaptures, regexpSubject.
  cbn [hostPortRe regexpTyp pieces anchored]. set (host := reqHost req).
  change (matchPieces (Lit EmptyString :: ?ps) true host) with (matchPieces ps true host).
  cbn [matchPieces]. intros Hr.
  apply rep_sound in Hr as (x & y & vs & Hh & _ & Hk & Hp & ->).
  destruct (stripPrefix ("." +:+ d +:+ ":") y) as [p|] eqn:Hy; [|discriminate].
  apply stripPrefix_eq in Hy as ->.
  rewrite (rep_to_end _ _ _ _ _ onlyEmpty_lit) in Hk. cbn [negb orb] in Hk.
  destruct (allIn Digit p) eqn:Hd; [|discriminate].
  destruct (isEmpty p) eqn:He; [discriminate|].
  injection Hk as <-. rewrite app_nil_l_str in *.
  exists x, p. unfold hostWithPort. auto.
Qed.

Lemma hostPortRe_complete d req b p :
  hostWithPort d (reqHost req) b p ->
  exists r, regexpCaptures (hostPortRe d) req = Some r.
Proof.
  intros (Hh & Hb & Hp & Hd).
  unfold regexpCaptures, regexpSubject.
  cbn [hostPortRe regexpTyp pieces anchored]. rewrite Hh.
  change (matchPieces (Lit EmptyString :: ?ps) true ?s) with (matchPieces ps true s).
  cbn [matchPieces].
  eapply rep_complete; [apply allIn_any| |now rewrite app_nil_l_str].
  rewrite stripPrefix_app, (rep_to_end _ _ _ _ _ onlyEmpty_lit), Hd, Hp.
  reflexivity.
Qed.

Lemma hostPortRe_captures d req :
  match matchDomainPort d (reqHost req) with
  | Some b => exists p,
      regexpCaptures (hostPortRe d) req = Some [("bucket", b); ("port", p)]
  | None => regexpCaptures (hostPortRe d) req = None
  end.
Proof.
  destruct (matchDomainPort d (reqHost req)) as [b|] eqn:Hm.
  - destruct (matchDomainPort_sound _ _ _ Hm) as [p Hw].
    destruct (hostPortRe_complete _ _ _ _ Hw) as [r Hr].
    destruct (hostPortRe_sound _ _ _ Hr) as (b' & p' & Hw' & ->).
    apply matchDomainPort_complete in Hw'. rewrite Hm in Hw'.
    injection Hw' as <-. eauto.
  - destruct (regexpCaptures (hostPortRe d) req) as [r|] eqn:Hr; [|reflexivity].
    destruct (hostPortRe_sound _ _ _ Hr) as (b' & p' & Hw' & _).
    apply matchDomainPort_complete in Hw'. congruence.
Qed.

(** * The rules, evaluated on a request *)

Lemma forallb_map_matchers req (qs : list routeRegexp) :
  forallb (fun m => matcher_Match m req) (map regexpMatcher qs)
  = forallb (fun q => matcher_Match (regexpMatcher q) req) qs.
Proof. induction qs as [|q qs IH]; [reflexivity|]. cbn [map forallb]. now rewrite IH. Qed.

Lemma ownOK_objectRule obj req m n hd qs h :
  ownOK req (objectRule obj m n hd qs h) =
  (m =? reqMethod req)%string &&
  (matcher_Match (regexpMatcher (obj n)) req &&
   (forallb (fun x => matcher_Match x req) hd &&
    forallb (fun q => matcher_Match (regexpMatcher q) req) qs)).
Proof.
  unfold ownOK, objectRule. cbn [ruleErr ruleOwn negb andb app forallb].
  rewrite method_match, forallb_app, forallb_map_matchers. reflexivity.
Qed.

Lemma ownOK_bucketRule inh req m qs h :
  ownOK req (bucketRule inh m qs h) =
  (m =? reqMethod req)%string &&
  forallb (fun q => matcher_Match (regexpMatcher q) req) qs.
Proof.
  unfold ownOK, bucketRule. cbn [ruleErr ruleOwn negb andb forallb].
  rewrite method_match, forallb_map_matchers. reflexivity.
Qed.

Lemma copySource_match req :
  matcher_Match copySourceMatcher req = copySource req.
Proof.
  unfold matcher_Match, copySourceMatcher, copySource. cbn [forallb fst snd].
  rewrite andb_true_r.
  induction (headerValues HeaderNameCopySource (reqHeader req)) as [|v vs IH];
    [reflexivity|].
  cbn [existsb headerRegexpMatch]. now rewrite IH, orb_false_r.
Qed.

Lemma v2_queries req :
  forallb (fun q => matcher_Match (regexpMatcher q) req)
    [ qVar "AWSAccessKeyId" "accessKey" AnyChar true;
      qVar "Expires" "expires" Digit true;
      qVar "Signature" "signature" AnyChar true ]
  = presignedV2 req.
Proof.
  cbn [forallb]. rewrite !qVar_match by reflexivity.
  unfold presignedV2. now rewrite andb_true_r, andb_assoc.
Qed.

Lemma v4_queries req :
  forallb (fun q => matcher_Match (regexpMatcher q) req)
    [ qVar "X-Amz-Credential" "creadential" AnyChar true;
      qVar "X-Amz-Algorithm" "algorithm" AnyChar true;
      qVar "X-Amz-Signature" "signature" AnyChar true;
      qVar "X-Amz-Date" "date" AnyChar true;
      qVar "X-Amz-SignedHeaders" "signedHeaders" AnyChar true;
      qVar "X-Amz-Expires" "expires" Digit true ]
  = presignedV4 req.
Proof.
  cbn [forallb]. rewrite !qVar_match by reflexivity.
  unfold presignedV4. now rewrite andb_true_r, !andb_assoc.
Qed.

Lemma uploadPart_queries req :
  forallb (fun q => matcher_Match (regexpMatcher q) req)
    [ qVar "partNumber" "partNumber" Digit true;
      qVar "uploadId" "uploadId" AnyChar false ]
  = uploadPartQuery req.
Proof.
  cbn [forallb]. rewrite !qVar_match by reflexivity.
  unfold uploadPartQuery. now rewrite andb_true_r.
Qed.

Lemma present_queries k req :
  keyOK k = true ->
  forallb (fun q => matcher_Match (regexpMatcher q) req) [ qPresent k ]
  = hasKey k req.
Proof. intros Hk. cbn [forallb]. now rewrite (qPresent_match _ _ Hk), andb_true_r. Qed.

Lemma xattrKey_queries req :
  forallb (fun q => matcher_Match (regexpMatcher q) req)
    [ qPresent "xattr"; qVar "key" "key" AnyChar true ]
  = hasKey "xattr" req && hasValue "key" AnyChar true req.
Proof.
  cbn [forallb]. rewrite qPresent_match, qVar_match by reflexivity.
  now rewrite andb_true_r.
Qed.

Lemma uploadId_queries req :
  forallb (fun q => matcher_Match (regexpMatcher q) req)
    [ qVar "uploadId" "uploadId" AnyChar false ]
  = hasKey "uploadId" req.
Proof.
  cbn [forallb]. rewrite qVar_match by reflexivity. rewrite andb_true_r.
  unfold hasValue, hasKey. destruct (queryFirst "uploadId" (reqQuery req)); [|reflexivity].
  now rewrite allIn_any.
Qed.

Lemma find_skip {A} (f : A -> bool) x l :
  f x = false -> find f (x :: l) = find f l.
Proof. intros H. cbn [find]. now rewrite H. Qed.

Lemma find_here {A} (f : A -> bool) x l :
  f x = true -> find f (x :: l) = Some x.
Proof. intros H. cbn [find]. now rewrite H. Qed.

(** Rewriting the test of a rule into the predicates of the request. *)
Ltac rule_test :=
  rewrite ?ownOK_objectRule, ?ownOK_bucketRule;
  rewrite ?v2_queries, ?v4_queries, ?uploadPart_queries, ?xattrKey_queries,
    ?uploadId_queries, ?copySource_match;
  rewrite ?present_queries by reflexivity;
  cbn [forallb]; rewrite ?copySource_match.

Ltac use_hyps :=
  repeat match goal with
         | H : forall n, matcher_Match _ _ = _ |- _ => rewrite !H
         | H : _ = _ |- _ => rewrite H
         end.

Ltac skip_rule :=
  rewrite find_skip;
  [| rule_test;
     first [ reflexivity
           | use_hyps; cbn [andb orb negb]; rewrite ?andb_false_r; reflexivity ] ].

Ltac take_rule :=
  rewrite find_here; [| rule_test; use_hyps; reflexivity ].

Section Selection.
Variable inh : routeRegexp.
Variable obj : string -> routeRegexp.
Variable req : Request.

(** The request is object-level for the router. *)
Hypothesis Hobj : forall n, matcher_Match (regexpMatcher (obj n)) req = true.

Lemma find_get_v2 :
  reqMethod req = MethodGet -> presignedV2 req = true ->
  exists ru, find (ownOK req) (rulesView inh obj) = Some ru /\
             ruleHandler ru = Some (policyCheck getObjectHandler [ListBucketAction]).
Proof.
  intros Hm H2. unfold rulesView, MethodGet in *.
  do 2 skip_rule. take_rule. eauto.
Qed.

Lemma find_get_v4 :
  reqMethod req = MethodGet -> presignedV2 req = false ->
  presignedV4 req = true ->
  exists ru, find (ownOK req) (rulesView inh obj) = Some ru /\
             ruleHandler ru = Some (policyCheck getObjectHandler [ListBucketAction]).
Proof.
  intros Hm H2 H4. unfold rulesView, MethodGet in *.
  do 3 skip_rule. take_rule. eauto.
Qed.

Lemma find_get_tagging :
  reqMethod req = MethodGet ->
  presignedV2 req = false -> presignedV4 req = false ->
  hasKey "tagging" req = true ->
  exists ru, find (ownOK req) (rulesView inh obj) = Some ru /\
             ruleHandler ru =
             Some (policyCheck getObjectTagging [GetBucketPolicyAction]).
Proof.
  intros Hm H2 H4 Ht. unfold rulesView, MethodGet in *.
  do 4 skip_rule. take_rule. eauto.
Qed.

Lemma find_get_acl :
  reqMethod req = MethodGet ->
  presignedV2 req = false -> presignedV4 req = false ->
  hasKey "tagging" req = false -> hasKey "xattr" req = false ->
  hasKey "acl" req = true ->
  exists ru, find (ownOK req) (rulesView inh obj) = Some ru /\
             ruleHandler ru =
             Some (policyCheck getObjectACLHandler [GetObjectAclAction]).
Proof.
  intros Hm H2 H4 Ht Hx Ha. unfold rulesView, MethodGet in *.
  do 7 skip_rule. take_rule. eauto.
Qed.

Lemma find_get_plain :
  reqMethod req = MethodGet ->
  presignedV2 req = false -> presignedV4 req = false ->
  hasKey "tagging" req = false -> hasKey "xattr" req = false ->
  hasKey "acl" req = false ->
  exists ru, find (ownOK req) (rulesView inh obj) = Some ru /\
             ruleHandler ru = Some (policyCheck getObjectHandler [GetObjectAction]).
Proof.
  intros Hm H2 H4 Ht Hx Ha. unfold rulesView, MethodGet in *.
  do 8 skip_rule. take_rule. eauto.
Qed.

Lemma find_put_uploadPart :
  reqMethod req = MethodPut -> uploadPartQuery req = true ->
  exists ru, find (ownOK req) (rulesView inh obj) = Some ru /\
             ruleHandler ru = Some (policyCheck uploadPartHandler [PutObjectAction]).
Proof.
  intros Hm Hu. unfold rulesView, MethodPut in *.
  do 19 skip_rule. take_rule. eauto.
Qed.

Lemma find_put_copy :
  reqMethod req = MethodPut -> uploadPartQuery req = false ->
  copySource req = true ->
  exists ru, find (ownOK req) (rulesView inh obj) = Some ru /\
             ruleHandler ru = Some (policyCheck copyObjectHandler [PutObjectAction]).
Proof.
  intros Hm Hu Hc. unfold rulesView, MethodPut in *.
  do 20 skip_rule. take_rule. eauto.
Qed.

Lemma find_put_tagging :
  reqMethod req = MethodPut -> uploadPartQuery req = false ->
  copySource req = false -> hasKey "tagging" req = true ->
  exists ru, find (ownOK req) (rulesView inh obj) = Some ru /\
             ruleHandler ru =
             Some (policyCheck putObjectTagging [PutBucketPolicyAction]).
Proof.
  intros Hm Hu Hc Ht. unfold rulesView, MethodPut in *.
  do 21 skip_rule. take_rule. eauto.
Qed.

Lemma find_put_plain :
  reqMethod req = MethodPut -> uploadPartQuery req = false ->
  copySource req = false -> hasKey "tagging" req = false ->
  hasKey "xattr" req = false -> hasKey "acl" req = false ->
  exists ru, find (ownOK req) (rulesView inh obj) = Some ru /\
             ruleHandler ru = Some (policyCheck putObjectHandler [PutObjectAction]).
Proof.
  intros Hm Hu Hc Ht Hx Ha. unfold rulesView, MethodPut in *.
  do 24 skip_rule. take_rule. eauto.
Qed.

Lemma find_delete :
  reqMethod req = MethodDelete -> hasKey "uploadId" req = false ->
  exists ru, find (ownOK req) (rulesView inh obj) = Some ru /\
             ruleHandler ru =
             Some (policyCheck deleteObjectHandler [DeleteObjectAction]).
Proof.
  intros Hm Hu. unfold rulesView, MethodDelete in *.
  do 30 skip_rule. take_rule. eauto.
Qed.

Lemma find_delete_abort :
  reqMethod req = MethodDelete -> hasKey "uploadId" req = true ->
  exists ru, find (ownOK req) (rulesView inh obj) = Some ru /\
             ruleHandler ru =
             Some (policyCheck abortMultipartUploadHandler
                     [AbortMultipartUploadAction]).
Proof.
  intros Hm Hu. unfold rulesView, MethodDelete in *.
  do 27 skip_rule. take_rule. eauto.
Qed.
End Selection.

(** * The resolver and the bucket routers *)

Lemma regexp_match rr req :
  matcher_Match (regexpMatcher rr) req = isSome (regexpCaptures rr req).
Proof. reflexivity. Qed.

Lemma preOK_kind k req : preOK (kindConf k) req = isSome (kindAddress k req).
Proof.
  unfold preOK, kindAddress.
  destruct k as [d|d|]; cbn [kindConf hostConf pathConf matchers forallb];
    rewrite !regexp_match, rootPrefix_captures.
  - rewrite hostRe_captures.
    destruct (stripPrefix "/" (reqPath req)); [|reflexivity].
    now destruct (matchDomain d (reqHost req)).
  - pose proof (hostPortRe_captures d req) as H.
    destruct (stripPrefix "/" (reqPath req)); [|reflexivity].
    destruct (matchDomainPort d (reqHost req)).
    + destruct H as [p ->]. reflexivity.
    + rewrite H. reflexivity.
  - rewrite bucketPrefix_captures.
    destruct (stripPrefix "/" (reqPath req)) as [rest|]; [|reflexivity].
    now destruct (takeRun NotSlash rest).
Qed.

Lemma kindRules_view k : kindRules k = rulesView (kindInh k) (kindObj k).
Proof. destruct k; reflexivity. Qed.

Lemma objOK_kind k req addr n :
  kindAddress k req = Some addr ->
  matcher_Match (regexpMatcher (kindObj k n)) req = isSome (objectKey addr).
Proof.
  unfold kindAddress. rewrite regexp_match.
  destruct k as [d|d|]; cbn [kindObj];
    rewrite ?objectPathHost_captures, ?objectPathStyle_captures;
    destruct (stripPrefix "/" (reqPath req)) as [rest|]; try discriminate.
  - destruct (matchDomain d (reqHost req)); [|discriminate].
    intros [= <-]. cbn [objectKey]. now destruct rest.
  - destruct (matchDomainPort d (reqHost req)); [|discriminate].
    intros [= <-]. cbn [objectKey]. now destruct rest.
  - destruct (takeRun NotSlash rest); [discriminate|]. cbn [nonEmpty isEmpty].
    intros [= <-]. cbn [objectKey]. now destruct (keyAfter rest).
Qed.

Lemma resolve_path ds host path rest :
  stripPrefix "/" path = Some rest ->
  resolve ds host path =
  match virtualBucket ds host with
  | Some b => Some {| bucketName := b; objectKey := nonEmpty rest;
                      addressing := virtualHosted |}
  | None =>
      match nonEmpty (takeRun NotSlash rest) with
      | Some seg => Some {| bucketName := seg; objectKey := keyAfter rest;
                            addressing := pathStyle |}
      | None => None
      end
  end.
Proof.
  intros H. unfold resolve. rewrite H.
  destruct (virtualBucket ds host); [reflexivity|].
  rewrite splitN2_slash. unfold keyAfter.
  destruct (takeRun NotSlash rest); [reflexivity|]. cbn [nonEmpty].
  now destruct (dropRun NotSlash rest).
Qed.

(** The resolver of the specification picks the address of the first bucket
    router that accepts the request. *)
Lemma resolve_kinds ds req :
  resolve ds (reqHost req) (reqPath req) =
  match firstPre (kinds ds) req with
  | Some k => kindAddress k req
  | None => None
  end.
Proof.
  destruct (stripPrefix "/" (reqPath req)) as [rest|] eqn:Hp.
  - rewrite (resolve_path _ _ _ _ Hp).
    induction ds as [|d ds IH].
    + cbn [virtualBucket kinds flat_map app firstPre].
      rewrite preOK_kind. unfold kindAddress. rewrite Hp.
      now destruct (nonEmpty (takeRun NotSlash rest)).
    + cbn [virtualBucket]. change (kinds (d :: ds))
        with (viaHost d :: viaHostPort d :: kinds ds).
      cbn [firstPre]. rewrite !preOK_kind.
      assert (Hh : kindAddress (viaHost d) req =
                   match matchDomain d (reqHost req) with
                   | Some b => Some {| bucketName := b; objectKey := nonEmpty rest;
                                       addressing := virtualHosted |}
                   | None => None
                   end) by (unfold kindAddress; now rewrite Hp).
      assert (Hhp : kindAddress (viaHostPort d) req =
                    match matchDomainPort d (reqHost req) with
                    | Some b => Some {| bucketName := b; objectKey := nonEmpty rest;
                                        addressing := virtualHosted |}
                    | None => None
                    end) by (unfold kindAddress; now rewrite Hp).
      destruct (matchDomain d (reqHost req)).
      { rewrite Hh. cbn [isSome]. now rewrite Hh. }
      rewrite Hh. cbn [isSome].
      destruct (matchDomainPort d (reqHost req)).
      { rewrite Hhp. cbn [isSome]. now rewrite Hhp. }
      rewrite Hhp. cbn [isSome]. exact IH.
  - unfold resolve. rewrite Hp.
    destruct (firstPre (kinds ds) req); [|reflexivity].
    unfold kindAddress. now rewrite Hp.
Qed.

Lemma firstSelected_at ks req k ru :
  firstPre ks req = Some k -> selected k req = Some ru ->
  firstSelected ks req = Some (k, ru).
Proof.
  induction ks as [|k0 ks IH]; cbn [firstPre firstSelected]; [discriminate|].
  destruct (preOK (kindConf k0) req) eqn:Hpre.
  - intros [= ->] ->. reflexivity.
  - intros Hk Hs. unfold selected at 1. rewrite Hpre. auto.
Qed.

Lemma firstPre_preOK ks req k :
  firstPre ks req = Some k -> preOK (kindConf k) req = true.
Proof.
  induction ks as [|k0 ks IH]; cbn [firstPre]; [discriminate|].
  destruct (preOK (kindConf k0) req) eqn:Hpre; [|exact IH].
  now intros [= <-].
Qed.

(** A request is served by the rule its bucket router selects. *)
Lemma selects ds req k ru h :
  forallb plainDomain ds = true ->
  firstPre (kinds ds) req = Some k ->
  find (ownOK req) (kindRules k) = Some ru ->
  ruleHandler ru = Some h ->
  handle ds req = serveHandler h (routeVars k ru req).
Proof.
  intros Hp Hk Hf Hh. rewrite (handle_spec _ _ Hp).
  rewrite (firstSelected_at _ _ k ru Hk), Hh; [reflexivity|].
  unfold selected. now rewrite (firstPre_preOK _ _ _ Hk).
Qed.

(** A request the resolver addresses to an object is served by the rule
    the table selects among the object-level rules, whichever bucket router
    takes it. *)
Lemma object_dispatch ds req addr key h :
  forallb plainDomain ds = true ->
  resolve ds (reqHost req) (reqPath req) = Some addr ->
  objectKey addr = Some key ->
  (forall inh obj,
     (forall n, matcher_Match (regexpMatcher (obj n)) req = true) ->
     exists ru, find (ownOK req) (rulesView inh obj) = Some ru /\
                ruleHandler ru = Some h) ->
  exists vars, handle ds req = serveHandler h vars.
Proof.
  intros Hp Hr Hkey Hfind. rewrite resolve_kinds in Hr.
  destruct (firstPre (kinds ds) req) as [k|] eqn:Hk; [|discriminate].
  destruct (Hfind (kindInh k) (kindObj k)) as (ru & Hf & Hh).
  { intros n. rewrite (objOK_kind _ _ _ n Hr), Hkey. reflexivity. }
  rewrite <- kindRules_view in Hf.
  eexists. eapply selects; eassumption.
Qed.

(** * Selection among the rules of an object *)

Lemma route_served ds req hf vars :
  handle ds req = serveHandler hf vars ->
  hf <> bare unsupportedOperationHandler ->
  route ds req = routed hf.
Proof.
  unfold route. intros -> Hne. destruct hf as [f|f a]; [|reflexivity].
  destruct f; try reflexivity. now destruct Hne.
Qed.

Lemma object_route ds req addr key h :
  forallb plainDomain ds = true ->
  resolve ds (reqHost req) (reqPath req) = Some addr ->
  objectKey addr = Some key ->
  h <> bare unsupportedOperationHandler ->
  (forall inh obj,
     (forall n, matcher_Match (regexpMatcher (obj n)) req = true) ->
     exists ru, find (ownOK req) (rulesView inh obj) = Some ru /\
                ruleHandler ru = Some h) ->
  route ds req = routed h.
Proof.
  intros Hp Hr Hk Hne Hf.
  destruct (object_dispatch _ _ _ _ _ Hp Hr Hk Hf) as [vars Hh].
  eapply route_served; eassumption.
Qed.

(** C3, at the failing input: a DELETE to an object with the query key
    [tagging] is routed to the plain delete-object handler; the
    delete-object-tagging route, whose path template has no closing brace,
    is never selected. *)
Theorem delete_tagging_routed_to_delete_object :
  hasKey "tagging" deleteTaggingRequest = true /\
  option_map objectKey
    (resolve sampleDomains (reqHost deleteTaggingRequest)
       (reqPath deleteTaggingRequest)) = Some (Some "photos/a.jpg") /\
  route sampleDomains deleteTaggingRequest
  = routed (policyCheck deleteObjectHandler [DeleteObjectAction]).
Proof. repeat split; vm_compute; reflexivity. Qed.

(** The same for every DELETE to an object without an upload id. *)
Lemma delete_object_selected ds req addr key :
  forallb plainDomain ds = true ->
  reqMethod req = MethodDelete ->
  resolve ds (reqHost req) (reqPath req) = Some addr ->
  objectKey addr = Some key ->
  hasKey "uploadId" req = false ->
  route ds req = routed (policyCheck deleteObjectHandler [DeleteObjectAction]).
Proof.
  intros Hp Hm Hr Hk Hu.
  eapply object_route; try eassumption; [discriminate|].
  intros inh obj Hobj. now apply find_delete.
Qed.

(** With an upload id, a DELETE to an object is routed to
    abort-multipart-upload, the first DELETE route. *)
Lemma abort_multipart_selected ds req addr key :
  forallb plainDomain ds = true ->
  reqMethod req = MethodDelete ->
  resolve ds (reqHost req) (reqPath req) = Some addr ->
  objectKey addr = Some key ->
  hasKey "uploadId" req = true ->
  route ds req
  = routed (policyCheck abortMultipartUploadHandler [AbortMultipartUploadAction]).
Proof.
  intros Hp Hm Hr Hk Hu.
  eapply object_route; try eassumption; [discriminate|].
  intros inh obj Hobj. now apply find_delete_abort.
Qed.

(** A GET to an object with the query key [acl], and neither a pre-signed
    parameter set nor the keys [tagging] and [xattr], is routed to
    get-object-acl. *)
Lemma get_acl_selected ds req addr key :
  forallb plainDomain ds = true ->
  reqMethod req = MethodGet ->
  resolve ds (reqHost req) (reqPath req) = Some addr ->
  objectKey addr = Some key ->
  presignedV2 req = false -> presignedV4 req = false ->
  hasKey "tagging" req = false -> hasKey "xattr" req = false ->
  hasKey "acl" req = true ->
  route ds req = routed getObjectACL.
Proof.
  intros Hp Hm Hr Hk H2 H4 Ht Hx Ha.
  eapply object_route; try eassumption; [discriminate|].
  intros inh obj Hobj. now apply find_get_acl.
Qed.

(** A PUT to an object with the parameters of an upload-part request is
    routed to upload-part, with or without a copy-source header. *)
Lemma upload_part_selected ds req addr key :
  forallb plainDomain ds = true ->
  reqMethod req = MethodPut ->
  resolve ds (reqHost req) (reqPath req) = Some addr ->
  objectKey addr = Some key ->
  uploadPartQuery req = true ->
  route ds req = routed (policyCheck uploadPartHandler [PutObjectAction]).
Proof.
  intros Hp Hm Hr Hk Hu.
  eapply object_route; try eassumption; [discriminate|].
  intros inh obj Hobj. now apply find_put_uploadPart.
Qed.











(** * The rules of the table *)

Lemma leaves_leafOf c ru : leaves (leafOf c ru) = [leafOf c ru].
Proof. reflexivity. Qed.

Lemma leaves_leafOfs c rules :
  flat_map leaves (map (leafOf c) rules) = map (leafOf c) rules.
Proof.
  induction rules as [|ru rules IH]; [reflexivity|].
  cbn [map flat_map]. rewrite IH. reflexivity.
Qed.

Lemma leaves_kindRoute k :
  leaves (kindRoute k) = map (leafOf (kindConf k)) (kindRules k).
Proof.
  unfold kindRoute, Subrouter, NewRoute. cbn [leaves conf handler err].
  rewrite bucketRoutes_kind. apply leaves_leafOfs.
Qed.

Lemma leaves_table ds :
  forallb plainDomain ds = true ->
  flat_map leaves (routes (registerApiRouters ds)) =
  flat_map (fun k => map (leafOf (kindConf k)) (kindRules k)) (kinds ds)
  ++ [listBucketsRoute].
Proof.
  intros Hp. rewrite registerApiRouters_routes. cbn [flat_map].
  rewrite app_nil_r. f_equal.
  unfold bRoute, Subrouter, NewRoute. cbn [leaves conf handler err].
  rewrite (bucketRouters_plain _ Hp).
  induction (kinds ds) as [|k ks IH]; [reflexivity|].
  cbn [map flat_map]. now rewrite IH, leaves_kindRoute.
Qed.

Lemma firstSelected_In ks req k ru :
  firstSelected ks req = Some (k, ru) ->
  In k ks /\ In ru (kindRules k) /\
  preOK (kindConf k) req = true /\ ownOK req ru = true.
Proof.
  induction ks as [|k0 ks IH]; cbn [firstSelected]; [discriminate|].
  destruct (selected k0 req) as [ru0|] eqn:Hs.
  - intros [= <- <-]. unfold selected in Hs.
    destruct (preOK (kindConf k0) req); [|discriminate].
    apply find_some in Hs as [Hin Hown]. cbn [In]. auto.
  - intros H. destruct (IH H) as (Hk & Hr). cbn [In]. auto.
Qed.

Lemma ownOK_err req ru : ownOK req ru = true -> ruleErr ru = false.
Proof. unfold ownOK. now destruct (ruleErr ru). Qed.

Lemma selected_in_table ds req k ru :
  forallb plainDomain ds = true ->
  firstSelected (kinds ds) req = Some (k, ru) ->
  In (leafOf (kindConf k) ru) (tableRules ds) /\
  routePasses req (leafOf (kindConf k) ru) = true.
Proof.
  intros Hp Hf. apply firstSelected_In in Hf as (Hk & Hr & Hpre & Hown).
  split.
  - unfold tableRules. apply filter_In. split.
    + rewrite (leaves_table _ Hp). apply in_or_app. left.
      apply in_flat_map. exists k. split; [assumption|]. now apply in_map.
    + cbn [leafOf err]. now rewrite (ownOK_err _ _ Hown).
  - unfold routePasses. cbn [leafOf err conf matchers].
    rewrite forallb_app. unfold ownOK, preOK in *.
    apply andb_true_iff in Hown as [-> Hown]. now rewrite Hpre, Hown.
Qed.

Lemma listBuckets_in_table ds :
  forallb plainDomain ds = true -> In listBucketsRoute (tableRules ds).
Proof.
  intros Hp. unfold tableRules. apply filter_In. split; [|reflexivity].
  rewrite (leaves_table _ Hp). apply in_or_app. right. now left.
Qed.

Lemma routePasses_shape req r :
  routePasses req r = true -> shapeOK req r = true /\ methodOK req r = true.
Proof.
  unfold routePasses, shapeOK, methodOK. intros H.
  apply andb_true_iff in H as [_ H].
  induction (matchers (conf r)) as [|m ms IH]; [auto|].
  cbn [forallb] in *. apply andb_true_iff in H as [-> H].
  destruct (IH H) as [-> ->]. now rewrite !orb_true_r.
Qed.

(** Every rule of a bucket router that recorded no error has a handler,
    which is gated by one action or is one of the xattr handlers, and is
    not the not-found handler. *)
Lemma rules_handlers k ru :
  In ru (kindRules k) -> ruleErr ru = false ->
  exists hf, ruleHandler ru = Some hf /\
             hf <> bare unsupportedOperationHandler /\
             (gated hf = true \/ In hf xattrHandlers).
Proof.
  intros Hin He.
  assert (Hall : forall rules,
    forallb (fun ru => ruleErr ru ||
               match ruleHandler ru with
               | Some hf =>
                   negb (bool_decide (hf = bare unsupportedOperationHandler)) &&
                   (gated hf || bool_decide (In hf xattrHandlers))
               | None => false
               end) rules = true ->
    In ru rules ->
    exists hf, ruleHandler ru = Some hf /\
               hf <> bare unsupportedOperationHandler /\
               (gated hf = true \/ In hf xattrHandlers)).
  { intros rules Hf Hr. rewrite forallb_forall in Hf. specialize (Hf _ Hr).
    rewrite He in Hf. cbn [orb] in Hf.
    destruct (ruleHandler ru) as [hf|]; [|discriminate].
    apply andb_true_iff in Hf as [Hn Hg]. exists hf. split; [reflexivity|].
    apply negb_true_iff, bool_decide_eq_false in Hn. split; [exact Hn|].
    apply orb_true_iff in Hg as [Hg|Hg]; [now left|].
    right. now apply bool_decide_eq_true in Hg. }
  destruct k; cbn [kindRules] in Hin;
    (eapply Hall; [|exact Hin]); vm_compute; reflexivity.
Qed.

(** What [route] gives: the handler of a rule of the table or
    MethodNotAllowed, never RouteNotFound. *)
Lemma route_spec ds req :
  forallb plainDomain ds = true ->
  match firstSelected (kinds ds) req with
  | Some (k, ru) =>
      exists hf, ruleHandler ru = Some hf /\ route ds req = routed hf /\
                 handle ds req = serveHandler hf (routeVars k ru req) /\
                 (gated hf = true \/ In hf xattrHandlers)
  | None =>
      route ds req =
      if (MethodGet =? reqMethod req)%string
      then routed (policyCheck listBucketsHandler [ListBucketAction])
      else methodNotAllowed
  end.
Proof.
  intros Hp. unfold route. rewrite (handle_spec _ _ Hp).
  destruct (firstSelected (kinds ds) req) as [[k ru]|] eqn:Hf.
  - apply firstSelected_In in Hf as (_ & Hr & _ & Hown).
    destruct (rules_handlers _ _ Hr (ownOK_err _ _ Hown)) as (hf & Hh & Hne & Hg).
    exists hf. rewrite Hh. repeat split; try assumption.
    destruct hf as [f|f a]; [|reflexivity]. destruct f; try reflexivity.
    now destruct Hne.
  - now destruct (MethodGet =? reqMethod req)%string.
Qed.

(** C2: a request that matches the shape of rules of other methods only is
    answered MethodNotAllowed, which is not RouteNotFound; and
    RouteNotFound is given only when the request matches the shape of no
    rule. *)
Theorem method_not_allowed ds req :
  forallb plainDomain ds = true ->
  (otherMethodsOnly ds req = true -> route ds req = methodNotAllowed) /\
  methodNotAllowed <> routeNotFound /\
  (route ds req = routeNotFound ->
   forall r, In r (tableRules ds) -> shapeOK req r = false).
Proof.
  intros Hp. pose proof (route_spec ds req Hp) as Hs.
  split; [|split; [discriminate|]].
  - intros Ho. unfold otherMethodsOnly in Ho. rewrite forallb_forall in Ho.
    destruct (firstSelected (kinds ds) req) as [[k ru]|] eqn:Hf.
    + destruct (selected_in_table _ _ _ _ Hp Hf) as [Hin Hpass].
      apply routePasses_shape in Hpass as [Hshape Hmeth].
      specialize (Ho _ Hin). rewrite Hshape, Hmeth in Ho. discriminate.
    + specialize (Ho _ (listBuckets_in_table _ Hp)).
      unfold shapeOK, methodOK, listBucketsRoute in Ho.
      cbn [conf matchers forallb isShapeMatcher isMethodMatcher negb orb implb andb] in Ho.
      rewrite method_match, andb_true_r in Ho.
      apply negb_true_iff in Ho. now rewrite Ho in Hs.
  - intros Hr. destruct (firstSelected (kinds ds) req) as [[k ru]|].
    + destruct Hs as (hf & _ & Hs & _). congruence.
    + rewrite Hs in Hr.
      destruct (MethodGet =? reqMethod req)%string; discriminate.
Qed.

Lemma method_not_allowed_witness :
  route sampleDomains patchRequest = methodNotAllowed.
Proof.
  apply (proj1 (method_not_allowed sampleDomains patchRequest eq_refl)).
  vm_compute. reflexivity.
Defined.






(** * Captured variables *)

Lemma capture_fst name v vs :
  map fst (capture name v vs) =
  match name with Some n => n :: map fst vs | None => map fst vs end.
Proof. now destruct name. Qed.

Lemma capture_names ps anch : forall s caps,
  matchPieces ps anch s = Some caps ->
  map fst caps = concat (map pieceName ps).
Proof.
  induction ps as [|p ps IH]; intros s caps; cbn [matchPieces].
  - destruct anch; [destruct s|]; intros [= <-]; reflexivity.
  - destruct p as [l|name c plus].
    + destruct (stripPrefix l s); [|discriminate]. apply IH.
    + intros H. apply rep_sound in H as (x & y & vs & _ & _ & Hk & _ & ->).
      rewrite capture_fst, (IH _ _ Hk). now destruct name.
Qed.

Lemma regexpCaptures_names rr req caps :
  regexpCaptures rr req = Some caps -> map fst caps = regexpNames rr.
Proof. apply capture_names. Qed.

Lemma nameIn_In n l : nameIn n l = true <-> In n l.
Proof.
  unfold nameIn. rewrite existsb_exists. split.
  - intros (x & Hx & He). apply String.eqb_eq in He. now subst.
  - intros H. exists n. split; [assumption|apply String.eqb_refl].
Qed.

Lemma nameIn_app n l1 l2 : nameIn n (l1 ++ l2) = nameIn n l1 || nameIn n l2.
Proof. apply existsb_app. Qed.

Lemma extractVars_notin caps : forall (vars : gmap string string) n,
  nameIn n (map fst caps) = false -> extractVars caps vars !! n = vars !! n.
Proof.
  unfold extractVars.
  induction caps as [|[k v] caps IH]; intros vars n; cbn [map fold_left fst snd];
    [reflexivity|].
  unfold nameIn. cbn [existsb]. intros H. apply orb_false_iff in H as [Hk H].
  rewrite (IH _ _ H). apply lookup_insert_ne. intros ->.
  now rewrite String.eqb_refl in Hk.
Qed.

Lemma extractVars_in caps : forall (vars : gmap string string) n,
  nameIn n (map fst caps) = true -> is_Some (extractVars caps vars !! n).
Proof.
  unfold extractVars.
  induction caps as [|[k v] caps IH]; intros vars n; cbn [map fold_left fst snd];
    [discriminate|].
  destruct (nameIn n (map fst caps)) eqn:Hn; [intros _; now apply IH|].
  unfold nameIn. cbn [existsb]. fold (nameIn n (map fst caps)). rewrite Hn, orb_false_r.
  intros He. apply String.eqb_eq in He as ->.
  fold (extractVars caps (<[k:=v]> vars)).
  rewrite (extractVars_notin _ _ _ Hn), lookup_insert_eq. eauto.
Qed.

Lemma setRegexpVars_notin req (vars : gmap string string) rr n :
  nameIn n (regexpNames rr) = false -> setRegexpVars req vars rr !! n = vars !! n.
Proof.
  intros H. unfold setRegexpVars.
  destruct (regexpCaptures rr req) as [caps|] eqn:Hc; [|reflexivity].
  apply extractVars_notin. now rewrite (regexpCaptures_names _ _ _ Hc).
Qed.

Lemma setRegexpVars_in req (vars : gmap string string) rr n :
  matcher_Match (regexpMatcher rr) req = true ->
  nameIn n (regexpNames rr) = true ->
  is_Some (setRegexpVars req vars rr !! n).
Proof.
  rewrite regexp_match. intros Hm H. unfold setRegexpVars.
  destruct (regexpCaptures rr req) as [caps|] eqn:Hc; [|discriminate].
  apply extractVars_in. now rewrite (regexpCaptures_names _ _ _ Hc).
Qed.

Lemma queriesVars_notin req qs : forall (vars : gmap string string) n,
  nameIn n (concat (map regexpNames qs)) = false ->
  fold_left (setRegexpVars req) qs vars !! n = vars !! n.
Proof.
  induction qs as [|q qs IH]; intros vars n; cbn [map concat fold_left];
    [reflexivity|].
  rewrite nameIn_app. intros H. apply orb_false_iff in H as [Hq H].
  rewrite (IH _ _ H). now apply setRegexpVars_notin.
Qed.

Lemma optVars_notin req (vars : gmap string string) o n :
  nameIn n (optNames o) = false ->
  match o with
  | Some rr => setRegexpVars req vars rr
  | None => vars
  end !! n = vars !! n.
Proof. destruct o; [apply setRegexpVars_notin|reflexivity]. Qed.

(** A name no template of the group holds is left as it was. *)
Lemma setMatch_notin g req (vars : gmap string string) n :
  nameIn n (groupNames g) = false -> setMatch g req vars !! n = vars !! n.
Proof.
  unfold groupNames, setMatch. rewrite !nameIn_app.
  intros H. apply orb_false_iff in H as [Hh H].
  apply orb_false_iff in H as [Hp Hq].
  rewrite (queriesVars_notin _ _ _ _ Hq), (optVars_notin _ _ _ _ Hp).
  now apply optVars_notin.
Qed.

(** A name of the path template is set when the path template matches and
    no query template holds the name. *)
Lemma setMatch_path g req (vars : gmap string string) rr n :
  rgPath g = Some rr ->
  matcher_Match (regexpMatcher rr) req = true ->
  nameIn n (regexpNames rr) = true ->
  nameIn n (concat (map regexpNames (rgQueries g))) = false ->
  is_Some (setMatch g req vars !! n).
Proof.
  intros Hp Hm Hn Hq. unfold setMatch.
  rewrite (queriesVars_notin _ _ _ _ Hq), Hp. now apply setRegexpVars_in.
Qed.

(** * The variables of a served request *)

Lemma objectLevelHandlers_eq :
  objectLevelHandlers =
  [ policyCheck headObjectHandler [GetObjectAction];
    policyCheck getObjectHandler [ListBucketAction];
    policyCheck getObjectHandler [ListBucketAction];
    policyCheck getObjectTagging [GetBucketPolicyAction];
    bare getObjectXAttr; bare listObjectXAttrs; getObjectACL;
    policyCheck getObjectHandler [GetObjectAction];
    policyCheck createMultipleUploadHandler [PutObjectAction];
    policyCheck completeMultipartUploadHandler [PutObjectAction];
    policyCheck uploadPartHandler [PutObjectAction];
    policyCheck copyObjectHandler [PutObjectAction];
    policyCheck putObjectTagging [PutBucketPolicyAction];
    bare putObjectXAttr;
    policyCheck putObjectACLHandler [PutObjectAclAction];
    policyCheck putObjectHandler [PutObjectAction];
    policyCheck abortMultipartUploadHandler [AbortMultipartUploadAction];
    policyCheck deleteObjectHandler [DeleteObjectAction] ].
Proof. vm_compute. reflexivity. Qed.

Lemma memb_In {A} `{EqDecision A} (x : A) l : memb x l = true <-> In x l.
Proof.
  unfold memb. rewrite existsb_exists. split.
  - intros (y & Hy & He). apply bool_decide_eq_true in He. now subst.
  - intros H0. exists x. split; [assumption|now apply bool_decide_eq_true].
Qed.

Lemma rules_facts k :
  forallb aclRuleFacts (kindRules k) = true /\
  forallb objectRuleFacts (kindRules k) = true.
Proof. destruct k; split; vm_compute; reflexivity. Qed.

Lemma kind_names k n :
  nameIn n ["bucket"; "port"] = false ->
  nameIn n (groupNames (regexp (kindConf k))) = false /\
  nameIn n (optNames (rgHost (regexp (kindConf k)))) = false.
Proof.
  unfold nameIn. cbn [existsb]. intros H.
  apply orb_false_iff in H as [Hb H]. apply orb_false_iff in H as [Hp _].
  destruct k; cbn; rewrite ?Hb, ?Hp; auto.
Qed.

Lemma routeVars_leaf k ru req n :
  nameIn n ["bucket"; "port"] = false ->
  routeVars k ru req !! n
  = setMatch (regexp (conf (leafOf (kindConf k) ru))) req ∅ !! n.
Proof.
  intros Hn. unfold routeVars.
  rewrite setMatch_notin by reflexivity.
  apply setMatch_notin. now apply kind_names.
Qed.

Lemma routeVars_none k ru req n :
  nameIn n ["bucket"; "port"] = false ->
  pathHas n ru = false -> queriesHave n ru = false ->
  routeVars k ru req !! n = None.
Proof.
  intros Hn Hp Hq. rewrite (routeVars_leaf _ _ _ _ Hn).
  rewrite setMatch_notin; [apply lookup_empty|].
  unfold groupNames. cbn [leafOf conf regexp rgHost rgPath rgQueries].
  rewrite !nameIn_app. unfold pathHas, queriesHave in *.
  now rewrite (proj2 (kind_names k n Hn)), Hp, Hq.
Qed.

Lemma routeVars_path k ru req n :
  nameIn n ["bucket"; "port"] = false ->
  ownOK req ru = true -> pathInOwn ru = true ->
  pathHas n ru = true -> queriesHave n ru = false ->
  is_Some (routeVars k ru req !! n).
Proof.
  intros Hn Hown Hin Hp Hq. rewrite (routeVars_leaf _ _ _ _ Hn).
  unfold pathInOwn, pathHas in *.
  destruct (rulePath ru) as [rr|] eqn:Hr; [|discriminate].
  apply memb_In in Hin.
  apply (setMatch_path _ _ _ rr); cbn [leafOf conf regexp rgPath rgQueries];
    try assumption.
  unfold ownOK in Hown. apply andb_true_iff in Hown as [_ Hown].
  rewrite forallb_forall in Hown. now apply Hown.
Qed.

(** C10: a request served by the get-object-acl rule carries the object
    path under [objject] and has no variable [object]; a request served by
    any other object-level rule carries it under [object]. *)
Theorem acl_object_variable ds req hf vars :
  forallb plainDomain ds = true ->
  handle ds req = serveHandler hf vars ->
  (hf = getObjectACL ->
   vars !! "object" = None /\ is_Some (vars !! "objject")) /\
  (In hf objectLevelHandlers -> hf <> getObjectACL ->
   is_Some (vars !! "object")).
Proof.
  intros Hp Hh. rewrite (handle_spec _ _ Hp) in Hh.
  destruct (firstSelected (kinds ds) req) as [[k ru]|] eqn:Hf.
  - apply firstSelected_In in Hf as (_ & Hr & _ & Hown).
    destruct (rules_facts k) as [Hacl Hobj].
    rewrite forallb_forall in Hacl, Hobj.
    specialize (Hacl _ Hr). specialize (Hobj _ Hr).
    unfold aclRuleFacts, objectRuleFacts in *.
    rewrite (ownOK_err _ _ Hown) in Hobj. cbn [negb andb] in Hobj.
    destruct (ruleHandler ru) as [h|]; [|discriminate].
    injection Hh as <- <-. split.
    + intros ->. rewrite bool_decide_eq_true_2 in Hacl by reflexivity.
      cbn [implb] in Hacl.
      repeat (apply andb_true_iff in Hacl as [Hacl ?]).
      repeat match goal with H : negb _ = true |- _ => apply negb_true_iff in H end.
      split; [now apply routeVars_none|now apply routeVars_path].
    + intros Hin Hne.
      rewrite (proj2 (memb_In _ _) Hin), bool_decide_eq_false_2 in Hobj
        by assumption.
      cbn [implb negb andb] in Hobj.
      repeat (apply andb_true_iff in Hobj as [Hobj ?]).
      repeat match goal with H : negb _ = true |- _ => apply negb_true_iff in H end.
      now apply routeVars_path.
  - destruct (MethodGet =? reqMethod req)%string; [|discriminate].
    injection Hh as <- <-. split; [discriminate|].
    rewrite objectLevelHandlers_eq. cbn [In]. intros H.
    repeat (destruct H as [H|H]; [discriminate H|]). destruct H.
Qed.

Lemma acl_object_variable_witness :
  (<["objject" := "photos/a.jpg"]> (<["bucket" := "media"]> ∅)
     : gmap string string) !! "object" = None /\
  is_Some ((<["objject" := "photos/a.jpg"]> (<["bucket" := "media"]> ∅)
              : gmap string string) !! "objject").
Proof.
  refine (proj1 (acl_object_variable sampleDomains getAclRequest getObjectACL
                   (<["objject" := "photos/a.jpg"]> (<["bucket" := "media"]> ∅))
                   _ _) _).
  - reflexivity.
  - vm_compute. reflexivity.
  - reflexivity.
Defined.

(** * The bucket router that serves a request *)

Lemma objectPath_style_host n req :
  matcher_Match (regexpMatcher (objectPathStyle n)) req = true ->
  matcher_Match (regexpMatcher (objectPathHost n)) req = true.
Proof.
  rewrite !regexp_match, objectPathStyle_captures, objectPathHost_captures.
  destruct (stripPrefix "/" (reqPath req)) as [rest|]; [|discriminate].
  destruct rest; [discriminate|reflexivity].
Qed.

Lemma view_transfer inh inh' obj obj' req :
  (forall n, matcher_Match (regexpMatcher (obj n)) req = true ->
             matcher_Match (regexpMatcher (obj' n)) req = true) ->
  Forall2 (fun a b => ownOK req a = true -> ownOK req b = true)
          (rulesView inh obj) (rulesView inh' obj').
Proof.
  intros Hmono. unfold rulesView.
  repeat (apply List.Forall2_cons;
          [ first
              [ rewrite !ownOK_bucketRule; exact (fun H => H)
              | rewrite !ownOK_objectRule;
                let H := fresh in
                intros H; apply andb_true_iff in H as [-> H];
                apply andb_true_iff in H as [H ->];
                now rewrite (Hmono _ H)
              | discriminate ]
          | ]).
  apply List.Forall2_nil.
Qed.

Lemma transfer_find {A} (f g : A -> bool) l l' :
  Forall2 (fun a b => f a = true -> g b = true) l l' ->
  forall a, In a l -> f a = true -> find g l' <> None.
Proof.
  induction 1 as [|x y l l' Hxy _ IH]; intros a; cbn [In find]; [intros []|].
  intros [<-|Hin] Ha.
  - now rewrite (Hxy Ha).
  - destruct (g y); [discriminate|]. now apply (IH a).
Qed.

(** A rule of some bucket router accepts the request: then a rule of a
    host router does. *)
Lemma some_rule_host k ru req :
  In ru (kindRules k) -> ownOK req ru = true ->
  find (ownOK req) hostRules <> None.
Proof.
  intros Hin Hown. rewrite hostRules_view. rewrite kindRules_view in Hin.
  eapply transfer_find; [|exact Hin|exact Hown].
  apply view_transfer. destruct k; cbn [kindObj]; auto using objectPath_style_host.
Qed.

Lemma kinds_cons d ds :
  kinds (d :: ds) = viaHost d :: viaHostPort d :: kinds ds.
Proof. reflexivity. Qed.

(** The rule that serves a request belongs to the first bucket router that
    accepts the request. *)
Lemma firstSelected_firstPre ds req k ru :
  firstSelected (kinds ds) req = Some (k, ru) ->
  firstPre (kinds ds) req = Some k.
Proof.
  assert (Hstep : forall k0 ks,
    kindRules k0 = hostRules ->
    (firstSelected ks req = Some (k, ru) -> firstPre ks req = Some k) ->
    firstSelected (k0 :: ks) req = Some (k, ru) ->
    firstPre (k0 :: ks) req = Some k).
  { intros k0 ks Hrules IH. cbn [firstSelected firstPre]. unfold selected.
    destruct (preOK (kindConf k0) req); [|exact IH].
    rewrite Hrules.
    destruct (find (ownOK req) hostRules) as [ru0|] eqn:Hf.
    - now intros [= <- _].
    - intros Hs. exfalso.
      apply firstSelected_In in Hs as (_ & Hr & _ & Hown).
      now apply (some_rule_host _ _ _ Hr Hown). }
  induction ds as [|d ds IH].
  - cbn [kinds flat_map app firstSelected firstPre]. unfold selected.
    destruct (preOK (kindConf viaPath) req); [|discriminate].
    destruct (find (ownOK req) (kindRules viaPath)); [|discriminate].
    now intros [= <- _].
  - rewrite kinds_cons. apply Hstep; [reflexivity|].
    apply Hstep; [reflexivity|exact IH].
Qed.

Lemma setMatch_bConf req (vars : gmap string string) :
  setMatch (regexp bConf) req vars = vars.
Proof.
  unfold setMatch. cbn [bConf regexp rgHost rgPath rgQueries fold_left].
  unfold setRegexpVars. rewrite rootPrefix_captures.
  now destruct (stripPrefix "/" (reqPath req)).
Qed.

Lemma routeVars_bucket k ru req addr :
  kindAddress k req = Some addr ->
  routeVars k ru req !! "bucket" = Some (bucketName addr).
Proof.
  unfold routeVars. rewrite setMatch_bConf.
  set (V := setMatch (regexp (conf (leafOf (kindConf k) ru))) req ∅).
  clearbody V. unfold kindAddress, setMatch.
  destruct (stripPrefix "/" (reqPath req)) as [rest|] eqn:Hp; [|discriminate].
  destruct k as [d|d|]; cbn [kindConf hostConf pathConf regexp rgHost rgPath
                              rgQueries fold_left];
    unfold setRegexpVars; rewrite ?rootPrefix_captures, ?Hp.
  - rewrite hostRe_captures.
    destruct (matchDomain d (reqHost req)) as [b|]; [|discriminate].
    intros [= <-]. cbn. apply lookup_insert_eq.
  - pose proof (hostPortRe_captures d req) as H.
    destruct (matchDomainPort d (reqHost req)) as [b|]; [|discriminate].
    destruct H as [p ->]. intros [= <-]. cbn.
    rewrite lookup_insert_ne by discriminate. apply lookup_insert_eq.
  - rewrite bucketPrefix_captures, Hp.
    destruct (takeRun NotSlash rest) as [|a seg]; [discriminate|].
    cbn [nonEmpty isEmpty]. intros [= <-]. cbn. apply lookup_insert_eq.
Qed.

Lemma resolve_modes ds host path addr :
  resolve ds host path = Some addr ->
  match virtualBucket ds host with
  | Some b => addressing addr = virtualHosted /\ bucketName addr = b
  | None =>
      addressing addr = pathStyle /\
      exists rest, path = "/" +:+ bucketName addr +:+ rest /\
                   stopsRun NotSlash rest = true /\
                   allIn NotSlash (bucketName addr) = true
  end.
Proof.
  destruct (stripPrefix "/" path) as [rest|] eqn:Hp.
  - rewrite (resolve_path _ _ _ _ Hp). apply stripPrefix_eq in Hp as ->.
    destruct (virtualBucket ds host) as [b|].
    + intros [= <-]. auto.
    + destruct (nonEmpty (takeRun NotSlash rest)) as [seg|] eqn:Hs; [|discriminate].
      apply nonEmpty_Some in Hs as [Hs _]. intros [= <-]. cbn [addressing bucketName].
      split; [reflexivity|]. exists (dropRun NotSlash rest).
      rewrite <- Hs, <- run_split.
      auto using dropRun_stops, takeRun_allIn.
  - unfold resolve. rewrite Hp. discriminate.
Qed.

(** C7: a request served by a rule of a bucket router carries, as its
    bucket, the bucket name of the resolver of the specification: the
    prefix of the host for the first configured domain, in order, that the
    host matches with or without a numeric port, and the first path
    segment when the host matches no configured domain. *)
Theorem bucket_resolution ds req hf vars :
  forallb plainDomain ds = true ->
  handle ds req = serveHandler hf vars ->
  hf <> policyCheck listBucketsHandler [ListBucketAction] ->
  exists addr,
    resolve ds (reqHost req) (reqPath req) = Some addr /\
    vars !! "bucket" = Some (bucketName addr) /\
    match virtualBucket ds (reqHost req) with
    | Some b => addressing addr = virtualHosted /\ bucketName addr = b
    | None =>
        addressing addr = pathStyle /\
        exists rest, reqPath req = "/" +:+ bucketName addr +:+ rest /\
                     stopsRun NotSlash rest = true /\
                     allIn NotSlash (bucketName addr) = true
    end.
Proof.
  intros Hp Hh Hne. rewrite (handle_spec _ _ Hp) in Hh.
  destruct (firstSelected (kinds ds) req) as [[k ru]|] eqn:Hf.
  - pose proof (firstSelected_firstPre _ _ _ _ Hf) as Hk.
    pose proof (firstPre_preOK _ _ _ Hk) as Hpre.
    rewrite preOK_kind in Hpre.
    destruct (kindAddress k req) as [addr|] eqn:Ha; [|discriminate].
    assert (Hr : resolve ds (reqHost req) (reqPath req) = Some addr)
      by now rewrite resolve_kinds, Hk.
    exists addr. split; [exact Hr|]. split; [|now apply resolve_modes].
    destruct (ruleHandler ru); [|discriminate]. injection Hh as _ <-.
    now apply routeVars_bucket.
  - destruct (MethodGet =? reqMethod req)%string; [|discriminate].
    injection Hh as <- _. now destruct Hne.
Qed.

Lemma bucket_resolution_witness :
  exists addr,
    resolve sampleDomains (reqHost getObjectRequest) (reqPath getObjectRequest)
    = Some addr /\
    (<["object" := "photos/a.jpg"]>
       (<["bucket" := "media"]> (<["port" := "8080"]> ∅))
       : gmap string string) !! "bucket" = Some (bucketName addr) /\
    match virtualBucket sampleDomains (reqHost getObjectRequest) with
    | Some b => addressing addr = virtualHosted /\ bucketName addr = b
    | None =>
        addressing addr = pathStyle /\
        exists rest, reqPath getObjectRequest = "/" +:+ bucketName addr +:+ rest /\
                     stopsRun NotSlash rest = true /\
                     allIn NotSlash (bucketName addr) = true
    end.
Proof.
  apply (bucket_resolution sampleDomains getObjectRequest
           (policyCheck getObjectHandler [GetObjectAction])).
  - reflexivity.
  - vm_compute. reflexivity.
  - discriminate.
Defined.

(** * Routing of the requests the resolver addresses *)


Lemma firstSelected_none ds req k :
  firstPre (kinds ds) req = Some k ->
  find (ownOK req) (kindRules k) = None ->
  firstSelected (kinds ds) req = None.
Proof.
  intros Hk Hf.
  destruct (firstSelected (kinds ds) req) as [[k' ru]|] eqn:Hs; [|reflexivity].
  pose proof (firstSelected_firstPre _ _ _ _ Hs) as Hk'.
  rewrite Hk in Hk'. injection Hk' as <-.
  apply firstSelected_In in Hs as (_ & Hr & _ & Hown).
  pose proof (find_none _ _ Hf _ Hr) as Hn. congruence.
Qed.

Lemma firstSelected_unaddressed ds req :
  firstPre (kinds ds) req = None -> firstSelected (kinds ds) req = None.
Proof.
  intros Hk.
  destruct (firstSelected (kinds ds) req) as [[k' ru]|] eqn:Hs; [|reflexivity].
  apply firstSelected_firstPre in Hs. congruence.
Qed.

Lemma level_kind ds req addr :
  resolve ds (reqHost req) (reqPath req) = Some addr ->
  exists k, firstPre (kinds ds) req = Some k /\ kindAddress k req = Some addr /\
    forall n, matcher_Match (regexpMatcher (kindObj k n)) req = isSome (objectKey addr).
Proof.
  intros Hr. rewrite resolve_kinds in Hr.
  destruct (firstPre (kinds ds) req) as [k|] eqn:Hk; [|discriminate].
  exists k. repeat split; [assumption|]. intros n. now apply objOK_kind.
Qed.

Lemma level_route ds req addr h :
  forallb plainDomain ds = true ->
  resolve ds (reqHost req) (reqPath req) = Some addr ->
  h <> bare unsupportedOperationHandler ->
  (forall inh obj,
     (forall n, matcher_Match (regexpMatcher (obj n)) req = isSome (objectKey addr)) ->
     exists ru, find (ownOK req) (rulesView inh obj) = Some ru /\
                ruleHandler ru = Some h) ->
  route ds req = routed h.
Proof.
  intros Hp Hr Hne Hfind.
  destruct (level_kind _ _ _ Hr) as (k & Hk & _ & Hobj).
  destruct (Hfind (kindInh k) (kindObj k) Hobj) as (ru & Hf & Hh).
  rewrite <- kindRules_view in Hf.
  eapply route_served; [|exact Hne]. eapply selects; eassumption.
Qed.

Lemma level_unrouted ds req addr :
  forallb plainDomain ds = true ->
  resolve ds (reqHost req) (reqPath req) = Some addr ->
  (MethodGet =? reqMethod req)%string = false ->
  (forall inh obj,
     (forall n, matcher_Match (regexpMatcher (obj n)) req = isSome (objectKey addr)) ->
     find (ownOK req) (rulesView inh obj) = None) ->
  route ds req = methodNotAllowed.
Proof.
  intros Hp Hr Hm Hfind.
  destruct (level_kind _ _ _ Hr) as (k & Hk & _ & Hobj).
  specialize (Hfind (kindInh k) (kindObj k) Hobj).
  rewrite <- kindRules_view in Hfind.
  pose proof (route_spec ds req Hp) as Hs.
  rewrite (firstSelected_none _ _ _ Hk Hfind), Hm in Hs. exact Hs.
Qed.

Lemma stripPrefix_app2 p a b : stripPrefix (p +:+ a) (p +:+ b) = stripPrefix a b.
Proof.
  induction p as [|c p IH]; [now rewrite !app_nil_l_str|].
  rewrite !app_cons_str. cbn [stripPrefix]. now rewrite Ascii.eqb_refl.
Qed.

Lemma stripPrefix_all a b :
  match stripPrefix a b with Some EmptyString => true | _ => false end = (b =? a)%string.
Proof.
  revert b; induction a as [|c a IH]; intros [|d b]; cbn [stripPrefix String.eqb];
    try reflexivity.
  rewrite Ascii.eqb_sym. destruct (Ascii.eqb d c); [apply IH|reflexivity].
Qed.

Lemma qFixed_match k v req :
  keyOK k = true ->
  matcher_Match (regexpMatcher (qFixed k v)) req = hasExact k v req.
Proof.
  intros Hk. unfold matcher_Match, regexpCaptures, regexpSubject, getURLQuery, hasExact.
  cbn [qFixed regexpTyp template pieces anchored matchPieces].
  assert (Hkey : fst (splitN2 "=" (k +:+ "=" +:+ v)) = k).
  { rewrite app_cons_str, app_nil_l_str. now apply splitN2_key. }
  rewrite Hkey.
  destruct (queryFirst k (reqQuery req)) as [x|].
  - rewrite !stripPrefix_app2, <- stripPrefix_all.
    now destruct (stripPrefix v x) as [[|]|].
  - destruct k; cbn; reflexivity.
Qed.

(** * Dispatch tables of the bucket routers *)

Ltac find_rule :=
  unfold rulesView;
  repeat skip_rule;
  first [ take_rule; eexists; split; reflexivity | reflexivity ].

(** Settles [route] for a request the resolver addresses, once the
    predicates of the request are decided in the context. *)
Ltac by_table Hp Hr Hm :=
  first
    [ eapply (level_route _ _ _ _ Hp Hr); [discriminate|]
    | eapply (level_unrouted _ _ _ Hp Hr); [rewrite Hm; reflexivity|] ];
  let inh := fresh "inh" in
  let obj := fresh "obj" in
  let Hobj := fresh "Hobj" in
  intros inh obj Hobj;
  match goal with
  | Hk : objectKey _ = _ |- _ => rewrite Hk in Hobj; cbn [isSome] in Hobj
  end;
  find_rule.















(** * Routes that are never taken *)

Lemma selected_rule ds req hf vars :
  forallb plainDomain ds = true ->
  handle ds req = serveHandler hf vars ->
  hf <> policyCheck listBucketsHandler [ListBucketAction] ->
  exists k ru, firstSelected (kinds ds) req = Some (k, ru) /\
               In ru (kindRules k) /\ ownOK req ru = true /\
               ruleHandler ru = Some hf /\ vars = routeVars k ru req.
Proof.
  intros Hp Hh Hne. rewrite (handle_spec _ _ Hp) in Hh.
  destruct (firstSelected (kinds ds) req) as [[k ru]|] eqn:Hf.
  - pose proof (firstSelected_In _ _ _ _ Hf) as (_ & Hr & _ & Hown).
    destruct (ruleHandler ru) as [h|] eqn:Hru; [|discriminate].
    injection Hh as <- <-. exists k, ru. auto.
  - destruct (MethodGet =? reqMethod req)%string; [|discriminate].
    injection Hh as <- _. now destruct Hne.
Qed.

Lemma rules_forall (P : rule -> bool) k ru :
  forallb P hostRules = true -> forallb P pathRules = true ->
  In ru (kindRules k) -> P ru = true.
Proof.
  intros Hh Hpth Hin.
  destruct k; cbn [kindRules] in Hin;
    [ rewrite forallb_forall in Hh; auto
    | rewrite forallb_forall in Hh; auto
    | rewrite forallb_forall in Hpth; auto ].
Qed.

(** X8: The handlers of the delete-object-tagging and delete-object-xattr
    routes are registered, yet no request reaches them: the first route has
    a path template without its closing brace, the second an odd number of
    arguments to [Queries]. *)
Theorem broken_delete_routes_unreachable ds req hf vars :
  forallb plainDomain ds = true ->
  handle ds req = serveHandler hf vars ->
  In (policyCheck deleteObjectTagging [PutBucketPolicyAction]) registeredHandlers /\
  In (bare deleteObjectXAttr) registeredHandlers /\
  handlerOf hf <> deleteObjectTagging /\ handlerOf hf <> deleteObjectXAttr.
Proof.
  intros Hp Hh.
  split; [vm_compute; tauto|]. split; [vm_compute; tauto|].
  destruct (decide (hf = policyCheck listBucketsHandler [ListBucketAction]))
    as [->|Hne]; [split; discriminate|].
  destruct (selected_rule _ _ _ _ Hp Hh Hne) as (k & ru & _ & Hr & Hown & Hru & _).
  pose proof (rules_forall
    (fun ru => ruleErr ru ||
               match ruleHandler ru with
               | Some hf => negb (memb (handlerOf hf)
                                    [deleteObjectTagging; deleteObjectXAttr])
               | None => true
               end) k ru eq_refl eq_refl Hr) as Hfact.
  cbv beta in Hfact. rewrite (ownOK_err _ _ Hown), Hru in Hfact.
  cbn [orb] in Hfact. apply negb_true_iff in Hfact.
  split; intros He; rewrite He in Hfact; discriminate.
Qed.

Lemma broken_delete_routes_unreachable_witness :
  handlerOf (policyCheck deleteObjectHandler [DeleteObjectAction])
  <> deleteObjectTagging.
Proof.
  refine (proj1 (proj2 (proj2 (broken_delete_routes_unreachable sampleDomains
            deleteTaggingRequest
            (policyCheck deleteObjectHandler [DeleteObjectAction])
            (<["object" := "photos/a.jpg"]> (<["bucket" := "media"]> ∅)) _ _)))).
  - reflexivity.
  - vm_compute. reflexivity.
Defined.

(** X10: The not-found handler router.go installs is never served and the
    library's own 404 reply is never given: the list-buckets route, which
    has no path, takes every GET that no bucket router takes and records a
    method mismatch for every other request. *)
Theorem not_found_unreachable ds req :
  forallb plainDomain ds = true ->
  route ds req <> routeNotFound /\
  handle ds req <> serveNotFound /\
  forall vars, handle ds req <> serveHandler (bare unsupportedOperationHandler) vars.
Proof.
  intros Hp.
  assert (Hr : route ds req <> routeNotFound).
  { pose proof (route_spec ds req Hp) as Hs.
    destruct (firstSelected (kinds ds) req) as [[k ru]|].
    - destruct Hs as (hf & _ & -> & _). discriminate.
    - rewrite Hs. destruct (MethodGet =? reqMethod req)%string; discriminate. }
  split; [exact Hr|].
  unfold route in Hr.
  split; [intros H|intros vars H]; rewrite H in Hr; now apply Hr.
Qed.

Lemma not_found_unreachable_witness :
  route sampleDomains
    {| reqMethod := "DELETE"; reqHost := "gateway.internal";
       reqPath := "/"; reqQuery := []; reqHeader := [] |}
  <> routeNotFound.
Proof.
  apply (proj1 (not_found_unreachable sampleDomains
                  {| reqMethod := "DELETE"; reqHost := "gateway.internal";
                     reqPath := "/"; reqQuery := []; reqHeader := [] |}
                  eq_refl)).
Defined.

Lemma ownOK_method req ru m :
  methodOf ru = Some m -> ownOK req ru = true -> reqMethod req = m.
Proof.
  unfold methodOf, ownOK. intros Hm Hown.
  apply andb_true_iff in Hown as [_ Hown].
  destruct (ruleOwn ru) as [|[[|m0 [|]]| |] own]; try discriminate.
  injection Hm as ->. cbn [forallb] in Hown.
  apply andb_true_iff in Hown as [Hown _].
  rewrite method_match in Hown. now apply String.eqb_eq in Hown.
Qed.

(** X11: Every route is registered for one of HEAD, GET, POST, PUT and DELETE:
    a request with any other method is answered 405, whatever its host,
    path, query and headers. *)
Theorem other_methods_not_allowed ds req :
  forallb plainDomain ds = true ->
  ~ In (reqMethod req) routedMethods ->
  route ds req = methodNotAllowed.
Proof.
  intros Hp Hn. pose proof (route_spec ds req Hp) as Hs.
  destruct (firstSelected (kinds ds) req) as [[k ru]|] eqn:Hf.
  - exfalso. apply firstSelected_In in Hf as (_ & Hr & _ & Hown).
    pose proof (rules_forall
      (fun ru => match methodOf ru with
                 | Some m => memb m routedMethods
                 | None => false
                 end) k ru eq_refl eq_refl Hr) as Hfact.
    cbv beta in Hfact. destruct (methodOf ru) as [m|] eqn:Hm; [|discriminate].
    apply memb_In in Hfact. now rewrite (ownOK_method _ _ _ Hm Hown) in Hn.
  - rewrite Hs. destruct (String.eqb_spec MethodGet (reqMethod req)) as [He|];
      [|reflexivity].
    exfalso. apply Hn. rewrite <- He. cbn. tauto.
Qed.

Lemma other_methods_not_allowed_witness :
  route sampleDomains
    {| reqMethod := "OPTIONS"; reqHost := "media.s3.example.com";
       reqPath := "/photos/a.jpg"; reqQuery := [("acl", EmptyString)];
       reqHeader := [] |}
  = methodNotAllowed.
Proof.
  apply (other_methods_not_allowed sampleDomains
           {| reqMethod := "OPTIONS"; reqHost := "media.s3.example.com";
              reqPath := "/photos/a.jpg"; reqQuery := [("acl", EmptyString)];
              reqHeader := [] |} eq_refl).
  cbn. intros H. repeat (destruct H as [H|H]; [discriminate H|]). exact H.
Defined.

(** * The list-buckets route *)

Lemma firstPre_address ds req k :
  firstPre (kinds ds) req = Some k ->
  exists addr, kindAddress k req = Some addr /\
               resolve ds (reqHost req) (reqPath req) = Some addr.
Proof.
  intros Hk. pose proof (firstPre_preOK _ _ _ Hk) as Hpre.
  rewrite preOK_kind in Hpre.
  destruct (kindAddress k req) as [addr|] eqn:Ha; [|discriminate].
  exists addr. split; [reflexivity|]. now rewrite resolve_kinds, Hk.
Qed.

Lemma find_some_In {A} (f : A -> bool) l x :
  In x l -> f x = true -> find f l <> None.
Proof.
  intros Hin Hf Hn. pose proof (find_none _ _ Hn _ Hin). congruence.
Qed.

(** A GET is always taken by the bucket router that accepts the request:
    its last GET route has neither a path nor a query predicate. *)
Lemma get_selected ds req k :
  firstPre (kinds ds) req = Some k -> reqMethod req = MethodGet ->
  firstSelected (kinds ds) req <> None.
Proof.
  intros Hk Hm.
  destruct (find (ownOK req) (kindRules k)) as [ru|] eqn:Hf.
  - rewrite (firstSelected_at _ _ k ru Hk); [discriminate|].
    unfold selected. now rewrite (firstPre_preOK _ _ _ Hk).
  - exfalso. revert Hf. rewrite kindRules_view.
    apply (find_some_In _ _
             (bucketRule (kindInh k) "GET" []
                (policyCheck getBucketV1Handler [ListBucketAction]))).
    + unfold rulesView. cbn [In]. do 15 right. left. reflexivity.
    + rewrite ownOK_bucketRule, Hm. reflexivity.
Qed.

(** X12: The list-buckets route serves exactly the GET requests that address no
    bucket: the host matches no configured domain and the path has no
    first segment.  Any other request without a bucket is answered 405. *)
Theorem list_buckets_route ds req :
  forallb plainDomain ds = true ->
  (route ds req = routed (policyCheck listBucketsHandler [ListBucketAction]) <->
   reqMethod req = MethodGet /\
   resolve ds (reqHost req) (reqPath req) = None) /\
  (resolve ds (reqHost req) (reqPath req) = None ->
   reqMethod req <> MethodGet -> route ds req = methodNotAllowed).
Proof.
  intros Hp. pose proof (route_spec ds req Hp) as Hs.
  assert (Hnone : resolve ds (reqHost req) (reqPath req) = None ->
                  firstSelected (kinds ds) req = None).
  { intros Hr. apply firstSelected_unaddressed.
    destruct (firstPre (kinds ds) req) as [k|] eqn:Hk; [|reflexivity].
    destruct (firstPre_address _ _ _ Hk) as (addr & _ & Ha). congruence. }
  split; [split|].
  - intros Hl.
    destruct (firstSelected (kinds ds) req) as [[k ru]|] eqn:Hf.
    + exfalso. destruct Hs as (hf & Hru & Hrt & _).
      apply firstSelected_In in Hf as (_ & Hr & _).
      pose proof (rules_forall
        (fun ru => match ruleHandler ru with
                   | Some hf => negb (bool_decide
                       (hf = policyCheck listBucketsHandler [ListBucketAction]))
                   | None => true
                   end) k ru eq_refl eq_refl Hr) as Hfact.
      cbv beta in Hfact. rewrite Hru in Hfact.
      apply negb_true_iff, bool_decide_eq_false in Hfact. congruence.
    + rewrite Hs in Hl.
      destruct (String.eqb_spec MethodGet (reqMethod req)) as [He|];
        [|discriminate].
      split; [now symmetry|].
      destruct (resolve ds (reqHost req) (reqPath req)) as [addr|] eqn:Hr;
        [|reflexivity].
      exfalso. destruct (level_kind _ _ _ Hr) as (k & Hk & _).
      now apply (get_selected _ _ _ Hk (eq_sym He)).
  - intros [Hm Hr]. rewrite (Hnone Hr), Hm in Hs. exact Hs.
  - intros Hr Hm. rewrite (Hnone Hr) in Hs. rewrite Hs.
    destruct (String.eqb_spec MethodGet (reqMethod req)) as [He|];
      [now destruct Hm|reflexivity].
Qed.

Lemma list_buckets_route_witness :
  route sampleDomains
    {| reqMethod := "GET"; reqHost := "gateway.internal"; reqPath := "/";
       reqQuery := [("acl", EmptyString)]; reqHeader := [] |}
  = routed (policyCheck listBucketsHandler [ListBucketAction]).
Proof.
  apply (proj2 (proj1 (list_buckets_route sampleDomains
                  {| reqMethod := "GET"; reqHost := "gateway.internal";
                     reqPath := "/"; reqQuery := [("acl", EmptyString)];
                     reqHeader := [] |} eq_refl))).
  split; reflexivity.
Defined.

(** * The value of the object variable *)

Lemma objectVar_value k req addr key n (vars0 : gmap string string) :
  kindAddress k req = Some addr -> objectKey addr = Some key ->
  setRegexpVars req vars0 (kindObj k n) !! n = Some key.
Proof.
  unfold kindAddress, setRegexpVars.
  destruct (stripPrefix "/" (reqPath req)) as [rest|] eqn:Hp; [|discriminate].
  destruct k as [d|d|]; cbn [kindObj];
    rewrite ?objectPathHost_captures, ?objectPathStyle_captures, Hp.
  - destruct (matchDomain d (reqHost req)); [|discriminate].
    intros [= <-]. cbn [objectKey]. destruct rest; [discriminate|].
    intros [= <-]. cbn. apply lookup_insert_eq.
  - destruct (matchDomainPort d (reqHost req)); [|discriminate].
    intros [= <-]. cbn [objectKey]. destruct rest; [discriminate|].
    intros [= <-]. cbn. apply lookup_insert_eq.
  - destruct (takeRun NotSlash rest); [discriminate|]. cbn [nonEmpty isEmpty].
    intros [= <-]. cbn [objectKey]. intros ->. cbn. apply lookup_insert_eq.
Qed.

Lemma objectPath_facts k ru :
  In ru (kindRules k) -> objectPathFacts (kindObj k) ru = true.
Proof.
  intros Hin.
  assert (Hh : forallb (objectPathFacts objectPathHost) hostRules = true)
    by (vm_compute; reflexivity).
  assert (Hs : forallb (objectPathFacts objectPathStyle) pathRules = true)
    by (vm_compute; reflexivity).
  rewrite forallb_forall in Hh, Hs.
  destruct k; cbn [kindRules kindObj] in *; auto.
Qed.

Lemma bucketPath_facts k ru :
  In ru (kindRules k) -> bucketPathFacts ru = true.
Proof. apply (rules_forall bucketPathFacts); vm_compute; reflexivity. Qed.

Lemma routeVars_no_object k ru req hf :
  In ru (kindRules k) -> ownOK req ru = true -> ruleHandler ru = Some hf ->
  ~ In hf objectLevelHandlers ->
  routeVars k ru req !! "object" = None /\ routeVars k ru req !! "objject" = None.
Proof.
  intros Hr Hown Hru Hnin.
  pose proof (bucketPath_facts _ _ Hr) as Hfact. unfold bucketPathFacts in Hfact.
  assert (Hm : memb hf objectLevelHandlers = false).
  { apply not_true_iff_false. intros H. now apply Hnin, memb_In. }
  rewrite (ownOK_err _ _ Hown), Hru, Hm in Hfact. cbn [negb implb] in Hfact.
  repeat (apply andb_true_iff in Hfact as [Hfact ?]).
  repeat match goal with
         | H : negb _ = true |- _ => apply negb_true_iff in H
         end.
  split; now apply routeVars_none.
Qed.

(** X16: A request served by an object-level route is addressed to an object,
    and the variable of the route holds the object key of the resolver:
    the path after the first slash for a virtual-hosted request, the path
    after the bucket segment and its slash for a path-style request.  A
    request served by any other route carries no object variable, even when
    its path names an object. *)
Theorem object_variable_value ds req hf vars :
  forallb plainDomain ds = true ->
  handle ds req = serveHandler hf vars ->
  (In hf objectLevelHandlers ->
   exists addr key,
     resolve ds (reqHost req) (reqPath req) = Some addr /\
     objectKey addr = Some key /\
     vars !! objectVariable hf = Some key) /\
  (~ In hf objectLevelHandlers ->
   vars !! "object" = None /\ vars !! "objject" = None).
Proof.
  intros Hp Hh.
  assert (Hlb : ~ In (policyCheck listBucketsHandler [ListBucketAction])
                     objectLevelHandlers).
  { rewrite objectLevelHandlers_eq. cbn [In].
    intros H. repeat (destruct H as [H|H]; [discriminate H|]). exact H. }
  destruct (decide (hf = policyCheck listBucketsHandler [ListBucketAction]))
    as [->|Hne].
  { split; [intros Hin; now destruct Hlb|]. intros _.
    rewrite (handle_spec _ _ Hp) in Hh.
    destruct (firstSelected (kinds ds) req) as [[k ru]|] eqn:Hf.
    - apply firstSelected_In in Hf as (_ & Hr & _ & Hown).
      destruct (ruleHandler ru) as [h|] eqn:Hru; [|discriminate].
      injection Hh as -> <-. now apply (routeVars_no_object k ru req _ Hr Hown Hru).
    - destruct (MethodGet =? reqMethod req)%string; [|discriminate].
      injection Hh as <-. split; apply lookup_empty. }
  destruct (selected_rule _ _ _ _ Hp Hh Hne)
    as (k & ru & Hf & Hr & Hown & Hru & ->).
  split.
  - intros Hin.
    pose proof (firstSelected_firstPre _ _ _ _ Hf) as Hk.
    destruct (firstPre_address _ _ _ Hk) as (addr & Ha & Hres).
    pose proof (objectPath_facts _ _ Hr) as Hfact.
    unfold objectPathFacts in Hfact.
    rewrite (ownOK_err _ _ Hown), Hru, (proj2 (memb_In _ _) Hin) in Hfact.
    cbn [negb implb] in Hfact.
    apply andb_true_iff in Hfact as [Hfact Hq].
    apply andb_true_iff in Hfact as [Hpath Hown'].
    apply bool_decide_eq_true in Hpath. apply memb_In in Hown'.
    apply negb_true_iff in Hq.
    set (n := objectVariable hf) in *.
    assert (Hm : matcher_Match (regexpMatcher (kindObj k n)) req = true).
    { unfold ownOK in Hown. apply andb_true_iff in Hown as [_ Hown].
      rewrite forallb_forall in Hown. now apply Hown. }
    rewrite (objOK_kind _ _ _ n Ha) in Hm.
    destruct (objectKey addr) as [key|] eqn:Hkey; [|discriminate].
    exists addr, key. split; [assumption|]. split; [assumption|].
    rewrite routeVars_leaf
      by (unfold n, objectVariable; now destruct (bool_decide (hf = getObjectACL))).
    unfold setMatch. cbn [leafOf conf regexp rgHost rgPath rgQueries].
    rewrite queriesVars_notin by exact Hq.
    rewrite Hpath. now apply (objectVar_value k req addr).
  - intros Hnin. now apply (routeVars_no_object k ru req hf).
Qed.

Lemma object_variable_value_witness :
  exists addr key,
    resolve sampleDomains (reqHost getAclRequest) (reqPath getAclRequest)
    = Some addr /\
    objectKey addr = Some key /\
    (<["objject" := "photos/a.jpg"]> (<["bucket" := "media"]> ∅)
       : gmap string string) !! objectVariable getObjectACL = Some key.
Proof.
  refine (proj1 (object_variable_value sampleDomains getAclRequest getObjectACL
                   (<["objject" := "photos/a.jpg"]> (<["bucket" := "media"]> ∅))
                   _ _) _).
  - reflexivity.
  - vm_compute. reflexivity.
  - vm_compute. tauto.
Defined.

(** * The values of the query variables *)

Lemma extractVars_source caps : forall (vars0 : gmap string string) n v,
  extractVars caps vars0 !! n = Some v ->
  vars0 !! n = Some v \/ In (n, v) caps.
Proof.
  unfold extractVars.
  induction caps as [|[k x] caps IH]; intros vars0 n v; cbn [fold_left fst snd];
    [auto|].
  intros H. destruct (IH _ _ _ H) as [Hl|Hin]; [|right; now right].
  destruct (decide (k = n)) as [->|Hne].
  - rewrite lookup_insert_eq in Hl. injection Hl as ->. right. now left.
  - rewrite lookup_insert_ne in Hl by assumption. now left.
Qed.

Lemma queriesVars_source req qs : forall (vars0 : gmap string string) n v,
  fold_left (setRegexpVars req) qs vars0 !! n = Some v ->
  vars0 !! n = Some v \/
  exists q caps, In q qs /\ regexpCaptures q req = Some caps /\ In (n, v) caps.
Proof.
  induction qs as [|q qs IH]; intros vars0 n v; cbn [fold_left]; [auto|].
  intros H. destruct (IH _ _ _ H) as [Hl|(q' & caps & Hin & Hc & Hv)].
  - unfold setRegexpVars in Hl.
    destruct (regexpCaptures q req) as [caps|] eqn:Hc; [|now left].
    destruct (extractVars_source _ _ _ _ Hl) as [Hl'|Hin]; [now left|].
    right. exists q, caps. cbn [In]. auto.
  - right. exists q', caps. cbn [In]. auto.
Qed.

Lemma queryTemplate_captures q req caps n v :
  queryTemplateOK q = true -> regexpCaptures q req = Some caps ->
  In (n, v) caps ->
  exists key, In (key, n) queryVariables /\
              queryFirst key (reqQuery req) = Some v.
Proof.
  unfold queryTemplateOK. intros Hok Hc Hin.
  destruct (queryBinding q) as [[[n0 c] plus]|].
  - apply andb_true_iff in Hok as [Hok Hmem].
    apply andb_true_iff in Hok as [Hq Hkey].
    apply bool_decide_eq_true in Hq. apply memb_In in Hmem.
    rewrite Hq, (qVar_captures _ _ _ _ _ Hkey) in Hc.
    destruct (queryFirst (queryKey q) (reqQuery req)) as [v0|] eqn:Hv;
      [|discriminate].
    destruct (allIn c v0 && (negb plus || negb (isEmpty v0))); [|discriminate].
    injection Hc as <-. destruct Hin as [[= <- <-]|[]].
    exists (queryKey q). auto.
  - apply bool_decide_eq_true in Hok.
    apply regexpCaptures_names in Hc. rewrite Hok in Hc.
    destruct caps; [destruct Hin|discriminate].
Qed.

Lemma nameIn_subset n (l L : list string) :
  forallb (fun x => memb x L) l = true -> ~ In n L -> nameIn n l = false.
Proof.
  intros Hsub Hn. destruct (nameIn n l) eqn:H; [|reflexivity].
  exfalso. apply Hn. apply nameIn_In in H.
  rewrite forallb_forall in Hsub. now apply memb_In, Hsub.
Qed.

(** Where a variable of a served request comes from, when it is neither
    the bucket, the port nor the object. *)
Lemma routeVars_query k ru req n v :
  In ru (kindRules k) ->
  ~ In n ["bucket"; "port"; "object"; "objject"] ->
  routeVars k ru req !! n = Some v ->
  exists key, In (key, n) queryVariables /\
              queryFirst key (reqQuery req) = Some v.
Proof.
  intros Hr Hn Hv.
  pose proof (rules_forall queryFacts k ru eq_refl eq_refl Hr) as Hfact.
  unfold queryFacts in Hfact. apply andb_true_iff in Hfact as [Hpath Hqs].
  assert (Hbp : nameIn n ["bucket"; "port"] = false).
  { apply (nameIn_subset _ _ ["bucket"; "port"]); [reflexivity|].
    intros H. apply Hn. cbn [In] in *. tauto. }
  assert (Hpn : nameIn n (optNames (rulePath ru)) = false).
  { apply (nameIn_subset _ _ _ Hpath). intros H. apply Hn. cbn [In] in *. tauto. }
  rewrite (routeVars_leaf _ _ _ _ Hbp) in Hv. unfold setMatch in Hv.
  cbn [leafOf conf regexp rgHost rgPath rgQueries] in Hv.
  apply queriesVars_source in Hv as [Hv|(q & caps & Hin & Hc & Hcap)].
  - rewrite (optVars_notin _ _ _ _ Hpn) in Hv.
    rewrite (optVars_notin _ _ _ _ (proj2 (kind_names k n Hbp))) in Hv.
    now rewrite lookup_empty in Hv.
  - rewrite forallb_forall in Hqs.
    exact (queryTemplate_captures _ _ _ _ _ (Hqs _ Hin) Hc Hcap).
Qed.

(** X18: Every variable of a served request other than the bucket, the port
    and the object is a query variable of router.go and holds the first
    value of a query key bound to its name. *)
Theorem query_variable_values ds req hf vars n v :
  forallb plainDomain ds = true ->
  handle ds req = serveHandler hf vars ->
  vars !! n = Some v ->
  ~ In n ["bucket"; "port"; "object"; "objject"] ->
  exists key, In (key, n) queryVariables /\
              queryFirst key (reqQuery req) = Some v.
Proof.
  intros Hp Hh Hv Hn.
  destruct (decide (hf = policyCheck listBucketsHandler [ListBucketAction]))
    as [->|Hne].
  - rewrite (handle_spec _ _ Hp) in Hh.
    destruct (firstSelected (kinds ds) req) as [[k ru]|] eqn:Hf.
    + apply firstSelected_In in Hf as (_ & Hr & _).
      destruct (ruleHandler ru); [|discriminate]. injection Hh as _ <-.
      now apply (routeVars_query k ru).
    + destruct (MethodGet =? reqMethod req)%string; [|discriminate].
      injection Hh as <-. now rewrite lookup_empty in Hv.
  - destruct (selected_rule _ _ _ _ Hp Hh Hne) as (k & ru & _ & Hr & _ & _ & ->).
    now apply (routeVars_query k ru).
Qed.

Lemma query_variable_values_witness :
  exists key, In (key, "signature") queryVariables /\
              queryFirst key (reqQuery presignedTaggingRequest) = Some "c2ln".
Proof.
  apply (query_variable_values sampleDomains presignedTaggingRequest
           (policyCheck getObjectHandler [ListBucketAction])
           (<["signature" := "c2ln"]>
              (<["expires" := "1700000000"]>
                 (<["accessKey" := "AKIA"]>
                    (<["object" := "photos/a.jpg"]>
                       (<["bucket" := "media"]> ∅)))))).
  - reflexivity.
  - vm_compute. reflexivity.
  - reflexivity.
  - cbn [In]. intros H. repeat (destruct H as [H|H]; [discriminate H|]). exact H.
Defined.

(** * The variables of the multipart and xattr routes *)

Lemma setRegexpVars_keeps req (vars0 : gmap string string) q n :
  is_Some (vars0 !! n) -> is_Some (setRegexpVars req vars0 q !! n).
Proof.
  intros Hs. unfold setRegexpVars.
  destruct (regexpCaptures q req) as [caps|]; [|exact Hs].
  destruct (nameIn n (map fst caps)) eqn:Hn.
  - now apply extractVars_in.
  - now rewrite extractVars_notin.
Qed.

Lemma queriesVars_keeps req qs : forall (vars0 : gmap string string) n,
  is_Some (vars0 !! n) -> is_Some (fold_left (setRegexpVars req) qs vars0 !! n).
Proof.
  induction qs as [|q qs IH]; intros vars0 n Hs; cbn [fold_left]; [exact Hs|].
  now apply IH, setRegexpVars_keeps.
Qed.

Lemma queriesVars_in req qs : forall (vars0 : gmap string string) q n,
  In q qs -> matcher_Match (regexpMatcher q) req = true ->
  nameIn n (regexpNames q) = true ->
  is_Some (fold_left (setRegexpVars req) qs vars0 !! n).
Proof.
  induction qs as [|q0 qs IH]; intros vars0 q n; cbn [In fold_left]; [intros []|].
  intros [->|Hin] Hm Hn.
  - now apply queriesVars_keeps, setRegexpVars_in.
  - now apply (IH _ q).
Qed.

(** A query variable the served rule binds is set, to the first value of
    its key, which is in the class of its pattern. *)
Lemma query_var_bound hs k ru req hf key n c plus :
  forallb (bindsQuery hs (qVar key n c plus) n) hostRules = true ->
  forallb (bindsQuery hs (qVar key n c plus) n) pathRules = true ->
  keyOK key = true ->
  ~ In n ["bucket"; "port"; "object"; "objject"] ->
  (forall key', In (key', n) queryVariables -> key' = key) ->
  In ru (kindRules k) -> ownOK req ru = true -> ruleHandler ru = Some hf ->
  In (handlerOf hf) hs ->
  exists v, routeVars k ru req !! n = Some v /\
            queryFirst key (reqQuery req) = Some v /\
            allIn c v = true /\ (plus = true -> v <> EmptyString).
Proof.
  intros Hh Hpth Hkey Hn Huniq Hr Hown Hru Hin.
  pose proof (rules_forall _ k ru Hh Hpth Hr) as Hfact.
  unfold bindsQuery in Hfact.
  rewrite (ownOK_err _ _ Hown), Hru, (proj2 (memb_In _ _) Hin) in Hfact.
  cbn [negb andb implb] in Hfact.
  apply andb_true_iff in Hfact as [Hfact _].
  apply andb_true_iff in Hfact as [Hq Hm].
  apply memb_In in Hq, Hm.
  assert (Hmatch : matcher_Match (regexpMatcher (qVar key n c plus)) req = true).
  { unfold ownOK in Hown. apply andb_true_iff in Hown as [_ Hown].
    rewrite forallb_forall in Hown. now apply Hown. }
  assert (Hbp : nameIn n ["bucket"; "port"] = false).
  { apply (nameIn_subset _ _ ["bucket"; "port"]); [reflexivity|].
    intros H. apply Hn. cbn [In] in *. tauto. }
  assert (Hset : is_Some (routeVars k ru req !! n)).
  { rewrite (routeVars_leaf _ _ _ _ Hbp). unfold setMatch.
    cbn [leafOf conf regexp rgHost rgPath rgQueries].
    apply (queriesVars_in _ _ _ (qVar key n c plus)); try assumption.
    cbn. now rewrite String.eqb_refl. }
  destruct Hset as [v Hv]. exists v. split; [exact Hv|].
  destruct (routeVars_query _ _ _ _ _ Hr Hn Hv) as (key' & Hk' & Hq').
  rewrite (Huniq _ Hk') in Hq'. split; [exact Hq'|].
  rewrite (qVar_match _ _ _ _ _ Hkey) in Hmatch. unfold hasValue in Hmatch.
  rewrite Hq' in Hmatch. apply andb_true_iff in Hmatch as [Hc Hne].
  split; [exact Hc|]. intros ->. cbn [negb orb] in Hne.
  intros ->. discriminate.
Qed.

(** X19: A request served by list-parts, complete-multipart-upload, upload-part
    or abort-multipart-upload carries the first value of the query key
    [uploadId], which may be empty, as the variable [uploadId]; upload-part
    carries a non-empty numeric [partNumber]; get-object-xattr carries a
    non-empty [key]. *)
Theorem multipart_variables ds req hf vars :
  forallb plainDomain ds = true ->
  handle ds req = serveHandler hf vars ->
  (In (handlerOf hf) uploadIdHandlers ->
   is_Some (vars !! "uploadId") /\
   vars !! "uploadId" = queryFirst "uploadId" (reqQuery req)) /\
  (handlerOf hf = uploadPartHandler ->
   exists p, vars !! "partNumber" = Some p /\
             queryFirst "partNumber" (reqQuery req) = Some p /\
             allDigits p = true /\ p <> EmptyString) /\
  (handlerOf hf = getObjectXAttr ->
   exists x, vars !! "key" = Some x /\
             queryFirst "key" (reqQuery req) = Some x /\ x <> EmptyString).
Proof.
  intros Hp Hh.
  assert (Hnot : forall n, In n ["uploadId"; "partNumber"; "key"] ->
                 ~ In n ["bucket"; "port"; "object"; "objject"]).
  { intros n Hn H. cbn [In] in Hn, H.
    repeat (destruct Hn as [<-|Hn]; [intuition discriminate|]). exact Hn. }
  assert (Huniq : forall n, In n ["uploadId"; "partNumber"; "key"] ->
                  forall key', In (key', n) queryVariables -> key' = n).
  { intros n Hn key' H. unfold queryVariables in H. cbn [In] in Hn, H.
    repeat (destruct Hn as [<-|Hn];
            [repeat (destruct H as [H|H];
                     [first [discriminate H|now injection H as <-]|]);
             destruct H|]).
    destruct Hn. }
  assert (Hsel : handlerOf hf <> listBucketsHandler ->
    exists k ru, In ru (kindRules k) /\ ownOK req ru = true /\
                 ruleHandler ru = Some hf /\ vars = routeVars k ru req).
  { intros Hne.
    destruct (selected_rule _ _ _ _ Hp Hh) as (k & ru & _ & Hr & Hown & Hru & Hv).
    - intros ->. now apply Hne.
    - exists k, ru. auto. }
  split; [|split].
  - intros Hin.
    destruct Hsel as (k & ru & Hr & Hown & Hru & ->).
    { intros He. rewrite He in Hin. cbn [uploadIdHandlers In] in Hin.
      repeat (destruct Hin as [Hin|Hin]; [discriminate Hin|]). exact Hin. }
    destruct (query_var_bound uploadIdHandlers k ru req hf
                "uploadId" "uploadId" AnyChar false)
      as (v & Hv & Hq & _); try assumption; try reflexivity.
    + apply Hnot. cbn. tauto.
    + apply Huniq. cbn. tauto.
    + rewrite Hv, Hq. eauto.
  - intros He.
    destruct Hsel as (k & ru & Hr & Hown & Hru & ->); [now rewrite He|].
    destruct (query_var_bound [uploadPartHandler] k ru req hf
                "partNumber" "partNumber" Digit true)
      as (v & Hv & Hq & Hd & Hne); try assumption; try reflexivity.
    + apply Hnot. cbn. tauto.
    + apply Huniq. cbn. tauto.
    + rewrite He. now left.
    + exists v. auto.
  - intros He.
    destruct Hsel as (k & ru & Hr & Hown & Hru & ->); [now rewrite He|].
    destruct (query_var_bound [getObjectXAttr] k ru req hf
                "key" "key" AnyChar true)
      as (v & Hv & Hq & _ & Hne); try assumption; try reflexivity.
    + apply Hnot. cbn. tauto.
    + apply Huniq. cbn. tauto.
    + rewrite He. now left.
    + exists v. auto.
Qed.

Lemma multipart_variables_witness :
  exists p, (<["uploadId" := "u-17"]>
               (<["partNumber" := "1"]>
                  (<["object" := "photos/b.jpg"]> (<["bucket" := "media"]> ∅)))
             : gmap string string) !! "partNumber" = Some p /\
            queryFirst "partNumber" (reqQuery uploadPartCopyRequest) = Some p /\
            allDigits p = true /\ p <> EmptyString.
Proof.
  refine (proj1 (proj2 (multipart_variables sampleDomains uploadPartCopyRequest
            (policyCheck uploadPartHandler [PutObjectAction])
            (<["uploadId" := "u-17"]>
               (<["partNumber" := "1"]>
                  (<["object" := "photos/b.jpg"]> (<["bucket" := "media"]> ∅))))
            _ _)) _).
  - reflexivity.
  - vm_compute. reflexivity.
  - reflexivity.
Defined.

(** * The port variable *)

Lemma kinds_In ds k :
  In k (kinds ds) ->
  match k with
  | viaHost d | viaHostPort d => In d ds
  | viaPath => True
  end.
Proof.
  unfold kinds. rewrite in_app_iff, in_flat_map.
  intros [(d & Hd & Hk)|Hk].
  - cbn [In] in Hk. destruct Hk as [<-|[<-|[]]]; exact Hd.
  - cbn [In] in Hk. destruct Hk as [<-|[]]. exact I.
Qed.

Lemma routeVars_port k ru req p :
  In ru (kindRules k) -> preOK (kindConf k) req = true ->
  routeVars k ru req !! "port" = Some p ->
  exists d b, k = viaHostPort d /\ hostWithPort d (reqHost req) b p /\
              routeVars k ru req !! "bucket" = Some b.
Proof.
  intros Hr Hpre Hv.
  pose proof (rules_forall portFacts k ru eq_refl eq_refl Hr) as Hfact.
  unfold portFacts in Hfact. apply andb_true_iff in Hfact as [Hpn Hqn].
  apply negb_true_iff in Hpn, Hqn. unfold pathHas, queriesHave in *.
  assert (Hleaf : forall o,
    nameIn "port" (optNames o) = false ->
    nameIn "port" (groupNames
      {| rgHost := o; rgPath := rulePath ru; rgQueries := ruleQueries ru |})
    = false).
  { intros o Ho. unfold groupNames. cbn [rgHost rgPath rgQueries].
    now rewrite !nameIn_app, Ho, Hpn, Hqn. }
  unfold routeVars in Hv. rewrite setMatch_bConf in Hv.
  destruct k as [d|d|].
  - exfalso. rewrite !setMatch_notin, lookup_empty in Hv;
      [discriminate|now apply Hleaf|reflexivity].
  - exists d.
    unfold preOK in Hpre. cbn [kindConf hostConf matchers forallb] in Hpre.
    apply andb_true_iff in Hpre as [_ Hpre].
    apply andb_true_iff in Hpre as [Hhost _]. rewrite regexp_match in Hhost.
    destruct (regexpCaptures (hostPortRe d) req) as [r|] eqn:Hc; [|discriminate].
    destruct (hostPortRe_sound _ _ _ Hc) as (b & p' & Hw & ->).
    assert (Hvars : forall V : gmap string string,
      setMatch (regexp (kindConf (viaHostPort d))) req V
      = <["port" := p']> (<["bucket" := b]> V)).
    { intros V. unfold setMatch.
      cbn [kindConf hostConf regexp rgHost rgPath rgQueries fold_left].
      unfold setRegexpVars at 2. rewrite Hc.
      unfold setRegexpVars. rewrite rootPrefix_captures.
      now destruct (stripPrefix "/" (reqPath req)). }
    exists b. unfold routeVars. rewrite setMatch_bConf, Hvars in *.
    rewrite lookup_insert_eq in Hv. injection Hv as <-.
    split; [reflexivity|]. split; [exact Hw|].
    rewrite lookup_insert_ne by discriminate. apply lookup_insert_eq.
  - exfalso. rewrite !setMatch_notin, lookup_empty in Hv;
      [discriminate|now apply Hleaf|reflexivity].
Qed.

(** X17: The variable [port] is set only by the host-and-port router of a
    configured domain: the host is then [b.d:p] for a configured domain
    [d], a non-empty bucket [b] and a non-empty numeric port [p], and the
    variable [bucket] is [b]. *)
Theorem port_variable ds req hf vars p :
  forallb plainDomain ds = true ->
  handle ds req = serveHandler hf vars ->
  vars !! "port" = Some p ->
  exists d b, In d ds /\ hostWithPort d (reqHost req) b p /\
              vars !! "bucket" = Some b.
Proof.
  intros Hp Hh Hv. rewrite (handle_spec _ _ Hp) in Hh.
  destruct (firstSelected (kinds ds) req) as [[k ru]|] eqn:Hf.
  - apply firstSelected_In in Hf as (Hk & Hr & Hpre & _).
    destruct (ruleHandler ru); [|discriminate]. injection Hh as _ <-.
    destruct (routeVars_port _ _ _ _ Hr Hpre Hv) as (d & b & -> & Hw & Hb).
    exists d, b. split; [exact (kinds_In _ _ Hk)|]. auto.
  - destruct (MethodGet =? reqMethod req)%string; [|discriminate].
    injection Hh as _ <-. now rewrite lookup_empty in Hv.
Qed.

Lemma port_variable_witness :
  exists d b, In d sampleDomains /\
              hostWithPort d (reqHost getObjectRequest) b "8080" /\
              (<["object" := "photos/a.jpg"]>
                 (<["bucket" := "media"]> (<["port" := "8080"]> ∅))
               : gmap string string) !! "bucket" = Some b.
Proof.
  apply (port_variable sampleDomains getObjectRequest
           (policyCheck getObjectHandler [GetObjectAction])).
  - reflexivity.
  - vm_compute. reflexivity.
  - reflexivity.
Defined.

(** * Header fields *)

Lemma regexpCaptures_withHeader h rr req :
  regexpCaptures rr (withHeader h req) = regexpCaptures rr req.
Proof.
  unfold regexpCaptures, regexpSubject, getURLQuery.
  now destruct (regexpTyp rr).
Qed.

Lemma matcher_withHeader h m req :
  isHeaderMatcher m = false ->
  matcher_Match m (withHeader h req) = matcher_Match m req.
Proof.
  destruct m as [ms|rr|hs]; cbn [isHeaderMatcher matcher_Match];
    [reflexivity| |discriminate].
  intros _. now rewrite regexpCaptures_withHeader.
Qed.

Lemma matchers_withHeader h ms req :
  existsb isHeaderMatcher ms = false ->
  forallb (fun m => matcher_Match m (withHeader h req)) ms
  = forallb (fun m => matcher_Match m req) ms.
Proof.
  induction ms as [|m ms IH]; [reflexivity|]. cbn [existsb forallb].
  intros H. apply orb_false_iff in H as [Hm H].
  now rewrite (matcher_withHeader _ _ _ Hm), (IH H).
Qed.

Lemma ownOK_put req ru :
  methodOf ru = Some MethodPut -> reqMethod req <> MethodPut ->
  ownOK req ru = false.
Proof.
  intros Hm Hne. destruct (ownOK req ru) eqn:Hown; [|reflexivity].
  now rewrite (ownOK_method _ _ _ Hm Hown) in Hne.
Qed.

Lemma ownOK_withHeader h k ru req :
  In ru (kindRules k) -> reqMethod req <> MethodPut ->
  ownOK (withHeader h req) ru = ownOK req ru.
Proof.
  intros Hr Hne.
  pose proof (rules_forall headerFacts k ru eq_refl eq_refl Hr) as Hfact.
  unfold headerFacts in Hfact. apply orb_true_iff in Hfact as [Hn|Hput].
  - apply negb_true_iff in Hn. unfold ownOK.
    now rewrite (matchers_withHeader _ _ _ Hn).
  - apply bool_decide_eq_true in Hput.
    rewrite !(ownOK_put _ _ Hput); auto.
Qed.

Lemma preOK_withHeader h k req :
  preOK (kindConf k) (withHeader h req) = preOK (kindConf k) req.
Proof.
  unfold preOK. apply matchers_withHeader. now destruct k.
Qed.

Lemma find_ext_in {A} (f g : A -> bool) l :
  (forall x, In x l -> f x = g x) -> find f l = find g l.
Proof.
  induction l as [|x l IH]; intros H; [reflexivity|]. cbn [find].
  rewrite (H x) by now left. destruct (g x); [reflexivity|].
  apply IH. intros y Hy. apply H. now right.
Qed.

Lemma firstSelected_withHeader h ks req :
  reqMethod req <> MethodPut ->
  firstSelected ks (withHeader h req) = firstSelected ks req.
Proof.
  intros Hne. induction ks as [|k ks IH]; [reflexivity|].
  cbn [firstSelected]. unfold selected. rewrite preOK_withHeader, IH.
  rewrite (find_ext_in (ownOK (withHeader h req)) (ownOK req));
    [reflexivity|].
  intros ru Hr. now apply (ownOK_withHeader h k).
Qed.

Lemma setRegexpVars_withHeader h req (vars : gmap string string) rr :
  setRegexpVars (withHeader h req) vars rr = setRegexpVars req vars rr.
Proof. unfold setRegexpVars. now rewrite regexpCaptures_withHeader. Qed.

Lemma setMatch_withHeader h g req (vars : gmap string string) :
  setMatch g (withHeader h req) vars = setMatch g req vars.
Proof.
  unfold setMatch.
  assert (Hq : forall qs (v : gmap string string),
    fold_left (setRegexpVars (withHeader h req)) qs v
    = fold_left (setRegexpVars req) qs v).
  { induction qs as [|q qs IH]; intros v; [reflexivity|]. cbn [fold_left].
    now rewrite setRegexpVars_withHeader, IH. }
  rewrite Hq. destruct (rgHost g), (rgPath g);
    now rewrite ?setRegexpVars_withHeader.
Qed.

(** X14: Only the PUT routes read a header field (the copy-source header of
    copy-object): a request with any other method is served the same way,
    with the same variables, whatever its header fields. *)
Theorem headers_read_by_put_only ds req h :
  forallb plainDomain ds = true ->
  reqMethod req <> MethodPut ->
  handle ds (withHeader h req) = handle ds req.
Proof.
  intros Hp Hne. rewrite !(handle_spec _ _ Hp).
  rewrite (firstSelected_withHeader _ _ _ Hne).
  destruct (firstSelected (kinds ds) req) as [[k ru]|]; [|reflexivity].
  unfold routeVars. now rewrite !setMatch_withHeader.
Qed.

Lemma headers_read_by_put_only_witness :
  handle sampleDomains
    (withHeader [(HeaderNameCopySource, "/media/photos/a.jpg")] getObjectRequest)
  = handle sampleDomains getObjectRequest.
Proof.
  apply (headers_read_by_put_only sampleDomains getObjectRequest
           [(HeaderNameCopySource, "/media/photos/a.jpg")] eq_refl).
  discriminate.
Defined.

(** * The same routes on every bucket router *)

Lemma route_by_find ds req k :
  forallb plainDomain ds = true ->
  firstPre (kinds ds) req = Some k ->
  route ds req =
  match find (ownOK req) (kindRules k) with
  | Some ru =>
      match ruleHandler ru with
      | Some h => routed h
      | None => routeNotFound
      end
  | None =>
      if (MethodGet =? reqMethod req)%string
      then routed (policyCheck listBucketsHandler [ListBucketAction])
      else methodNotAllowed
  end.
Proof.
  intros Hp Hk. pose proof (route_spec ds req Hp) as Hs.
  destruct (find (ownOK req) (kindRules k)) as [ru|] eqn:Hf.
  - rewrite (firstSelected_at _ _ k ru Hk) in Hs.
    + destruct Hs as (hf & -> & -> & _). reflexivity.
    + unfold selected. now rewrite (firstPre_preOK _ _ _ Hk).
  - now rewrite (firstSelected_none _ _ _ Hk Hf) in Hs.
Qed.

Lemma find_same {A B} (f g : A -> bool) (h : A -> B) l l' :
  Forall2 (fun a c => f a = g c /\ h a = h c) l l' ->
  option_map h (find f l) = option_map h (find g l').
Proof.
  induction 1 as [|a c l l' [Hf Hh] _ IH]; [reflexivity|].
  cbn [find]. rewrite Hf. destruct (g c); [cbn; now rewrite Hh|exact IH].
Qed.

(** The rules of two bucket routers give the same answers, in the same
    order, to two requests that differ in host and path only and are both
    object-level or both bucket-level. *)
Lemma view_same inh1 inh2 obj1 obj2 m q hd h1 p1 h2 p2 b :
  let req1 := {| reqMethod := m; reqHost := h1; reqPath := p1;
                 reqQuery := q; reqHeader := hd |} in
  let req2 := {| reqMethod := m; reqHost := h2; reqPath := p2;
                 reqQuery := q; reqHeader := hd |} in
  (forall n, matcher_Match (regexpMatcher (obj1 n)) req1 = b) ->
  (forall n, matcher_Match (regexpMatcher (obj2 n)) req2 = b) ->
  Forall2 (fun a c => ownOK req1 a = ownOK req2 c /\
                      ruleHandler a = ruleHandler c)
          (rulesView inh1 obj1) (rulesView inh2 obj2).
Proof.
  intros req1 req2 H1 H2. unfold rulesView.
  repeat (apply List.Forall2_cons;
          [ split; [|reflexivity];
            first
              [ rewrite !ownOK_objectRule, H1, H2; reflexivity
              | rewrite !ownOK_bucketRule; reflexivity
              | reflexivity ]
          | ]).
  apply List.Forall2_nil.
Qed.



(** * Every other registered route is live *)

Lemma virtualBucket_nohost ds : virtualBucket ds EmptyString = None.
Proof.
  induction ds as [|d ds IH]; [reflexivity|]. cbn [virtualBucket].
  unfold matchDomain, matchDomainPort. rewrite app_cons_str.
  cbn [stripSuffix String.eqb splitLastColon]. exact IH.
Qed.

Lemma resolve_nohost ds path :
  resolve ds EmptyString path = resolve [] EmptyString path.
Proof. unfold resolve. now rewrite virtualBucket_nohost. Qed.

(** A request without a host name, addressed by its path. *)
Lemma reach ds m p q hd addr h :
  forallb plainDomain ds = true ->
  resolve [] EmptyString p = Some addr ->
  h <> bare unsupportedOperationHandler ->
  (forall inh obj,
     (forall n, matcher_Match (regexpMatcher (obj n))
                  {| reqMethod := m; reqHost := EmptyString; reqPath := p;
                     reqQuery := q; reqHeader := hd |}
                = isSome (objectKey addr)) ->
     exists ru,
       find (ownOK {| reqMethod := m; reqHost := EmptyString; reqPath := p;
                      reqQuery := q; reqHeader := hd |})
            (rulesView inh obj) = Some ru /\
       ruleHandler ru = Some h) ->
  exists req, route ds req = routed h.
Proof.
  intros Hp Hr Hne Hfind.
  exists {| reqMethod := m; reqHost := EmptyString; reqPath := p;
            reqQuery := q; reqHeader := hd |}.
  apply (level_route _ _ addr); try assumption.
  cbn [reqHost reqPath]. now rewrite resolve_nohost.
Qed.

Ltac reach_by Hp m p q hd :=
  eapply (reach _ m p q hd _ _ Hp); [reflexivity|discriminate|];
  let inh := fresh "inh" in
  let obj := fresh "obj" in
  let Hobj := fresh "Hobj" in
  intros inh obj Hobj; cbn [isSome objectKey] in Hobj; find_rule.



(** * The bucket variable *)

Lemma kindAddress_bucket k req addr :
  kindAddress k req = Some addr -> bucketName addr <> EmptyString.
Proof.
  unfold kindAddress.
  destruct (stripPrefix "/" (reqPath req)) as [rest|]; [|discriminate].
  destruct k as [d|d|].
  - unfold matchDomain.
    destruct (stripSuffix ("." +:+ d) (reqHost req)) as [b|]; [|discriminate].
    destruct (nonEmpty b) as [b'|] eqn:Hb; [|discriminate].
    intros [= <-]. now apply nonEmpty_Some in Hb.
  - destruct (matchDomainPort d (reqHost req)) as [b|] eqn:Hm; [|discriminate].
    intros [= <-]. cbn [bucketName].
    destruct (matchDomainPort_sound _ _ _ Hm) as (p & _ & Hb & _). exact Hb.
  - destruct (nonEmpty (takeRun NotSlash rest)) as [seg|] eqn:Hs; [|discriminate].
    intros [= <-]. now apply nonEmpty_Some in Hs.
Qed.

(** X15: Every request served by a route of a bucket router carries a
    non-empty [bucket] variable; the list-buckets route serves its
    requests without any variable. *)
Theorem bucket_variable_present ds req hf vars :
  forallb plainDomain ds = true ->
  handle ds req = serveHandler hf vars ->
  if bool_decide (hf = policyCheck listBucketsHandler [ListBucketAction])
  then vars = ∅
  else exists b, vars !! "bucket" = Some b /\ b <> EmptyString.
Proof.
  intros Hp Hh. rewrite (handle_spec _ _ Hp) in Hh.
  destruct (firstSelected (kinds ds) req) as [[k ru]|] eqn:Hf.
  - apply firstSelected_In in Hf as (_ & Hr & Hpre & _).
    pose proof (rules_forall
      (fun ru => match ruleHandler ru with
                 | Some hf => negb (bool_decide
                     (hf = policyCheck listBucketsHandler [ListBucketAction]))
                 | None => true
                 end) k ru eq_refl eq_refl Hr) as Hfact.
    cbv beta in Hfact.
    destruct (ruleHandler ru) as [h|]; [|discriminate].
    injection Hh as <- <-. apply negb_true_iff in Hfact. rewrite Hfact.
    rewrite preOK_kind in Hpre.
    destruct (kindAddress k req) as [addr|] eqn:Ha; [|discriminate].
    exists (bucketName addr).
    split; [now apply routeVars_bucket|now apply (kindAddress_bucket k req)].
  - destruct (MethodGet =? reqMethod req)%string; [|discriminate].
    injection Hh as <- <-. reflexivity.
Qed.

Lemma bucket_variable_present_witness :
  exists b, (<["objject" := "photos/a.jpg"]> (<["bucket" := "media"]> ∅)
             : gmap string string) !! "bucket" = Some b /\ b <> EmptyString.
Proof.
  apply (bucket_variable_present sampleDomains getAclRequest getObjectACL
           (<["objject" := "photos/a.jpg"]> (<["bucket" := "media"]> ∅))).
  - reflexivity.
  - vm_compute. reflexivity.
Defined.
